(** * kemi-api: the resilient fetch-and-cache layer

    A shallow embedding of the admission control ([mcp_manager.py]), the
    persistent cache ([chroma_cache.py]) and the in-process cache manager,
    request coalescer and market endpoints ([main.py]), with the properties
    of the specification stated over it.

    Conventions.
    - Time is an integer number of clock units (seconds); [time.time()] and
      [datetime.utcnow()] read the same wall clock.
    - The environment (how long a suspension really lasts, what the upstream
      answers, whether the persistent store fails) is part of the state, as
      finite oracles that the operations consume.
    - Python exceptions are the [Exc] outcome of a computation.
    - Fields that exist only to state properties (logs and counters) are
      marked "ghost": no operation reads them. *)

From stdpp Require Import gmap strings list pretty.
From Stdlib Require Import ZArith Lia Ascii.

Set Warnings "-register-all".

(* ================================================================== *)
(** * Part I: definitions *)
(* ================================================================== *)

(** ** Python values *)

(** [x in s] on strings. *)
Fixpoint contains (needle hay : string) : bool :=
  String.prefix needle hay ||
  match hay with
  | EmptyString => false
  | String _ rest => contains needle rest
  end.

(** [str.lower()] on the ASCII letters. *)
Definition lower_ascii (c : ascii) : ascii :=
  let n := nat_of_ascii c in
  if (65 <=? n)%nat && (n <=? 90)%nat then ascii_of_nat (n + 32) else c.

Fixpoint lower (s : string) : string :=
  match s with
  | EmptyString => EmptyString
  | String c rest => String (lower_ascii c) (lower rest)
  end.

(** Values decoded by [json.loads]. Numbers are integers here. *)
Inductive json : Type :=
| JNull
| JBool (b : bool)
| JNum (n : Z)
| JStr (s : string)
| JArr (items : list json)
| JObj (fields : list (string * json)).

(** What the caches hold ([Any] in the source): decoded JSON, or a pydantic
    response model, given by its class name and its [.dict()]. *)
Inductive pyval : Type :=
| PJson (j : json)
| PModel (cls : string) (fields : json).

(** Python truthiness ([if data:]). A pydantic model defines neither
    [__bool__] nor [__len__], so it is always true. *)
Definition json_truthy (j : json) : bool :=
  match j with
  | JNull => false
  | JBool b => b
  | JNum n => negb (n =? 0)%Z
  | JStr s => negb (String.eqb s "")
  | JArr items => negb (Nat.eqb (length items) 0)
  | JObj fields => negb (Nat.eqb (length fields) 0)
  end.

Definition truthy (v : pyval) : bool :=
  match v with
  | PJson j => json_truthy j
  | PModel _ _ => true
  end.

(** [if x:] on an [Optional] value. *)
Definition opt_truthy {A} (t : A -> bool) (o : option A) : bool :=
  match o with
  | Some a => t a
  | None => false
  end.

(** [if x:] on an object reference that may be [None]. *)
Definition is_some {A} (o : option A) : bool :=
  match o with
  | Some _ => true
  | None => false
  end.

(** Outcome of a computation: a value, or a raised exception with its
    message ([str(e)]). *)
Inductive result (A : Type) : Type :=
| Val (a : A)
| Exc (msg : string).
Arguments Val {A} a.
Arguments Exc {A} msg.

(** Computations over a state [S] that may raise. *)
Definition SE (S A : Type) : Type := S -> result A * S.

Definition ret {S A} (a : A) : SE S A := fun s => (Val a, s).

Definition raise {S A} (msg : string) : SE S A := fun s => (Exc msg, s).

Definition bind {S A B} (m : SE S A) (k : A -> SE S B) : SE S B :=
  fun s =>
    match m s with
    | (Val a, s') => k a s'
    | (Exc e, s') => (Exc e, s')
    end.

(** [try: body except Exception as e: handler(str(e))]. *)
Definition try_except {S A} (body : SE S A) (handler : string -> SE S A)
  : SE S A :=
  fun s =>
    match body s with
    | (Val a, s') => (Val a, s')
    | (Exc e, s') => handler e s'
    end.

#[global] Instance M_ret {S} : MRet (SE S) := @ret S.
#[global] Instance M_bind {S} : MBind (SE S) := fun A B k m => bind m k.

(** ** Operations of Python on decoded values *)

(** [type(x).__name__]. *)
Definition type_name (v : json) : string :=
  match v with
  | JNull => "NoneType"
  | JBool _ => "bool"
  | JNum _ => "int"
  | JStr _ => "str"
  | JArr _ => "list"
  | JObj _ => "dict"
  end.

(** The value of a key among the items of a dict, which lists each key
    once. *)
Fixpoint assoc (key : string) (fields : list (string * json)) : option json :=
  match fields with
  | [] => None
  | (k, v) :: rest => if String.eqb k key then Some v else assoc key rest
  end.

(** [d.get(key, dflt)]. *)
Definition py_get {S} (key : string) (dflt : json) (d : json) : SE S json :=
  match d with
  | JObj fields => ret (default dflt (assoc key fields))
  | _ => raise ("'" ++ type_name d ++ "' object has no attribute 'get'")
  end.

(** The items that an iteration over a value goes through: those of a
    list, the characters of a string, the keys of a dict. *)
Definition items_of (v : json) : option (list json) :=
  match v with
  | JArr items => Some items
  | JStr s =>
    Some ((fun c => JStr (String c EmptyString)) <$>
          String.list_ascii_of_string s)
  | JObj fields => Some ((fun kv => JStr (fst kv)) <$> fields)
  | _ => None
  end.

(** [for x in v]. *)
Definition py_iter {S} (v : json) : SE S (list json) :=
  match items_of v with
  | Some items => ret items
  | None => raise ("'" ++ type_name v ++ "' object is not iterable")
  end.

(** [a, b = v]. *)
Definition unpack2 {S} (v : json) : SE S (json * json) :=
  match items_of v with
  | Some [a; b] => ret (a, b)
  | Some (_ :: _ :: _ :: _) => raise "too many values to unpack (expected 2)"
  | Some items =>
    raise ("not enough values to unpack (expected 2, got " ++
           pretty (length items) ++ ")")
  | None => raise ("cannot unpack non-iterable " ++ type_name v ++ " object")
  end.

(** [len(v)]. *)
Definition py_len {S} (v : json) : SE S nat :=
  match v with
  | JArr items => ret (length items)
  | JStr s => ret (String.length s)
  | JObj fields => ret (length fields)
  | _ => raise ("object of type '" ++ type_name v ++ "' has no len()")
  end.

(** [v[i]] for an index [i >= 0]; the keys of a decoded dict are strings,
    so that none is [i]. *)
Definition py_index {S} (v : json) (i : nat) : SE S json :=
  match v with
  | JArr items =>
    match items !! i with
    | Some x => ret x
    | None => raise "list index out of range"
    end
  | JStr s =>
    match String.list_ascii_of_string s !! i with
    | Some c => ret (JStr (String c EmptyString))
    | None => raise "string index out of range"
    end
  | JObj _ => raise (pretty i)
  | _ => raise ("'" ++ type_name v ++ "' object is not subscriptable")
  end.

(* ------------------------------------------------------------------ *)
(** ** mcp_manager.py *)
(* ------------------------------------------------------------------ *)

Module Mcp.
Local Open Scope Z_scope.

(** The state of [MCPManager.__init__] that the admission control uses. *)
Record MCPManager : Type := mkMCPManager {
  _request_queue : list Z;
  _max_requests_per_minute : nat;
  _request_delay : Z;
  _last_request_time : Z;
  _circuit_breaker_open : bool;
  _circuit_breaker_opened_at : Z;
  _circuit_breaker_timeout : Z
}.

Definition __init__ : MCPManager :=
  {| _request_queue := [];
     _max_requests_per_minute := 5;
     _request_delay := 8;
     _last_request_time := 0;
     _circuit_breaker_open := false;
     _circuit_breaker_opened_at := 0;
     _circuit_breaker_timeout := 300 |}.

(** What one upstream invocation ([session.call_tool] and the decoding of
    its answer) does: it yields data or raises. *)
Inductive outcome : Type :=
| Success (data : json)
| Failure (error_msg : string).

(** The manager in its environment.
    - [clock]: the wall clock.
    - [delays]: oracle; the time that passes at each clock reading and, on
      top of the requested duration, at each suspension.
    - [upstream]: oracle; the outcomes of the successive upstream
      invocations (a connection failure once exhausted).
    - [calls] (ghost): number of upstream invocations so far.
    - [recorded] (ghost): every timestamp ever appended to
      [_request_queue], oldest first.
    - [slept] (ghost): the durations passed to [asyncio.sleep], oldest
      first. *)
Record World : Type := mkWorld {
  mgr : MCPManager;
  clock : Z;
  delays : list nat;
  upstream : list outcome;
  calls : nat;
  recorded : list Z;
  slept : list Z
}.

Abbreviation M := (SE World).

Definition get_mgr : M MCPManager := fun w => (Val (mgr w), w).

Definition put_mgr (m : MCPManager) : M unit := fun w =>
  (Val tt, {| mgr := m; clock := clock w; delays := delays w;
              upstream := upstream w; calls := calls w;
              recorded := recorded w; slept := slept w |}).

(** Time passes: the next delay of the oracle is added to the clock. *)
Definition tick : M unit := fun w =>
  (Val tt, {| mgr := mgr w;
              clock := clock w + Z.of_nat (hd 0%nat (delays w));
              delays := tl (delays w);
              upstream := upstream w; calls := calls w;
              recorded := recorded w; slept := slept w |}).

(** [time.time()]. *)
Definition read_clock : M Z := fun w => (Val (clock w), w).

Definition time_time : M Z := tick;; read_clock.

(** [await asyncio.sleep(d)]: at least [d] passes. *)
Definition elapse (d : Z) : M unit := fun w =>
  (Val tt, {| mgr := mgr w; clock := clock w + Z.max 0 d;
              delays := delays w; upstream := upstream w;
              calls := calls w; recorded := recorded w;
              slept := slept w ++ [d] |}).

Definition sleep (d : Z) : M unit := elapse d;; tick.

(** Ghost: log a timestamp appended to the request queue. *)
Definition log_recorded (t : Z) : M unit := fun w =>
  (Val tt, {| mgr := mgr w; clock := clock w; delays := delays w;
              upstream := upstream w; calls := calls w;
              recorded := recorded w ++ [t]; slept := slept w |}).

(** [_wait_for_rate_limit]. *)
Definition _wait_for_rate_limit : M unit :=
  now ← time_time;
  m ← get_mgr;
  (* Clean old requests *)
  let queue := List.filter (fun t => now - t <? 60) (_request_queue m) in
  put_mgr {| _request_queue := queue;
             _max_requests_per_minute := _max_requests_per_minute m;
             _request_delay := _request_delay m;
             _last_request_time := _last_request_time m;
             _circuit_breaker_open := _circuit_breaker_open m;
             _circuit_breaker_opened_at := _circuit_breaker_opened_at m;
             _circuit_breaker_timeout := _circuit_breaker_timeout m |};;
  (* Check if we need to wait *)
  (if (_max_requests_per_minute m <=? length queue)%nat then
     match queue with
     | [] => raise "list index out of range"
     | oldest :: _ =>
       let wait_time := 60 - (now - oldest) + 10 in
       if 0 <? wait_time then sleep wait_time else ret tt
     end
   else ret tt);;
  (* Ensure minimum delay between requests *)
  (let time_since_last := now - _last_request_time m in
   if time_since_last <? _request_delay m then
     sleep (_request_delay m - time_since_last)
   else ret tt);;
  (* Record this request *)
  t1 ← time_time;
  log_recorded t1;;
  t2 ← time_time;
  m' ← get_mgr;
  put_mgr {| _request_queue := _request_queue m' ++ [t1];
             _max_requests_per_minute := _max_requests_per_minute m';
             _request_delay := _request_delay m';
             _last_request_time := t2;
             _circuit_breaker_open := _circuit_breaker_open m';
             _circuit_breaker_opened_at := _circuit_breaker_opened_at m';
             _circuit_breaker_timeout := _circuit_breaker_timeout m' |}.

Definition set_breaker (open : bool) (opened_at : Z) (m : MCPManager)
  : MCPManager :=
  {| _request_queue := _request_queue m;
     _max_requests_per_minute := _max_requests_per_minute m;
     _request_delay := _request_delay m;
     _last_request_time := _last_request_time m;
     _circuit_breaker_open := open;
     _circuit_breaker_opened_at := opened_at;
     _circuit_breaker_timeout := _circuit_breaker_timeout m |}.

(** [_check_circuit_breaker]. *)
Definition _check_circuit_breaker : M bool :=
  current_time ← time_time;
  m ← get_mgr;
  if _circuit_breaker_open m then
    if _circuit_breaker_timeout m <? current_time - _circuit_breaker_opened_at m
    then
      put_mgr (set_breaker false (_circuit_breaker_opened_at m) m);;
      ret false
    else ret true
  else ret false.

(** [_open_circuit_breaker]. *)
Definition _open_circuit_breaker : M unit :=
  m ← get_mgr;
  put_mgr (set_breaker true (_circuit_breaker_opened_at m) m);;
  t ← time_time;
  m' ← get_mgr;
  put_mgr (set_breaker (_circuit_breaker_open m') t m').

(** [session.call_tool(tool_name, params)] with [get_session] and the
    decoding of the answer: one upstream invocation. *)
Definition call_tool (tool_name : string) (params : list (string * json))
  : M json := fun w =>
  let w' := {| mgr := mgr w; clock := clock w; delays := delays w;
               upstream := tl (upstream w); calls := S (calls w);
               recorded := recorded w; slept := slept w |} in
  match tick w' with
  | (_, w'') =>
    match hd (Failure "connection closed") (upstream w) with
    | Success data => (Val data, w'')
    | Failure e => (Exc e, w'')
    end
  end.

(** The two tests of the exception handler on [error_msg]. *)
Definition is_rate_limited (error_msg : string) : bool :=
  contains "429" error_msg || contains "Too Many Requests" error_msg.

Definition is_transient (error_msg : string) : bool :=
  contains "timeout" (lower error_msg) ||
  contains "connection" (lower error_msg).

(** How one iteration of the retry loop ends: the function returns, or the
    loop goes on to its next iteration with the current value of
    [consecutive_429s]. *)
Inductive loop_ctl : Type :=
| Return (r : option json)
| Next (consecutive_429s : Z).

(** The [except Exception as e] block of the retry loop. *)
Definition on_exception (max_retries attempt consecutive_429s : Z)
    (error_msg : string) : M loop_ctl :=
  if is_rate_limited error_msg then
    let consecutive_429s := consecutive_429s + 1 in
    (* Open circuit breaker after too many 429s *)
    if 2 <=? consecutive_429s then
      _open_circuit_breaker;; ret (Return None)
    else
      (* Exponential backoff for rate limiting *)
      let wait_time := 2 ^ attempt * 20 in
      sleep wait_time;; ret (Next consecutive_429s)
  else if is_transient error_msg then
    let wait_time := (attempt + 1) * 5 in
    sleep wait_time;; ret (Next consecutive_429s)
  else
    (* Other errors - log and continue *)
    if attempt <? max_retries - 1 then
      sleep 3;; ret (Next consecutive_429s)
    else ret (Next consecutive_429s).

(** The [try] block of the retry loop. *)
Definition attempt_body (tool_name : string) (params : list (string * json))
  : M loop_ctl :=
  _wait_for_rate_limit;;
  data ← call_tool tool_name params;
  m ← get_mgr;
  (* Reset circuit breaker on success *)
  (if _circuit_breaker_open m then
     put_mgr (set_breaker false (_circuit_breaker_opened_at m) m)
   else ret tt);;
  ret (Return (Some data)).

(** [for attempt in range(max_retries)], from iteration [attempt] on, with
    [remaining] iterations left; after the loop, [return None]. *)
Fixpoint retry_loop (tool_name : string) (params : list (string * json))
    (max_retries : Z) (remaining : nat) (attempt consecutive_429s : Z)
  : M (option json) :=
  match remaining with
  | O => ret None
  | S remaining' =>
    ctl ← try_except (attempt_body tool_name params)
            (on_exception max_retries attempt consecutive_429s);
    match ctl with
    | Return r => ret r
    | Next c =>
      retry_loop tool_name params max_retries remaining' (attempt + 1) c
    end
  end.

(** [call_tool_with_retry], as one call runs it from its first line to
    its return: the test of the breaker, then, under
    [_global_request_lock], the loop; time passes while the lock is
    awaited. What other calls of the same manager do between the test and
    the loop is the matter of [flight_step] below. *)
Definition call_tool_with_retry (tool_name : string)
    (params : list (string * json)) (max_retries : Z) : M (option json) :=
  is_open ← _check_circuit_breaker;
  if is_open : bool then ret None
  else
    tick;;
    retry_loop tool_name params max_retries (Z.to_nat max_retries) 0 0.

(** [get_top_gainers_losers] of the manager. *)
Definition get_top_gainers_losers (vs_currency duration top_coins : string)
  : M (option json) :=
  call_tool_with_retry "get_coins_top_gainers_losers"
    [("vs_currency", JStr vs_currency); ("duration", JStr duration);
     ("top_coins", JStr top_coins)] 3.

(** A sequence of calls made through one manager. *)
Fixpoint run_calls (reqs : list (string * list (string * json) * Z))
  : M unit :=
  match reqs with
  | [] => ret tt
  | (tool_name, params, max_retries) :: rest =>
    fun w => run_calls rest (snd (call_tool_with_retry tool_name params
                                     max_retries w))
  end.

(** The manager at process start, at time [t0], in a given environment. *)
Definition initial_world (t0 : Z) (ds : list nat) (ups : list outcome)
  : World :=
  {| mgr := __init__; clock := t0; delays := ds; upstream := ups;
     calls := 0; recorded := []; slept := [] |}.

(** Number of recorded calls in the window [a <= t < a + 60]. *)
Definition in_window (a t : Z) : bool := (a <=? t) && (t <? a + 60).

Definition calls_in_window (a : Z) (l : list Z) : nat :=
  length (List.filter (in_window a) l).

(** Any two recorded calls are at least [d] apart ([l] is oldest first). *)
Definition min_spacing (d : Z) (l : list Z) : Prop :=
  forall (i j : nat) (x y : Z),
    (i < j)%nat -> l !! i = Some x -> l !! j = Some y -> x + d <= y.

(** The invariant of the rate limiter. The queue holds the recorded
    timestamps that were younger than 60 at the last pruning. *)
Record rate_inv (w : World) : Prop := {
  ri_max : _max_requests_per_minute (mgr w) = 5%nat;
  ri_delay : _request_delay (mgr w) = 8;
  ri_clock : Forall (fun t => t <= clock w) (recorded w);
  ri_last : Forall (fun t => t <= _last_request_time (mgr w)) (recorded w);
  ri_queue : exists c, c <= clock w /\
    _request_queue (mgr w) = List.filter (fun t => c - t <? 60) (recorded w);
  ri_spacing : min_spacing 8 (recorded w);
  ri_window : forall a, (calls_in_window a (recorded w) <= 5)%nat
}.

(** The rate limiter's part of the state is untouched and time has not
    gone backwards. *)
Definition rate_frame (w w' : World) : Prop :=
  clock w <= clock w' /\
  recorded w' = recorded w /\
  _request_queue (mgr w') = _request_queue (mgr w) /\
  _last_request_time (mgr w') = _last_request_time (mgr w) /\
  _max_requests_per_minute (mgr w') = _max_requests_per_minute (mgr w) /\
  _request_delay (mgr w') = _request_delay (mgr w).

(** Nothing was sent upstream, and the rate limiter was not involved. *)
Definition quiet (w w' : World) : Prop :=
  rate_frame w w' /\ upstream w' = upstream w /\ calls w' = calls w.

Definition is_failure (o : outcome) : Prop :=
  match o with
  | Success _ => False
  | Failure _ => True
  end.

(** [n] successive calls of [_check_circuit_breaker]. *)
Fixpoint poll_breaker (n : nat) : M (list bool) :=
  match n with
  | O => ret []
  | S n' =>
    b ← _check_circuit_breaker;
    bs ← poll_breaker n';
    ret ((b : bool) :: bs)
  end.

(** Sample states. The breaker was opened at 1000 and it is now 1100. *)
Definition breaker_open_world : World :=
  {| mgr := set_breaker true 1000 __init__; clock := 1100; delays := [];
     upstream := [Success (JObj [("ok", JBool true)])];
     calls := 0; recorded := []; slept := [] |}.

(** *** Calls in flight together *)

(** The calls of one manager are tasks of one event loop: a call runs
    until it awaits. [call_tool_with_retry] tests the breaker before
    [async with self._global_request_lock], so that a call can pass the
    test while another call holds the lock; it then waits for the lock and
    runs its loop afterwards, without a second test. Where a call stands:
    before the test; past it, with iteration [attempt] of its loop to run
    next, waiting for the lock or holding it; or returned. *)
Inductive stage : Type :=
| AtGate
| InLoop (remaining : nat) (attempt consecutive_429s : Z)
| Finished (r : result (option json)).

Record call : Type := mkCall {
  call_tool_name : string;
  call_params : list (string * json);
  call_max_retries : Z;
  at_stage : stage
}.

Definition with_stage (st : stage) (c : call) : call :=
  {| call_tool_name := call_tool_name c; call_params := call_params c;
     call_max_retries := call_max_retries c; at_stage := st |}.

(** The manager with its calls. [lock_queue]: the calls that have asked
    for [_global_request_lock] and not released it, in the order in which
    they asked; the first one holds the lock, which is handed over in that
    order. *)
Record Flights : Type := mkFlights {
  fl_world : World;
  fl_calls : list call;
  lock_queue : list nat
}.

(** What call [i] does when the event loop runs it: the test of the
    breaker, after which it asks for the lock (the time that passes until
    it has the lock is taken here); or, when it holds the lock, one
    iteration of its loop, with the awaits of that iteration; or, the
    iterations being over, the [return None] that follows the loop. A call
    that has returned, or that waits for the lock behind another call,
    cannot run. *)
Definition flight_step (i : nat) (f : Flights) : option Flights :=
  match fl_calls f !! i with
  | None => None
  | Some c =>
    let update (st : stage) (w : World) (queue : list nat) :=
      Some {| fl_world := w;
              fl_calls := <[i := with_stage st c]> (fl_calls f);
              lock_queue := queue |} in
    match at_stage c with
    | AtGate =>
      (* Check circuit breaker *)
      match _check_circuit_breaker (fl_world f) with
      | (Val true, w) => update (Finished (Val None)) w (lock_queue f)
      | (Val false, w) =>
        (* Use global lock to prevent concurrent requests *)
        update (InLoop (Z.to_nat (call_max_retries c)) 0 0) (snd (tick w))
          (lock_queue f ++ [i])
      | (Exc e, w) => update (Finished (Exc e)) w (lock_queue f)
      end
    | InLoop remaining attempt consecutive_429s =>
      match lock_queue f with
      | holder :: waiters =>
        if (holder =? i)%nat then
          match remaining with
          | O => update (Finished (Val None)) (fl_world f) waiters
          | S remaining' =>
            match try_except
                    (attempt_body (call_tool_name c) (call_params c))
                    (on_exception (call_max_retries c) attempt
                       consecutive_429s) (fl_world f) with
            | (Val (Return r), w) => update (Finished (Val r)) w waiters
            | (Val (Next c429), w) =>
              update (InLoop remaining' (attempt + 1) c429) w (lock_queue f)
            | (Exc e, w) => update (Finished (Exc e)) w waiters
            end
          end
        else None
      | [] => None
      end
    | Finished _ => None
    end
  end.

(** The calls run in the order of [schedule]. *)
Fixpoint run_flights (schedule : list nat) (f : Flights) : option Flights :=
  match schedule with
  | [] => Some f
  | i :: rest =>
    match flight_step i f with
    | Some f' => run_flights rest f'
    | None => None
    end
  end.

(** Calls that have been made and have not run yet. *)
Definition take_off (w : World)
    (reqs : list (string * list (string * json) * Z)) : Flights :=
  {| fl_world := w;
     fl_calls := (fun req => mkCall (fst (fst req)) (snd (fst req))
                               (snd req) AtGate) <$> reqs;
     lock_queue := [] |}.

(** The call is past the test of the breaker and has not returned. *)
Definition past_gate (c : call) : bool :=
  match at_stage c with
  | InLoop _ _ _ => true
  | _ => false
  end.

(** The breaker as the specification has it: from process start and
    whatever the calls do, once the breaker is open every test made
    before more than the cooldown has elapsed since it was opened answers
    "open". *)
Definition open_until_cooldown : Prop :=
  forall (t0 : Z) (ds : list nat) (ups : list outcome)
         (reqs : list (string * list (string * json) * Z))
         (before after : list nat) (f f' : Flights) (b : bool) (w' : World),
    run_flights before (take_off (initial_world t0 ds ups) reqs) = Some f ->
    _circuit_breaker_open (mgr (fl_world f)) = true ->
    run_flights after f = Some f' ->
    _check_circuit_breaker (fl_world f') = (Val b, w') ->
    clock w' - _circuit_breaker_opened_at (mgr (fl_world f))
      <= _circuit_breaker_timeout (mgr (fl_world f)) ->
    b = true.

(** Two calls made at 1000; the upstream answers 429 twice, then with
    data. *)
Definition two_flights : Flights :=
  take_off
    (initial_world 1000 [] [Failure "429"; Failure "429"; Success (JNum 7)])
    [("get_global", [], 3); ("get_search_trending", [], 3)].

(** Two calls made while the breaker of [breaker_open_world] is open. *)
Definition grounded_flights : Flights :=
  take_off
    {| mgr := mgr breaker_open_world; clock := 1100;
       delays := [50; 60]%nat; upstream := [Success (JNum 7)]; calls := 0;
       recorded := []; slept := [] |}
    [("get_global", [], 3); ("get_search_trending", [], 3)].

(** *** The other requests of the manager *)

(** [get_coin_data]. *)
Definition get_coin_data (coin_id : string) : M (option json) :=
  call_tool_with_retry "get_id_coins"
    [("id", JStr coin_id); ("localization", JBool false);
     ("tickers", JBool false); ("market_data", JBool true);
     ("community_data", JBool false); ("developer_data", JBool false);
     ("sparkline", JBool false)] 3.

(** [get_trending_coins]. *)
Definition get_trending_coins : M (option json) :=
  call_tool_with_retry "get_search_trending" [] 3.

(** [get_global_data]. *)
Definition get_global_data : M (option json) :=
  call_tool_with_retry "get_global" [] 3.

(** [get_coins_markets]. *)
Definition get_coins_markets (params : list (string * json))
  : M (option json) :=
  call_tool_with_retry "get_coins_markets" params 3.

(** The loop of [get_ohlc_data] over the price points from number [i] on:
    one row [timestamp, open, high, low, close, volume] for each. *)
Fixpoint ohlc_rows {St} (volumes : json) (i : nat) (prices : list json)
  : SE St (list json) :=
  match prices with
  | [] => ret []
  | price_point :: rest =>
    '(timestamp, price) ← unpack2 price_point;
    n ← py_len volumes;
    volume ← (if (i <? n)%nat
              then row ← py_index volumes i; py_index row 1
              else ret (JNum 0));
    rows ← ohlc_rows volumes (S i) rest;
    ret (JArr [timestamp; price; price; price; price; volume] :: rows)
  end.

(** The conversion of a market chart to the OHLC format. *)
Definition chart_to_ohlc {St} (chart_data : json) : SE St json :=
  prices ← py_get "prices" (JArr []) chart_data;
  volumes ← py_get "total_volumes" (JArr []) chart_data;
  points ← py_iter prices;
  ohlc_data ← ohlc_rows volumes 0 points;
  ret (JArr ohlc_data).

(** [get_ohlc_data]. The two timestamps are two readings of the clock;
    a day of the [timedelta] counts for 86400 seconds, as it does when the
    offset of the local time is the same at both ends. *)
Definition get_ohlc_data (coin_id : string) (days : Z) : M (option json) :=
  end_timestamp ← time_time;
  now ← time_time;
  let start_timestamp := now - days * 86400 in
  let params :=
    [("id", JStr coin_id); ("vs_currency", JStr "usd");
     ("from", JNum start_timestamp); ("to", JNum end_timestamp);
     ("interval", JStr "daily")] in
  (* Try OHLC first *)
  ohlc_data ← call_tool_with_retry "get_range_coins_ohlc" params 3;
  if opt_truthy json_truthy ohlc_data then ret ohlc_data
  else
    (* Fallback to market chart *)
    chart_data ← call_tool_with_retry "get_range_coins_market_chart" params 3;
    match chart_data with
    | Some d =>
      if json_truthy d then
        (* Convert market chart to OHLC format *)
        ohlc_data ← chart_to_ohlc d;
        ret (Some ohlc_data)
      else ret None
    | None => ret None
    end.

(** The number of rate-limit failures among error messages. *)
Definition count_429 (es : list string) : Z :=
  Z.of_nat (length (List.filter is_rate_limited es)).

(** The settings of the manager are as they were, and the oracle of the
    delays has only been consumed. *)
Definition conf_frame (w w' : World) : Prop :=
  _max_requests_per_minute (mgr w') = _max_requests_per_minute (mgr w) /\
  _circuit_breaker_timeout (mgr w') = _circuit_breaker_timeout (mgr w) /\
  forall P : nat -> Prop, Forall P (delays w) -> Forall P (delays w').

(** A point [[a, b]] of a market chart. *)
Definition point (p : json * json) : json := JArr [fst p; snd p].

(** A market chart with its upstream answer: prices only. *)
Definition sample_chart : json :=
  JObj [("prices", JArr [point (JNum 10, JNum 5); point (JNum 20, JNum 6)]);
        ("total_volumes", JArr [point (JNum 10, JNum 900)])].

End Mcp.

(* ------------------------------------------------------------------ *)
(** ** chroma_cache.py *)
(* ------------------------------------------------------------------ *)

(** A document of the collection with its metadata. The JSON text is given
    by the value it encodes ([json.loads (json.dumps x) = x] on [json]);
    of the metadata, the endpoint and the timestamp. *)
Record document : Type := mkDocument {
  doc_json : json;
  doc_endpoint : string;
  doc_timestamp : Z
}.

(** The operations of the ChromaDB collection. *)
Inductive store_op : Type :=
| OpGet (id : string)
| OpUpsert (id : string)
| OpDelete (id : string).

(** A [ChromaPersistentCache] object in its environment.
    - [collection]: the documents by id; [None] when ChromaDB could not be
      initialized.
    - [faults]: oracle; whether each successive operation of the
      collection raises (none does once exhausted).
    - [store_log] (ghost): the operations attempted on the collection,
      oldest first. *)
Record ChromaPersistentCache : Type := mkChroma {
  collection : option (gmap string document);
  faults : list bool;
  store_log : list store_op
}.

Module Chroma.
Local Open Scope Z_scope.

Abbreviation M := (SE ChromaPersistentCache).

Definition get_self : M ChromaPersistentCache := fun s => (Val s, s).

(** One operation of the collection: logged, and failing when the oracle
    says so; it yields the documents. *)
Definition collection_op (op : store_op) : M (gmap string document) :=
  fun s =>
    let s' := {| collection := collection s; faults := tl (faults s);
                 store_log := store_log s ++ [op] |} in
    if hd false (faults s) then (Exc "chromadb error", s')
    else
      match collection s with
      | Some docs => (Val docs, s')
      | None => (Exc "'NoneType' object has no attribute", s')
      end.

Definition put_collection (docs : gmap string document) : M unit :=
  fun s => (Val tt, {| collection := Some docs; faults := faults s;
                       store_log := store_log s |}).

(** [collection.get(ids=[id])]. *)
Definition collection_get (id : string) : M (option document) :=
  docs ← collection_op (OpGet id);
  ret (docs !! id).

(** [collection.upsert(ids=[id], ...)]. *)
Definition collection_upsert (id : string) (doc : document) : M unit :=
  docs ← collection_op (OpUpsert id);
  put_collection (<[id := doc]> docs).

(** [collection.delete(ids=[id])]. *)
Definition collection_delete (id : string) : M unit :=
  docs ← collection_op (OpDelete id);
  put_collection (delete id docs).

(** [_make_serializable]: a pydantic model gives its [.dict()]. *)
Definition _make_serializable (data : pyval) : json :=
  match data with
  | PModel _ fields => fields
  | PJson j => j
  end.

Section WithDigest.

(** [hashlib.md5(s.encode()).hexdigest()]. *)
Variable md5_hexdigest : string -> string.

(** [_generate_cache_key], for [params=None] (all the callers). *)
Definition _generate_cache_key (endpoint : string) : string :=
  md5_hexdigest (endpoint ++ ":{}").

(** [get(endpoint, max_age_hours=...)], called at time [now]. *)
Definition get (now : Z) (endpoint : string) (max_age_hours : Z)
  : M (option json) :=
  self ← get_self;
  if negb (is_some (collection self)) then ret None
  else
    try_except
      (let cache_key := _generate_cache_key endpoint in
       results ← collection_get cache_key;
       match results with
       | Some doc =>
         (* Check if cache is still valid *)
         if now - doc_timestamp doc <? max_age_hours * 3600
         then ret (Some (doc_json doc))
         else ret None
       | None => ret None
       end)
      (fun _ => ret None).

(** [get_stale(endpoint, max_stale_days=...)], called at time [now]. *)
Definition get_stale (now : Z) (endpoint : string) (max_stale_days : Z)
  : M (option json) :=
  self ← get_self;
  if negb (is_some (collection self)) then ret None
  else
    try_except
      (let cache_key := _generate_cache_key endpoint in
       results ← collection_get cache_key;
       match results with
       | Some doc =>
         if now - doc_timestamp doc <? max_stale_days * 86400
         then ret (Some (doc_json doc))
         else
           (* Data too old, remove it *)
           collection_delete cache_key;;
           ret None
       | None => ret None
       end)
      (fun _ => ret None).

(** [set(endpoint, data)], called at time [now]. *)
Definition set (now : Z) (endpoint : string) (data : pyval) : M unit :=
  self ← get_self;
  if negb (is_some (collection self)) then ret tt
  else
    try_except
      (let cache_key := _generate_cache_key endpoint in
       let serializable_data := _make_serializable data in
       collection_upsert cache_key
         {| doc_json := serializable_data; doc_endpoint := endpoint;
            doc_timestamp := now |})
      (fun _ => ret tt).

End WithDigest.
(** *** Maintenance and statistics *)

(** One operation of the collection on several documents at once; it is
    logged as the sequence of the operations on each. *)
Definition collection_ops (ops : list store_op) : M (gmap string document) :=
  fun s =>
    let s' := {| collection := collection s; faults := tl (faults s);
                 store_log := store_log s ++ ops |} in
    if hd false (faults s) then (Exc "chromadb error", s')
    else
      match collection s with
      | Some docs => (Val docs, s')
      | None => (Exc "'NoneType' object has no attribute", s')
      end.

(** [collection.get(include=["metadatas"])]: every document, with its
    id. *)
Definition collection_get_all : M (list (string * document)) :=
  self ← get_self;
  docs ← collection_ops
           ((fun kv => OpGet (fst kv)) <$>
            map_to_list (default ∅ (collection self)));
  ret (map_to_list docs).

(** [collection.delete(ids=ids)]. *)
Definition collection_delete_many (ids : list string) : M unit :=
  docs ← collection_ops (OpDelete <$> ids);
  put_collection (foldr delete docs ids).

(** [clear_expired(max_age_days)], called at time [now]. *)
Definition clear_expired (now : Z) (max_age_days : Z) : M unit :=
  self ← get_self;
  if negb (is_some (collection self)) then ret tt
  else
    try_except
      ((* Get all cached items *)
       results ← collection_get_all;
       let cutoff_time := now - max_age_days * 86400 in
       let expired_ids :=
         fst <$> List.filter
                   (fun kv => doc_timestamp (snd kv) <? cutoff_time)
                   results in
       if negb (Nat.eqb (length expired_ids) 0)
       then collection_delete_many expired_ids
       else ret tt)
      (fun _ => ret tt).

(** What [get_stats] returns: the statistics (with the constant entries
    [collection_name] and [available] left out), or an error with the
    [available] entry when there is one. *)
Record statistics : Type := mkStatistics {
  total_entries : nat;
  fresh_entries : nat;
  stale_entries : nat;
  endpoint_counts : gmap string nat;
  total_size_bytes : nat
}.

Inductive stats_result : Type :=
| Stats (st : statistics)
| StatsError (error : string) (available : option bool).

Section WithDumps.

(** [json.dumps]; the [data_size] of a document is the length of its
    text. *)
Variable json_dumps : json -> string.

(** One round of the loop of [get_stats] over the metadatas. *)
Definition stats_step (current_time : Z)
    (acc : gmap string nat * nat * nat * nat) (metadata : document)
  : gmap string nat * nat * nat * nat :=
  let '(endpoint_counts, total_size, fresh_count, stale_count) := acc in
  let endpoint := doc_endpoint metadata in
  let endpoint_counts :=
    <[endpoint := (default 0 (endpoint_counts !! endpoint) + 1)%nat]>
      endpoint_counts in
  let total_size :=
    (total_size + String.length (json_dumps (doc_json metadata)))%nat in
  (* Check freshness (24 hours) *)
  if current_time - doc_timestamp metadata <? 24 * 3600
  then (endpoint_counts, total_size, (fresh_count + 1)%nat, stale_count)
  else (endpoint_counts, total_size, fresh_count, (stale_count + 1)%nat).

(** [get_stats()], called at time [now]. *)
Definition get_stats (now : Z) : M stats_result :=
  self ← get_self;
  if negb (is_some (collection self))
  then ret (StatsError "ChromaDB not available" None)
  else
    try_except
      (results ← collection_get_all;
       let '(endpoint_counts, total_size, fresh_count, stale_count) :=
         foldl (stats_step now) (∅, 0, 0, 0)%nat (snd <$> results) in
       ret (Stats {| total_entries := length results;
                     fresh_entries := fresh_count;
                     stale_entries := stale_count;
                     endpoint_counts := endpoint_counts;
                     total_size_bytes := total_size |}))
      (fun e => ret (StatsError e (Some false))).

End WithDumps.

(** A store with a document written two days before time 200000 and one
    written an hour before. *)
Definition two_documents : ChromaPersistentCache :=
  {| collection :=
       Some {["a" := {| doc_json := JNum 1; doc_endpoint := "trending_coins";
                        doc_timestamp := 27200 |};
              "b" := {| doc_json := JNum 2; doc_endpoint := "global_market_data";
                        doc_timestamp := 196400 |}]};
     faults := []; store_log := [] |}.

End Chroma.

(* ------------------------------------------------------------------ *)
(** ** main.py: CacheManager *)
(* ------------------------------------------------------------------ *)

(** The cache manager: [cache] maps a key to [(data, timestamp, ttl)];
    [chroma_cache] is [None] when the persistent cache could not be
    imported. *)
Record CacheManager : Type := mkCacheManager {
  cache : gmap string (pyval * Z * Z);
  chroma_cache : option ChromaPersistentCache
}.

Module Cache.
Local Open Scope Z_scope.

Abbreviation M := (SE CacheManager).

Definition get_self : M CacheManager := fun s => (Val s, s).

Definition put_cache (c : gmap string (pyval * Z * Z)) : M unit :=
  fun s => (Val tt, {| cache := c; chroma_cache := chroma_cache s |}).

(** A method called on [self.chroma_cache]. *)
Definition on_chroma {A} (m : Chroma.M A) : M A :=
  fun s =>
    match chroma_cache s with
    | Some c =>
      let (r, c') := m c in
      (r, {| cache := cache s; chroma_cache := Some c' |})
    | None => (Exc "'NoneType' object has no attribute", s)
    end.

(** [data.dict()] when [data] has one. *)
Definition to_dict (data : pyval) : pyval :=
  match data with
  | PModel _ fields => PJson fields
  | PJson j => PJson j
  end.

(** The operations log of the persistent store (ghost). *)
Definition chroma_log (s : CacheManager) : list store_op :=
  match chroma_cache s with
  | Some c => store_log c
  | None => []
  end.

(** The documents of the persistent store. *)
Definition chroma_docs (s : CacheManager) : gmap string document :=
  match chroma_cache s with
  | Some c => default ∅ (collection c)
  | None => ∅
  end.

(** The memory-cache test of [get]: the entry of the key, if it has not
    expired. *)
Definition fresh_entry (now : Z) (key : string) (s : CacheManager)
  : option pyval :=
  match cache s !! key with
  | Some (data, timestamp, ttl) =>
    if now - timestamp <? ttl then Some data else None
  | None => None
  end.

Section WithDigest.

Variable md5_hexdigest : string -> string.

(** [CacheManager.set(key, data, ttl)], called at time [now]. *)
Definition set (now : Z) (key : string) (data : pyval) (ttl : Z) : M unit :=
  (* Set in memory cache *)
  self ← get_self;
  put_cache (<[key := (data, now, ttl)]> (cache self));;
  (* Set in ChromaDB for persistence *)
  if is_some (chroma_cache self) && (60 <? ttl) then
    try_except
      (let serializable_data := to_dict data in
       on_chroma (Chroma.set md5_hexdigest now key serializable_data))
      (fun _ => ret tt)
  else ret tt.

(** [CacheManager.get(key)], called at time [now]. *)
Definition get (now : Z) (key : string) : M (option pyval) :=
  self ← get_self;
  (* Try in-memory cache first *)
  match fresh_entry now key self with
  | Some data => ret (Some data)
  | None =>
    (* Try ChromaDB cache as fallback *)
    if is_some (chroma_cache self) then
      chroma_data ← on_chroma (Chroma.get md5_hexdigest now key 1);
      match chroma_data with
      | Some j =>
        if json_truthy j then
          (* Update in-memory cache with ChromaDB data *)
          set now key (PJson j) 300;;
          ret (Some (PJson j))
        else ret None
      | None => ret None
      end
    else ret None
  end.

(** [CacheManager.get_stale(key)], called at time [now]. *)
Definition get_stale (now : Z) (key : string) : M (option pyval) :=
  self ← get_self;
  (* Try in-memory stale cache first *)
  match cache self !! key with
  | Some (data, timestamp, ttl) => ret (Some data)
  | None =>
    (* Try ChromaDB stale cache as ultimate fallback *)
    if is_some (chroma_cache self) then
      stale_data ← on_chroma (Chroma.get_stale md5_hexdigest now key 1);
      match stale_data with
      | Some j => if json_truthy j then ret (Some (PJson j)) else ret None
      | None => ret None
      end
    else ret None
  end.

End WithDigest.


(** The stale lookup as the specification has it, for the bound of one
    day that [get_stale] uses: an entry that old is deleted and nothing is
    returned. *)
Definition get_stale_bounded (md5_hexdigest : string -> string) : Prop :=
  forall (now : Z) (key : string) (s : CacheManager) (data : pyval)
         (timestamp ttl : Z),
    cache s !! key = Some (data, timestamp, ttl) ->
    1 * 86400 <= now - timestamp ->
    fst (get_stale md5_hexdigest now key s) = Val None /\
    cache (snd (get_stale md5_hexdigest now key s)) !! key = None.

(** The fresh lookup as the specification has it: no operation on the
    persistent store. *)
Definition get_never_reads_store (md5_hexdigest : string -> string) : Prop :=
  forall (now : Z) (key : string) (s : CacheManager),
    chroma_log (snd (get md5_hexdigest now key s)) = chroma_log s.

(** A response model with no rows. *)
Definition empty_gainers : pyval :=
  PModel "TopGainersResponse"
    (JObj [("top_gainers", JArr []); ("top_losers", JArr [])]).

(** A cache manager with an empty memory cache and an empty, working
    persistent store. *)
Definition fresh_manager : CacheManager :=
  {| cache := ∅;
     chroma_cache :=
       Some {| collection := Some ∅; faults := []; store_log := [] |} |}.

(** A digest to evaluate examples with. *)
Definition plain_digest (s : string) : string := s.

(** [fresh_manager] after [set("k", empty_gainers, 600)] at time 0. *)
Definition warmed_manager : CacheManager :=
  snd (set plain_digest 0 "k" empty_gainers 600 fresh_manager).

(** A cache manager without persistent cache, holding an entry written at
    time 0 with a ttl of 600. *)
Definition memory_only_manager : CacheManager :=
  {| cache := {["k" := (empty_gainers, 0, 600)]}; chroma_cache := None |}.

(** A persistent cache holding a document written at time 0. *)
Definition old_store : ChromaPersistentCache :=
  {| collection :=
       Some {[plain_digest "k:{}" :=
                {| doc_json := JObj [("top_gainers", JArr [JNum 1])];
                   doc_endpoint := "k"; doc_timestamp := 0 |}]};
     faults := []; store_log := [] |}.

(** The same, with a persistent store whose next operation fails. *)
Definition faulty_manager : CacheManager :=
  {| cache := ∅;
     chroma_cache :=
       Some {| collection := Some ∅; faults := [true]; store_log := [] |} |}.

(** *** Clearing and statistics *)

(** [CacheManager.clear()], called at time [now]. *)
Definition clear (now : Z) : M unit :=
  put_cache ∅;;
  (* Optionally clear ChromaDB cache too *)
  self ← get_self;
  if is_some (chroma_cache self) then
    try_except (on_chroma (Chroma.clear_expired now 1)) (fun _ => ret tt)
  else ret tt.

(** The [memory_cache] part of what [CacheManager.get_stats] returns. An
    entry of [cache_details] is [(key, (age, ttl, expires_in))]; the
    entries come in the order in which the map enumerates its keys, where
    the dict of the source lists them in the order of their insertion. *)
Record memory_stats : Type := mkMemoryStats {
  total_keys : nat;
  active_keys : nat;
  expired_keys : nat;
  cache_details : list (string * (Z * Z * Z))
}.

(** One round of the loop of [get_stats] over the items of the cache:
    the lists [active_keys] and [expired_keys] grow at their ends. *)
Definition memory_step (current_time : Z)
    (acc : list (string * (Z * Z * Z)) * list string)
    (item : string * (pyval * Z * Z))
  : list (string * (Z * Z * Z)) * list string :=
  let '(active_keys, expired_keys) := acc in
  let '(key, (data, timestamp, ttl)) := item in
  if current_time - timestamp <? ttl then
    (active_keys ++
       [(key, (current_time - timestamp, ttl,
               ttl - (current_time - timestamp)))],
     expired_keys)
  else (active_keys, expired_keys ++ [key]).

Section WithDumps.

Variable json_dumps : json -> string.

(** [CacheManager.get_stats()], called at time [now]: the statistics of
    the memory cache, and those of the persistent cache when there is
    one. *)
Definition get_stats (now : Z)
  : M (memory_stats * option Chroma.stats_result) :=
  self ← get_self;
  let current_time := now in
  let '(active_keys, expired_keys) :=
    foldl (memory_step current_time) ([], []) (map_to_list (cache self)) in
  let memory_stats :=
    {| total_keys := size (cache self);
       active_keys := length active_keys;
       expired_keys := length expired_keys;
       cache_details := active_keys |} in
  (* Get ChromaDB stats *)
  if is_some (chroma_cache self) then
    chroma_stats ←
      try_except (on_chroma (Chroma.get_stats json_dumps now))
        (fun e => ret (Chroma.StatsError e None));
    ret (memory_stats, Some chroma_stats)
  else ret (memory_stats, None).

End WithDumps.

(** A cache manager whose memory cache holds an entry that has expired at
    time 700 and one that has not. *)
Definition two_entries : CacheManager :=
  {| cache := {["old" := (PJson (JNum 1), 0, 600);
                "new" := (PJson (JNum 2), 500, 600)]};
     chroma_cache := None |}.

End Cache.

(* ------------------------------------------------------------------ *)
(** ** main.py: the top-gainers endpoint *)
(* ------------------------------------------------------------------ *)

(** The process: the manager of the upstream in its environment, and the
    cache manager. *)
Record App : Type := mkApp {
  world : Mcp.World;
  cache_manager : CacheManager
}.

Module Endpoint.
Local Open Scope Z_scope.

Abbreviation M := (SE App).

Definition on_world {A} (m : Mcp.M A) : M A :=
  fun a =>
    let (r, w') := m (world a) in
    (r, {| world := w'; cache_manager := cache_manager a |}).

Definition on_cache_manager {A} (m : Cache.M A) : M A :=
  fun a =>
    let (r, s') := m (cache_manager a) in
    (r, {| world := world a; cache_manager := s' |}).

(** [CACHE_TTL["top_gainers_losers"]]. *)
Definition CACHE_TTL_top_gainers_losers : Z := 600.

(** [TopGainersResponse(top_gainers=[], top_losers=[])]. *)
Definition empty_response : pyval := Cache.empty_gainers.

Definition cache_key (vs_currency duration top_coins : string) : string :=
  "top_gainers_losers_" ++ vs_currency ++ "_" ++ duration ++ "_" ++ top_coins.

Section WithParams.

Variable md5_hexdigest : string -> string.

(** The construction of the [TopGainersResponse] from the rows of the
    answer: the validation of each row by pydantic, which may raise. *)
Variable build_response : json -> result pyval.

(** The methods of [cache_manager], each reading the clock. *)
Definition cache_get (key : string) : M (option pyval) :=
  now ← on_world Mcp.time_time;
  on_cache_manager (Cache.get md5_hexdigest now key).

Definition cache_get_stale (key : string) : M (option pyval) :=
  now ← on_world Mcp.time_time;
  on_cache_manager (Cache.get_stale md5_hexdigest now key).

Definition cache_set (key : string) (data : pyval) (ttl : Z) : M unit :=
  now ← on_world Mcp.time_time;
  on_cache_manager (Cache.set md5_hexdigest now key data ttl).

(** The [try] block of [fetch_data]. *)
Definition fetch_body (vs_currency duration top_coins : string) : M pyval :=
  let cache_key := cache_key vs_currency duration top_coins in
  (* Use the rate-limited MCP manager *)
  data ← on_world (Mcp.get_top_gainers_losers vs_currency duration top_coins);
  match data with
  | Some d =>
    if json_truthy d then
      response ← (fun a => (build_response d, a));
      (* Cache the response *)
      cache_set cache_key response CACHE_TTL_top_gainers_losers;;
      ret response
    else
      (* Try stale cache as fallback *)
      stale_data ← cache_get_stale cache_key;
      if opt_truthy truthy stale_data
      then ret (default empty_response stale_data)
      else
        (* Return empty response if no cache available *)
        cache_set cache_key empty_response 60;;
        ret empty_response
  | None =>
    stale_data ← cache_get_stale cache_key;
    if opt_truthy truthy stale_data
    then ret (default empty_response stale_data)
    else
      cache_set cache_key empty_response 60;;
      ret empty_response
  end.

(** The [except Exception] block of [fetch_data]. *)
Definition fetch_handler (vs_currency duration top_coins : string)
    (e : string) : M pyval :=
  let cache_key := cache_key vs_currency duration top_coins in
  (* Try stale cache as fallback *)
  stale_data ← cache_get_stale cache_key;
  if opt_truthy truthy stale_data
  then ret (default empty_response stale_data)
  else
    (* Return empty response instead of error *)
    ret empty_response.

(** [fetch_data] of [get_top_gainers_losers]. *)
Definition fetch_data (vs_currency duration top_coins : string) : M pyval :=
  try_except (fetch_body vs_currency duration top_coins)
    (fetch_handler vs_currency duration top_coins).

(** The endpoint [get_top_gainers_losers], for a request that is alone in
    the coalescer: [debounced_request] then runs [fetch_data] and returns
    what it returns. *)
Definition get_top_gainers_losers (vs_currency duration top_coins : string)
  : M pyval :=
  let cache_key := cache_key vs_currency duration top_coins in
  (* Try cache first *)
  cached_data ← cache_get cache_key;
  if opt_truthy truthy cached_data
  then ret (default empty_response cached_data)
  else fetch_data vs_currency duration top_coins.

End WithParams.

(** A process at time 1000 with empty caches, whose upstream fails three
    times with a timeout. *)
Definition cold_app : App :=
  {| world := Mcp.initial_world 1000 []
                [Mcp.Failure "timeout"; Mcp.Failure "timeout";
                 Mcp.Failure "timeout"];
     cache_manager := Cache.fresh_manager |}.

(** A process at time 1000 with empty caches, whose upstream answers. *)
Definition answered_app : App :=
  {| world := Mcp.initial_world 1000 []
                [Mcp.Success (JObj [("top_gainers", JArr [JNum 1])])];
     cache_manager := Cache.fresh_manager |}.

(** A validation that accepts nothing. *)
Definition reject_all (d : json) : result pyval := Exc "validation error".

(** *** The coins-markets endpoint *)

(** [CACHE_TTL["coins_markets"]]. *)
Definition CACHE_TTL_coins_markets : Z := 600.

Definition coins_markets_key (vs_currency order : string) (per_page page : Z)
    (price_change_percentage : string) : string :=
  "coins_markets_" ++ vs_currency ++ "_" ++ order ++ "_" ++
  pretty per_page ++ "_" ++ pretty page ++ "_" ++ price_change_percentage.

Section CoinsMarkets.

Variable md5_hexdigest : string -> string.

(** The [try] block of [get_coins_markets]. *)
Definition coins_markets_body (vs_currency order : string)
    (per_page page : Z) (price_change_percentage : string) : M pyval :=
  let cache_key :=
    coins_markets_key vs_currency order per_page page
      price_change_percentage in
  (* Use the rate-limited MCP manager *)
  data ← on_world
           (Mcp.get_coins_markets
              [("vs_currency", JStr vs_currency); ("order", JStr order);
               ("per_page", JNum per_page); ("page", JNum page);
               ("sparkline", JBool false);
               ("price_change_percentage", JStr price_change_percentage)]);
  if opt_truthy json_truthy data then
    (* Cache the response *)
    let data := PJson (default JNull data) in
    cache_set md5_hexdigest cache_key data CACHE_TTL_coins_markets;;
    (* Return raw data as-is for maximum compatibility *)
    ret data
  else
    (* Return empty list if MCP fails *)
    let empty_data := PJson (JArr []) in
    cache_set md5_hexdigest cache_key empty_data 60;;
    ret empty_data.

(** The endpoint [get_coins_markets]. *)
Definition get_coins_markets (vs_currency order : string)
    (per_page page : Z) (price_change_percentage : string) : M pyval :=
  let cache_key :=
    coins_markets_key vs_currency order per_page page
      price_change_percentage in
  (* Try cache first *)
  cached_data ← cache_get md5_hexdigest cache_key;
  if opt_truthy truthy cached_data
  then ret (default (PJson (JArr [])) cached_data)
  else
    try_except
      (coins_markets_body vs_currency order per_page page
         price_change_percentage)
      (* Return empty list instead of error *)
      (fun _ => ret (PJson (JArr []))).

End CoinsMarkets.

(** A process at time 1000 whose memory cache holds, for the default
    request, the empty list stored at 990 for 60, and whose upstream
    answers. *)
Definition negative_app : App :=
  {| world := Mcp.initial_world 1000 []
                [Mcp.Success (JArr [JObj [("id", JStr "bitcoin")]])];
     cache_manager :=
       {| cache := {[coins_markets_key "usd" "market_cap_desc" 100 1
                       "1h,24h,7d" := (PJson (JArr []), 990, 60)]};
          chroma_cache := None |} |}.

End Endpoint.

(* ------------------------------------------------------------------ *)
(** ** main.py: debounced_request *)
(* ------------------------------------------------------------------ *)

(** The coroutines of [debounced_request] under the cooperative scheduler
    of asyncio. A coroutine runs, alone, from one suspension point to the
    next; the scheduler picks which one runs. [asyncio.Lock] is the one of
    the standard library: [acquire] takes a free lock without suspending
    when nobody waits for it, and otherwise queues a future and suspends;
    [release] frees the lock and wakes the first waiter, which takes the
    lock when it resumes. Cancellation is left out. *)
Module Coalescer.

(** Where a call of [debounced_request] stands. *)
Inductive pc : Type :=
| Start                       (* called, not yet run *)
| WaitLock (woken : bool)     (* suspended in [acquire] *)
| AwaitActive (task : nat)    (* at [return await _active_requests[key]] *)
| AwaitOwn (task : nat)       (* at [result = await task] *)
| Returned (r : result pyval).

(** [asyncio.Lock]: [_locked], and the callers whose futures are in
    [_waiters], first come first. *)
Record Lock : Type := mkLock {
  _locked : bool;
  _waiters : list nat
}.

Record caller : Type := mkCaller {
  key : string;
  at_pc : pc
}.

(** The module state, the tasks and the callers.
    - [tasks]: the tasks created by [asyncio.create_task(request_func())],
      each running ([None]) or done with its outcome; a task is one
      invocation of [request_func].
    - [answers]: oracle; how the successive invocations of [request_func]
      end (each raises once the oracle is exhausted). *)
Record State : Type := mkState {
  _request_locks : gmap string Lock;
  _active_requests : gmap string nat;
  tasks : list (option (result pyval));
  callers : list caller;
  answers : list (result pyval)
}.

(** Number of invocations of [request_func]. *)
Definition invocations (s : State) : nat := length (tasks s).

Definition set_pc (i : nat) (p : pc) (cs : list caller) : list caller :=
  match cs !! i with
  | Some c => <[i := {| key := key c; at_pc := p |}]> cs
  | None => cs
  end.

(** The lock of a key; a key without lock gets a new one. *)
Definition lock_of (k : string) (s : State) : Lock :=
  default {| _locked := false; _waiters := [] |} (_request_locks s !! k).

(** The body of [async with], from the lock taken to [await]. *)
Definition enter (i : nat) (k : string) (s : State) : State :=
  match _active_requests s !! k with
  | Some t =>
    (* Check if request is already in progress *)
    {| _request_locks := _request_locks s;
       _active_requests := _active_requests s;
       tasks := tasks s;
       callers := set_pc i (AwaitActive t) (callers s);
       answers := answers s |}
  | None =>
    (* Start new request *)
    let t := length (tasks s) in
    {| _request_locks := _request_locks s;
       _active_requests := <[k := t]> (_active_requests s);
       tasks := tasks s ++ [None];
       callers := set_pc i (AwaitOwn t) (callers s);
       answers := answers s |}
  end.

Definition put_lock (k : string) (l : Lock) (s : State) : State :=
  {| _request_locks := <[k := l]> (_request_locks s);
     _active_requests := _active_requests s;
     tasks := tasks s; callers := callers s; answers := answers s |}.

(** [lock.release()]. *)
Definition release (k : string) (s : State) : State :=
  let l := lock_of k s in
  let s' := put_lock k {| _locked := false; _waiters := _waiters l |} s in
  match _waiters l with
  | w :: _ =>
    {| _request_locks := _request_locks s';
       _active_requests := _active_requests s';
       tasks := tasks s';
       callers := set_pc w (WaitLock true) (callers s');
       answers := answers s' |}
  | [] => s'
  end.

(** Caller [i] returns [r]. *)
Definition finish (i : nat) (r : result pyval) (s : State) : State :=
  {| _request_locks := _request_locks s;
     _active_requests := _active_requests s;
     tasks := tasks s;
     callers := set_pc i (Returned r) (callers s);
     answers := answers s |}.

(** Caller [i] suspends in [acquire]. *)
Definition wait_for_lock (i : nat) (s : State) : State :=
  {| _request_locks := _request_locks s;
     _active_requests := _active_requests s;
     tasks := tasks s;
     callers := set_pc i (WaitLock false) (callers s);
     answers := answers s |}.

(** The [finally] block: [if key in _active_requests: del ...]. *)
Definition clean_up (k : string) (s : State) : State :=
  {| _request_locks := _request_locks s;
     _active_requests := delete k (_active_requests s);
     tasks := tasks s; callers := callers s; answers := answers s |}.

(** Caller [i] runs to its next suspension point, if it can run. *)
Definition step_caller (i : nat) (s : State) : option State :=
  match callers s !! i with
  | None => None
  | Some c =>
    let k := key c in
    let l := lock_of k s in
    match at_pc c with
    | Start =>
      if negb (_locked l) && bool_decide (_waiters l = []) then
        Some (enter i k
                (put_lock k {| _locked := true; _waiters := _waiters l |} s))
      else
        Some (wait_for_lock i
                (put_lock k {| _locked := _locked l;
                               _waiters := _waiters l ++ [i] |} s))
    | WaitLock true =>
      Some (enter i k
              (put_lock k
                 {| _locked := true;
                    _waiters := List.filter (fun j => negb (Nat.eqb j i))
                                  (_waiters l) |} s))
    | WaitLock false => None
    | AwaitOwn t =>
      match tasks s !! t with
      | Some (Some r) => Some (release k (clean_up k (finish i r s)))
      | _ => None
      end
    | AwaitActive t =>
      match tasks s !! t with
      | Some (Some r) => Some (release k (finish i r s))
      | _ => None
      end
    | Returned _ => None
    end
  end.

(** Task [t] runs to its end. *)
Definition step_complete (t : nat) (s : State) : option State :=
  match tasks s !! t with
  | Some None =>
    Some {| _request_locks := _request_locks s;
            _active_requests := _active_requests s;
            tasks := <[t := Some (default (Exc "no answer") (answers s !! t))]>
                       (tasks s);
            callers := callers s; answers := answers s |}
  | _ => None
  end.

(** The choices of the scheduler. *)
Inductive event : Type :=
| Run (i : nat)
| Complete (t : nat).

Definition step (e : event) (s : State) : option State :=
  match e with
  | Run i => step_caller i s
  | Complete t => step_complete t s
  end.

Fixpoint run (schedule : list event) (s : State) : option State :=
  match schedule with
  | [] => Some s
  | e :: rest =>
    match step e s with
    | Some s' => run rest s'
    | None => None
    end
  end.

(** The calls [debounced_request(k, request_func)] for the keys [ks], all
    made before any of them has run. *)
Definition initial (ks : list string) (ans : list (result pyval)) : State :=
  {| _request_locks := ∅; _active_requests := ∅; tasks := [];
     callers := map (fun k => {| key := k; at_pc := Start |}) ks;
     answers := ans |}.

Definition returned (c : caller) : Prop :=
  match at_pc c with
  | Returned _ => True
  | _ => False
  end.

(** A caller that has started a request of its own, or returned. *)
Definition entered (c : caller) : nat :=
  match at_pc c with
  | AwaitOwn _ | Returned _ => 1
  | _ => 0
  end.

(** What holds of every state that the scheduler can reach. *)
Record coal_inv (s : State) : Prop := {
  (* nobody ever finds a request in progress *)
  ci_no_shared : forall i c t,
    callers s !! i = Some c -> at_pc c <> AwaitActive t;
  (* who awaits its own task holds the lock of its key, alone *)
  ci_locked : forall i c t,
    callers s !! i = Some c -> at_pc c = AwaitOwn t ->
    _locked (lock_of (key c) s) = true;
  ci_mutex : forall i j ci cj ti tj,
    callers s !! i = Some ci -> callers s !! j = Some cj ->
    key ci = key cj -> at_pc ci = AwaitOwn ti -> at_pc cj = AwaitOwn tj ->
    i = j;
  (* a registered request belongs to the holder of the lock *)
  ci_active : forall k t,
    _active_requests s !! k = Some t ->
    exists i c, callers s !! i = Some c /\ key c = k /\ at_pc c = AwaitOwn t;
  (* the waiters of a lock are the callers suspended in [acquire] *)
  ci_waiting : forall j c b,
    callers s !! j = Some c -> at_pc c = WaitLock b ->
    j ∈ _waiters (lock_of (key c) s);
  ci_waiters : forall k j,
    j ∈ _waiters (lock_of k s) ->
    exists c b, callers s !! j = Some c /\ key c = k /\ at_pc c = WaitLock b;
  (* a woken waiter finds the lock free, and is the only one woken *)
  ci_woken : forall j c,
    callers s !! j = Some c -> at_pc c = WaitLock true ->
    _locked (lock_of (key c) s) = false;
  ci_woken_one : forall i j ci cj,
    callers s !! i = Some ci -> callers s !! j = Some cj ->
    key ci = key cj -> at_pc ci = WaitLock true -> at_pc cj = WaitLock true ->
    i = j;
  (* a running task is awaited by the caller that created it *)
  ci_running : forall t,
    tasks s !! t = Some None ->
    exists i c, callers s !! i = Some c /\ at_pc c = AwaitOwn t;
  (* one invocation per caller that got past the lock *)
  ci_count : invocations s = sum_list (map entered (callers s))
}.

(** The coalescer as the specification has it: when [n] callers of one
    key have all returned, [request_func] was invoked once and they all
    have the same result. *)
Definition coalesces : Prop :=
  forall (k : string) (n : nat) (ans : list (result pyval))
         (schedule : list event) (s : State),
    run schedule (initial (repeat k (S n)) ans) = Some s ->
    Forall returned (callers s) ->
    invocations s = 1%nat /\
    forall c1 c2, c1 ∈ callers s -> c2 ∈ callers s -> at_pc c1 = at_pc c2.

(** Two requests for one key, made together; [request_func] would answer
    1 the first time and 2 the second. *)
Definition two_callers : State :=
  initial ["global_market_data"; "global_market_data"]
    [Val (PJson (JNum 1)); Val (PJson (JNum 2))].

(** Both callers run; the task of the first ends and the first returns;
    the second takes the lock; its task ends and it returns. *)
Definition one_after_the_other : list event :=
  [Run 0; Run 1; Complete 0; Run 0; Run 1; Complete 1; Run 1].

(** A caller that is alone: it runs, its task ends, it runs again. *)
Definition alone : list event := [Run 0; Complete 0; Run 0].

End Coalescer.

(* ------------------------------------------------------------------ *)
(** ** coin_analysis.py and chat_agent.py: the request limiters *)
(* ------------------------------------------------------------------ *)

(** The times of [l] in the span [a <= t < a + width]. *)
Definition in_span (width a t : Z) : bool :=
  ((a <=? t) && (t <? a + width))%Z.

Definition count_in_span (width a : Z) (l : list Z) : nat :=
  length (List.filter (in_span width a) l).

(** The times [nows] come in order, none before [from]. *)
Fixpoint ascending (from : Z) (nows : list Z) : Prop :=
  match nows with
  | [] => True
  | now :: rest => (from <= now)%Z /\ ascending now rest
  end.

Module CoinAnalysis.
Local Open Scope Z_scope.

Definition MAX_REQUESTS_PER_MINUTE : nat := 10.

(** [check_rate_limit()], called at time [now] with the global
    [request_timestamps]; it returns its answer and the new value of the
    global. *)
Definition check_rate_limit (now : Z) (request_timestamps : list Z)
  : bool * list Z :=
  (* Remove old timestamps *)
  let request_timestamps :=
    List.filter (fun ts => now - ts <? 60) request_timestamps in
  if (MAX_REQUESTS_PER_MINUTE <=? length request_timestamps)%nat
  then (false, request_timestamps)
  else (true, request_timestamps ++ [now]).

(** Successive calls, at the times [nows]: the times of the calls that
    were answered [True], and the global in the end. *)
Fixpoint run_checks (nows : list Z) (request_timestamps : list Z)
  : list Z * list Z :=
  match nows with
  | [] => ([], request_timestamps)
  | now :: rest =>
    let '(ok, request_timestamps) := check_rate_limit now request_timestamps in
    let '(admitted, request_timestamps) := run_checks rest request_timestamps in
    (if ok then now :: admitted else admitted, request_timestamps)
  end.

End CoinAnalysis.

Module ChatAgent.
Local Open Scope Z_scope.

(** [RateLimiter]: per client, the times of its recent requests and the
    time at which it was blocked. *)
Record RateLimiter : Type := mkRateLimiter {
  max_requests : nat;
  window_seconds : Z;
  requests : gmap string (list Z);
  blocked_ips : gmap string Z;
  block_duration : Z
}.

(** [RateLimiter(max_requests, window_seconds)]. *)
Definition __init__ (max_requests : nat) (window_seconds : Z) : RateLimiter :=
  {| max_requests := max_requests; window_seconds := window_seconds;
     requests := ∅; blocked_ips := ∅; block_duration := 300 |}.

(** The module's [rate_limiter]. *)
Definition rate_limiter : RateLimiter := __init__ 20 60.

Definition set_requests (r : gmap string (list Z)) (self : RateLimiter)
  : RateLimiter :=
  {| max_requests := max_requests self;
     window_seconds := window_seconds self;
     requests := r; blocked_ips := blocked_ips self;
     block_duration := block_duration self |}.

Definition set_blocked_ips (b : gmap string Z) (self : RateLimiter)
  : RateLimiter :=
  {| max_requests := max_requests self;
     window_seconds := window_seconds self;
     requests := requests self; blocked_ips := b;
     block_duration := block_duration self |}.

(** [is_allowed] from the test of the block on: the client is not, or no
    longer, blocked. *)
Definition count_request (now : Z) (client_ip : string) (self : RateLimiter)
  : bool * RateLimiter :=
  (* Initialize or clean old requests *)
  let self :=
    match requests self !! client_ip with
    | Some _ => self
    | None => set_requests (<[client_ip := []]> (requests self)) self
    end in
  (* Remove old requests outside window *)
  let recent :=
    List.filter (fun req_time => now - req_time <? window_seconds self)
      (default [] (requests self !! client_ip)) in
  let self := set_requests (<[client_ip := recent]> (requests self)) self in
  (* Check rate limit *)
  if (max_requests self <=? length recent)%nat then
    (false, set_blocked_ips (<[client_ip := now]> (blocked_ips self)) self)
  else
    (* Add current request *)
    (true,
     set_requests (<[client_ip := recent ++ [now]]> (requests self)) self).

(** [is_allowed(client_ip)], called at time [now]. *)
Definition is_allowed (now : Z) (client_ip : string) (self : RateLimiter)
  : bool * RateLimiter :=
  (* Check if IP is blocked *)
  match blocked_ips self !! client_ip with
  | Some blocked_at =>
    if now - blocked_at <? block_duration self then (false, self)
    else
      count_request now client_ip
        (set_blocked_ips (delete client_ip (blocked_ips self)) self)
  | None => count_request now client_ip self
  end.

(** What [get_status] returns: [requests_used], [requests_remaining] and
    [reset_time]. *)
Record status : Type := mkStatus {
  requests_used : nat;
  requests_remaining : Z;
  reset_time : Z
}.

(** [get_status(client_ip)], called at time [now]. *)
Definition get_status (now : Z) (client_ip : string) (self : RateLimiter)
  : status :=
  match requests self !! client_ip with
  | Some reqs =>
    let recent_requests :=
      length (List.filter (fun req => now - req <? window_seconds self) reqs) in
    {| requests_used := recent_requests;
       requests_remaining :=
         Z.of_nat (max_requests self) - Z.of_nat recent_requests;
       reset_time :=
         match reqs with
         | first :: _ => window_seconds self - (now - first)
         | [] => 0
         end |}
  | None =>
    {| requests_used := 0;
       requests_remaining := Z.of_nat (max_requests self);
       reset_time := 0 |}
  end.

(** Successive calls of [is_allowed], each at its time and for its
    client: the answers, and the limiter in the end. *)
Fixpoint run_requests (calls : list (Z * string)) (self : RateLimiter)
  : list bool * RateLimiter :=
  match calls with
  | [] => ([], self)
  | (now, client_ip) :: rest =>
    let '(ok, self) := is_allowed now client_ip self in
    let '(oks, self) := run_requests rest self in
    (ok :: oks, self)
  end.

(** The times of the calls of a client that were answered [True]. *)
Fixpoint admitted (client_ip : string) (calls : list (Z * string))
    (oks : list bool) : list Z :=
  match calls, oks with
  | (now, ip) :: calls, ok :: oks =>
    if ok && String.eqb ip client_ip
    then now :: admitted client_ip calls oks
    else admitted client_ip calls oks
  | _, _ => []
  end.

(** Three requests of one client within three seconds. *)
Definition three_requests : list (Z * string) :=
  [(1, "default"); (2, "default"); (3, "default")].

(** A limiter for one request per minute, with a client that made a
    request at 10. *)
Definition strict_limiter : RateLimiter :=
  {| max_requests := 1; window_seconds := 60;
     requests := {["default" := [10]]}; blocked_ips := ∅;
     block_duration := 300 |}.

End ChatAgent.

(* ================================================================== *)
(** * Part II: properties *)
(* ================================================================== *)

Module McpFacts.
Import Mcp.
Local Open Scope Z_scope.

Ltac run_monad :=
  cbv [_wait_for_rate_limit _check_circuit_breaker _open_circuit_breaker
       on_exception attempt_body call_tool time_time sleep elapse tick
       read_clock log_recorded get_mgr put_mgr set_breaker
       mbind M_bind bind mret M_ret ret try_except] in *;
  cbn [fst snd mgr clock delays upstream calls recorded slept
       _request_queue _max_requests_per_minute _request_delay
       _last_request_time _circuit_breaker_open _circuit_breaker_opened_at
       _circuit_breaker_timeout] in *.

Example scenario_two_429 :
  let w := initial_world 1000 [] [Failure "HTTP 429"; Failure "429"] in
  let '(r, w') := call_tool_with_retry "get_global" [] 3 w in
  r = Val None /\ calls w' = 2%nat /\
  _circuit_breaker_open (mgr w') = true /\
  _circuit_breaker_opened_at (mgr w') = 1020 /\
  slept w' = [20] /\ recorded w' = [1000; 1020].
Proof. vm_compute. repeat split; reflexivity. Qed.

(** *** The rate limiter *)

(** What one run of [_wait_for_rate_limit] does. Normally it returns, at
    clock readings [now <= t1 <= clock w']; it keeps the queue entries
    younger than 60 at [now], appends [t1] and sets the last request time;
    a full queue delays [t1] to 70 after the oldest kept entry, and [t1] is
    at least [_request_delay] after the previous last request time. Only
    with a limit of zero requests can the queue be "full" and empty, and
    then reading its first entry raises. *)
Lemma wait_for_rate_limit_spec (w : World) :
  (exists now t1 w',
    _wait_for_rate_limit w = (Val tt, w') /\
    recorded w' = recorded w ++ [t1] /\
    let m := mgr w in
    let queue := List.filter (fun t => now - t <? 60) (_request_queue m) in
    mgr w' =
      {| _request_queue := queue ++ [t1];
         _max_requests_per_minute := _max_requests_per_minute m;
         _request_delay := _request_delay m;
         _last_request_time := clock w';
         _circuit_breaker_open := _circuit_breaker_open m;
         _circuit_breaker_opened_at := _circuit_breaker_opened_at m;
         _circuit_breaker_timeout := _circuit_breaker_timeout m |} /\
    upstream w' = upstream w /\ calls w' = calls w /\
    clock w <= now /\ now <= t1 /\ t1 <= clock w' /\
    ((_max_requests_per_minute m <= length queue)%nat ->
     hd 0 queue + 70 <= t1 \/ 70 <= now - hd 0 queue) /\
    _last_request_time m + _request_delay m <= t1) \/
  (exists e w',
    _wait_for_rate_limit w = (Exc e, w') /\
    _max_requests_per_minute (mgr w) = 0%nat /\
    recorded w' = recorded w /\ slept w' = slept w /\
    upstream w' = upstream w /\ calls w' = calls w).
Proof.
  destruct w as [m c ds ups n rec sl].
  run_monad.
  set (now := c + Z.of_nat (hd 0%nat ds)).
  set (queue := List.filter (fun t => now - t <? 60) (_request_queue m)).
  destruct (_max_requests_per_minute m <=? length queue)%nat eqn:Hfull;
    [destruct queue as [|oldest rest] eqn:Hqueue;
     [|destruct (0 <? 60 - (now - oldest) + 10) eqn:Hpos]|].
  { right. cbn. do 2 eexists. split; [reflexivity|].
    apply Nat.leb_le in Hfull. cbn in Hfull. repeat split. lia. }
  all: left; exists now; cbv zeta; cbn [mgr _request_queue];
    fold queue; try rewrite Hqueue;
    destruct (now - _last_request_time m <? _request_delay m) eqn:Hlast;
    cbn;
    do 2 eexists; (split; [reflexivity|]); (split; [reflexivity|]);
    (split; [reflexivity|]); (split; [reflexivity|]);
    (split; [reflexivity|]);
    repeat match goal with |- _ /\ _ => split end;
    cbn [clock hd]; try (apply Nat.leb_gt in Hfull); subst now; try lia.
Qed.

Lemma filter_filter_implies {A} (p q : A -> bool) (l : list A) :
  (forall x, In x l -> p x = true -> q x = true) ->
  List.filter p (List.filter q l) = List.filter p l.
Proof.
  induction l as [|x l IH]; intros H; [reflexivity|].
  cbn. destruct (q x) eqn:Hq.
  - cbn. rewrite IH; [reflexivity|]. intros y Hy. apply H. now right.
  - destruct (p x) eqn:Hp.
    + rewrite (H x) in Hq; [discriminate|now left|assumption].
    + apply IH. intros y Hy. apply H. now right.
Qed.

Lemma filter_length_bound {A} (p : A -> bool) (l : list A) :
  (length (List.filter p l) <= length l)%nat.
Proof.
  induction l as [|x l IH]; cbn; [lia|]. destruct (p x); cbn; lia.
Qed.

Lemma min_spacing_snoc (d : Z) (l : list Z) (t : Z) :
  min_spacing d l -> Forall (fun x => x + d <= t) l ->
  min_spacing d (l ++ [t]).
Proof.
  intros Hl Ht i j x y Hij Hi Hj.
  destruct (decide (j < length l)%nat) as [Hlt|Hge].
  - rewrite lookup_app_l in Hi by lia. rewrite lookup_app_l in Hj by lia.
    exact (Hl i j x y Hij Hi Hj).
  - assert (i < length l)%nat as Hil.
    { apply lookup_lt_Some in Hi, Hj. rewrite length_app in Hi, Hj.
      cbn in Hi, Hj. lia. }
    rewrite lookup_app_l in Hi by lia.
    rewrite lookup_app_r in Hj by lia.
    apply lookup_lt_Some in Hj as Hj'. cbn in Hj'.
    replace (j - length l)%nat with 0%nat in Hj by lia. cbn in Hj.
    injection Hj as <-.
    rewrite Forall_forall in Ht. apply Ht.
    eapply list_elem_of_lookup_2; eauto.
Qed.

(** The pruned queue never holds more than five timestamps. *)
Lemma pruned_queue_length (w : World) (now : Z) :
  rate_inv w -> clock w <= now ->
  (length (List.filter (fun t => (now - t <? 60)%Z) (recorded w)) <= 5)%nat.
Proof.
  intros Hinv Hnow.
  rewrite (List.filter_ext_in (fun t => now - t <? 60) (in_window (now - 59))).
  - apply (ri_window w Hinv).
  - intros x Hx. pose proof (ri_clock w Hinv) as Hc.
    rewrite Forall_forall in Hc. apply list_elem_of_In in Hx.
    specialize (Hc x Hx). unfold in_window.
    destruct (now - x <? 60) eqn:E; symmetry.
    + apply andb_true_iff. split; [apply Z.leb_le|apply Z.ltb_lt]; lia.
    + apply andb_false_iff. left. apply Z.leb_gt. lia.
Qed.

(** A recorded timestamp that is newer than the window of the call that
    records [t1] can share a window with at most four others. *)
Lemma window_snoc (w : World) (now t1 : Z) (queue : list Z) :
  rate_inv w -> clock w <= now -> now <= t1 ->
  queue = List.filter (fun t => now - t <? 60) (recorded w) ->
  ((5 <= length queue)%nat ->
   hd 0 queue + 70 <= t1 \/ 70 <= now - hd 0 queue) ->
  forall a, (calls_in_window a (recorded w ++ [t1]) <= 5)%nat.
Proof.
  intros Hinv Hnow Ht1 Hq Hfull a.
  unfold calls_in_window. rewrite List.filter_app, length_app. cbn.
  destruct (in_window a t1) eqn:Hin; cbn.
  2:{ pose proof (ri_window w Hinv a) as H. unfold calls_in_window in H. lia. }
  apply andb_true_iff in Hin as [Ha1 Ha2].
  apply Z.leb_le in Ha1. apply Z.ltb_lt in Ha2.
  assert (List.filter (in_window a) (recorded w) =
          List.filter (in_window a) queue) as ->.
  { subst queue. symmetry. apply filter_filter_implies.
    intros x _ Hx. apply andb_true_iff in Hx as [Hx _].
    apply Z.leb_le in Hx. apply Z.ltb_lt. lia. }
  pose proof (pruned_queue_length w now Hinv Hnow) as Hlen.
  rewrite <- Hq in Hlen.
  destruct (decide (length queue <= 4)%nat) as [Hle|Hgt].
  { pose proof (filter_length_bound (in_window a) queue). lia. }
  destruct queue as [|q0 rest]; [cbn in Hgt; lia|].
  cbn [hd] in Hfull. cbn in Hlen, Hgt.
  assert (now - q0 < 60) as Hq0.
  { assert (In q0 (q0 :: rest)) as Hin by now left.
    rewrite Hq in Hin. apply List.filter_In in Hin as [_ Hin].
    now apply Z.ltb_lt in Hin. }
  destruct Hfull as [Hfull|Hfull]; [cbn; lia| |lia].
  cbn [List.filter]. unfold in_window at 1.
  replace (a <=? q0) with false by (symmetry; apply Z.leb_gt; lia).
  cbn. pose proof (filter_length_bound (in_window a) rest). lia.
Qed.

(** One run of the rate limiter keeps the invariant. *)
Lemma wait_for_rate_limit_inv (w : World) :
  rate_inv w -> rate_inv (snd (_wait_for_rate_limit w)).
Proof.
  intros Hinv.
  destruct (wait_for_rate_limit_spec w)
    as [(now & t1 & w' & Hrun & Hrec & Hmgr & _ & _ & Hc & Hn & Ht & Hfull & Hsp)
       |(e & w' & _ & Hmax & _)].
  2:{ rewrite (ri_max w Hinv) in Hmax. discriminate. }
  rewrite Hrun. cbn [snd]. cbn zeta in Hmgr, Hfull.
  destruct (ri_queue w Hinv) as (c & Hcc & Hqueue).
  assert (List.filter (fun t => now - t <? 60) (_request_queue (mgr w)) =
          List.filter (fun t => now - t <? 60) (recorded w)) as Hpruned.
  { rewrite Hqueue. apply filter_filter_implies.
    intros x _ Hx. apply Z.ltb_lt in Hx. apply Z.ltb_lt. lia. }
  rewrite Hpruned in Hmgr, Hfull.
  rewrite (ri_max w Hinv) in Hfull. rewrite (ri_delay w Hinv) in Hsp.
  pose proof (ri_clock w Hinv) as Hclk. pose proof (ri_last w Hinv) as Hlast.
  constructor; rewrite ?Hrec, ?Hmgr; cbn.
  - apply (ri_max w Hinv).
  - apply (ri_delay w Hinv).
  - apply Forall_app. split.
    + eapply Forall_impl; [exact Hclk|]. cbn. intros; lia.
    + repeat constructor. lia.
  - apply Forall_app. split.
    + eapply Forall_impl; [exact Hclk|]. cbn. intros; lia.
    + repeat constructor. lia.
  - exists now. split; [lia|].
    rewrite List.filter_app. cbn.
    replace (now - t1 <? 60) with true by (symmetry; apply Z.ltb_lt; lia).
    reflexivity.
  - apply min_spacing_snoc; [apply (ri_spacing w Hinv)|].
    eapply Forall_impl; [exact Hlast|]. cbn. intros; lia.
  - exact (window_snoc w now t1 _ Hinv Hc Hn eq_refl Hfull).
Qed.

(** *** Frames *)

Lemma rate_frame_refl (w : World) : rate_frame w w.
Proof. unfold rate_frame. repeat split; lia. Qed.

Lemma rate_frame_trans (w1 w2 w3 : World) :
  rate_frame w1 w2 -> rate_frame w2 w3 -> rate_frame w1 w3.
Proof.
  unfold rate_frame. intros (?&?&?&?&?&?) (?&?&?&?&?&?).
  repeat split; try congruence; lia.
Qed.

Lemma rate_frame_inv (w w' : World) :
  rate_inv w -> rate_frame w w' -> rate_inv w'.
Proof.
  intros [Hmax Hdelay Hclk Hlast (c & Hc & Hq) Hsp Hwin] (Hcl&Hrec&Hqu&Hla&Hma&Hde).
  constructor; rewrite ?Hrec, ?Hqu, ?Hla, ?Hma, ?Hde; try assumption.
  - eapply Forall_impl; [exact Hclk|]. cbn. intros; lia.
  - exists c. split; [lia|assumption].
Qed.

Lemma quiet_refl (w : World) : quiet w w.
Proof. split; [apply rate_frame_refl|split; reflexivity]. Qed.

Lemma quiet_trans (w1 w2 w3 : World) :
  quiet w1 w2 -> quiet w2 w3 -> quiet w1 w3.
Proof.
  intros (?&?&?) (?&?&?).
  split; [eapply rate_frame_trans; eauto|split; congruence].
Qed.

Ltac solve_quiet :=
  unfold quiet, rate_frame; cbn; repeat split; try reflexivity; lia.

Lemma tick_spec (w : World) :
  exists w', tick w = (Val tt, w') /\ quiet w w' /\
    mgr w' = mgr w /\ slept w' = slept w.
Proof.
  destruct w. run_monad. eexists. split; [reflexivity|].
  split; [solve_quiet|split; reflexivity].
Qed.

Lemma check_circuit_breaker_spec (w : World) :
  exists b w', _check_circuit_breaker w = (Val b, w') /\ quiet w w' /\
    slept w' = slept w /\ (b = true -> mgr w' = mgr w).
Proof.
  destruct w as [m c ds ups n rec sl]. run_monad.
  destruct (_circuit_breaker_open m);
    [destruct (_ <? _)|]; do 2 eexists;
    (split; [reflexivity|]); (split; [solve_quiet|]);
    (split; [reflexivity|]); intros; try discriminate; reflexivity.
Qed.

Lemma on_exception_spec (max_retries attempt c429 : Z) (e : string)
    (w : World) :
  exists ctl w', on_exception max_retries attempt c429 e w = (Val ctl, w') /\
    quiet w w' /\ (forall r, ctl = Return r -> r = None).
Proof.
  destruct w as [m c ds ups n rec sl]. run_monad.
  destruct (is_rate_limited e); [destruct (2 <=? c429 + 1)|
    destruct (is_transient e); [|destruct (attempt <? max_retries - 1)]];
    do 2 eexists; (split; [reflexivity|]); (split; [solve_quiet|]);
    intros r Hr; congruence.
Qed.

(** One attempt: the rate limiter runs, then exactly one upstream
    invocation is made, and its failure is what the attempt raises. (With
    a limit of zero requests the rate limiter itself may raise, and then
    nothing is sent.) *)
Lemma attempt_body_spec (tool_name : string) (params : list (string * json))
    (w : World) :
  (exists w',
    attempt_body tool_name params w =
      (match hd (Failure "connection closed") (upstream w) with
       | Success data => Val (Return (Some data))
       | Failure e => Exc e
       end, w') /\
    upstream w' = tl (upstream w) /\ calls w' = S (calls w) /\
    length (recorded w') = S (length (recorded w)) /\
    (rate_inv w -> rate_inv w')) \/
  (exists e w',
    attempt_body tool_name params w = (Exc e, w') /\
    _max_requests_per_minute (mgr w) = 0%nat /\
    recorded w' = recorded w /\ slept w' = slept w /\
    upstream w' = upstream w /\ calls w' = calls w).
Proof.
  pose proof (wait_for_rate_limit_inv w) as Hinv.
  destruct (wait_for_rate_limit_spec w)
    as [(now & t1 & w1 & Hrun & Hrec & Hmgr & Hup & Hcalls & _)
       |(e & w1 & Hrun & Hmax & Hrest)];
    [left|right]; unfold attempt_body;
    unfold mbind at 1, M_bind at 1, bind at 1;
    rewrite Hrun in *; cbn [snd] in Hinv.
  2:{ exists e, w1. split; [reflexivity|]. split; assumption. }
  clear Hrun Hmgr.
  destruct w1 as [m1 c1 ds1 ups1 n1 rec1 sl1]. cbn in Hup, Hcalls, Hrec.
  subst ups1 n1 rec1. run_monad.
  destruct (hd (Failure "connection closed") (upstream w)) as [data|e].
  - run_monad. destruct (_circuit_breaker_open m1); eexists;
      (split; [reflexivity|]);
      cbn; rewrite length_app; cbn; (split; [reflexivity|]);
      (split; [reflexivity|]); (split; [lia|]); intros H;
      (eapply rate_frame_inv; [exact (Hinv H)|]); solve_quiet.
  - eexists; (split; [reflexivity|]);
      cbn; rewrite length_app; cbn; (split; [reflexivity|]);
      (split; [reflexivity|]); (split; [lia|]); intros H;
      (eapply rate_frame_inv; [exact (Hinv H)|]); solve_quiet.
Qed.

Lemma In_take_S {A} (x : A) (n : nat) (l : list A) :
  In x (take n l) -> In x (take (S n) l).
Proof.
  revert l. induction n as [|n IH]; intros [|y l]; cbn; try tauto.
  intros [H|H]; [now left|right]. now apply IH.
Qed.

(** The retry loop: it always returns; it makes at most one upstream
    invocation per iteration, each one recorded by the rate limiter; and
    when every invocation fails it returns [None]. *)
Lemma retry_loop_spec (tool_name : string) (params : list (string * json))
    (max_retries : Z) (remaining : nat) :
  forall (attempt c429 : Z) (w : World),
  exists r w',
    retry_loop tool_name params max_retries remaining attempt c429 w
      = (Val r, w') /\
    (calls w <= calls w' <= calls w + remaining)%nat /\
    (length (recorded w') + calls w = length (recorded w) + calls w')%nat /\
    (Forall is_failure (take remaining (upstream w)) -> r = None) /\
    (forall data, r = Some data ->
       In (Success data) (take remaining (upstream w))) /\
    (rate_inv w -> rate_inv w').
Proof.
  induction remaining as [|remaining IH]; intros attempt c429 w.
  - exists None, w. cbn.
    split; [reflexivity|]. split; [lia|]. split; [lia|].
    split; [reflexivity|]. split; [discriminate|tauto].
  - cbn [retry_loop]. unfold mbind at 1, M_bind at 1, bind at 1.
    unfold try_except.
    assert (forall (e : string) (w1 : World),
      (length (recorded w1) + calls w = length (recorded w) + calls w1)%nat ->
      (calls w <= calls w1 <= S (calls w))%nat ->
      (rate_inv w -> rate_inv w1) ->
      (Forall is_failure (take (S remaining) (upstream w)) ->
       Forall is_failure (take remaining (upstream w1))) ->
      (forall x, In x (take remaining (upstream w1)) ->
                 In x (take (S remaining) (upstream w))) ->
      exists r w',
        bind (on_exception max_retries attempt c429 e)
          (fun ctl =>
             match ctl with
             | Return r => ret r
             | Next c =>
               retry_loop tool_name params max_retries remaining
                 (attempt + 1) c
             end) w1 = (Val r, w') /\
        (calls w <= calls w' <= calls w + S remaining)%nat /\
        (length (recorded w') + calls w = length (recorded w) + calls w')%nat /\
        (Forall is_failure (take (S remaining) (upstream w)) -> r = None) /\
        (forall data, r = Some data ->
           In (Success data) (take (S remaining) (upstream w))) /\
        (rate_inv w -> rate_inv w')) as Hhandler.
    { intros e w1 Hrec1 Hcalls1 Hinv1 Hfails Hsub.
      destruct (on_exception_spec max_retries attempt c429 e w1)
        as (ctl & w2 & Hrun2 & (Hfr & Hup2 & Hcalls2) & Hret).
      unfold bind. rewrite Hrun2. clear Hrun2.
      assert (rate_inv w -> rate_inv w2) as Hinv2.
      { intros H. eapply rate_frame_inv; [exact (Hinv1 H)|exact Hfr]. }
      assert (recorded w2 = recorded w1) as Hrec2 by apply Hfr.
      destruct ctl as [r|c'].
      * rewrite (Hret r eq_refl). exists None, w2.
        split; [reflexivity|]. rewrite Hrec2, Hcalls2.
        split; [lia|]. split; [lia|]. split; [reflexivity|].
        split; [discriminate|assumption].
      * destruct (IH (attempt + 1) c' w2)
          as (r & w3 & Hrun3 & Hc3 & Hrec3 & Hfail3 & Hsome3 & Hinv3).
        exists r, w3. split; [exact Hrun3|].
        rewrite Hcalls2 in Hc3. rewrite Hrec2, Hcalls2 in Hrec3.
        rewrite Hup2 in Hfail3, Hsome3.
        split; [lia|]. split; [lia|]. split; [auto|].
        split; [auto|auto]. }
    destruct (attempt_body_spec tool_name params w)
      as [(w1 & Hrun & Hup1 & Hcalls1 & Hrec1 & Hinv1)
         |(e & w1 & Hrun & Hmax & Hrec1 & _ & Hup1 & Hcalls1)];
      rewrite Hrun; clear Hrun.
    + destruct (hd (Failure "connection closed") (upstream w))
        as [data|e] eqn:Hhd.
      * (* the invocation succeeded *)
        exists (Some data), w1. split; [reflexivity|].
        rewrite Hcalls1, Hrec1.
        destruct (upstream w) as [|o ups]; cbn in Hhd; [discriminate|].
        subst o. cbn [take].
        split; [lia|]. split; [lia|]. split.
        { intros H. apply Forall_cons in H as [[] _]. }
        split; [|assumption].
        intros d Hd. left. congruence.
      * (* the invocation raised *)
        apply Hhandler; rewrite ?Hup1, ?Hcalls1, ?Hrec1; try lia; try assumption.
        -- intros H. destruct (upstream w) as [|o ups]; cbn [tl take] in *.
           ++ rewrite take_nil. constructor.
           ++ now apply Forall_cons in H as [_ H].
        -- intros x. destruct (upstream w) as [|o ups]; cbn [tl take].
           ++ rewrite take_nil. tauto.
           ++ intros H. now right.
    + (* the rate limiter raised *)
      apply Hhandler; rewrite ?Hup1, ?Hcalls1, ?Hrec1; try lia.
      * intros H. rewrite (ri_max w H) in Hmax. discriminate.
      * intros H. rewrite Forall_forall in H |- *. intros x Hx. apply H.
        apply list_elem_of_In, In_take_S, list_elem_of_In, Hx.
      * intros x Hx. now apply In_take_S.
Qed.

(** The whole call. *)
Lemma call_tool_with_retry_spec (tool_name : string)
    (params : list (string * json)) (max_retries : Z) (w : World) :
  exists r w',
    call_tool_with_retry tool_name params max_retries w = (Val r, w') /\
    (calls w <= calls w' <= calls w + Z.to_nat max_retries)%nat /\
    (length (recorded w') + calls w = length (recorded w) + calls w')%nat /\
    (fst (_check_circuit_breaker w) = Val true ->
     r = None /\ calls w' = calls w /\ slept w' = slept w /\
     recorded w' = recorded w) /\
    (Forall is_failure (take (Z.to_nat max_retries) (upstream w)) ->
     r = None) /\
    (forall data, r = Some data ->
       In (Success data) (take (Z.to_nat max_retries) (upstream w))) /\
    (rate_inv w -> rate_inv w').
Proof.
  unfold call_tool_with_retry. unfold mbind at 1, M_bind at 1, bind at 1.
  destruct (check_circuit_breaker_spec w)
    as (b & w1 & Hrun1 & (Hfr1 & Hup1 & Hcalls1) & Hsl1 & _).
  rewrite Hrun1. cbn [fst].
  assert (recorded w1 = recorded w) as Hrec1 by apply Hfr1.
  destruct b.
  - exists None, w1. split; [reflexivity|].
    rewrite Hrec1, Hcalls1. split; [lia|]. split; [lia|].
    split; [auto|]. split; [auto|]. split; [discriminate|].
    intros H. eapply rate_frame_inv; eauto.
  - unfold mbind at 1, M_bind at 1, bind at 1.
    destruct (tick_spec w1) as (w2 & Hrun2 & (Hfr2 & Hup2 & Hcalls2) & _).
    rewrite Hrun2.
    assert (recorded w2 = recorded w1) as Hrec2 by apply Hfr2.
    destruct (retry_loop_spec tool_name params max_retries
                (Z.to_nat max_retries) 0 0 w2)
      as (r & w3 & Hrun3 & Hc3 & Hrec3 & Hfail3 & Hsome3 & Hinv3).
    exists r, w3. split; [exact Hrun3|].
    rewrite Hcalls2, Hcalls1 in Hc3.
    rewrite Hrec2, Hrec1, Hcalls2, Hcalls1 in Hrec3.
    rewrite Hup2, Hup1 in Hfail3, Hsome3.
    split; [lia|]. split; [lia|]. split; [discriminate|].
    split; [exact Hfail3|]. split; [exact Hsome3|].
    intros H. apply Hinv3.
    eapply rate_frame_inv; [eapply rate_frame_inv; [exact H|exact Hfr1]|].
    exact Hfr2.
Qed.

Lemma initial_world_inv (t0 : Z) (ds : list nat) (ups : list outcome) :
  rate_inv (initial_world t0 ds ups).
Proof.
  constructor; cbn.
  - reflexivity.
  - reflexivity.
  - constructor.
  - constructor.
  - exists t0. split; [lia|reflexivity].
  - intros i j x y _ Hi. rewrite lookup_nil in Hi. discriminate.
  - intros a. cbn. lia.
Qed.

Lemma run_calls_inv (reqs : list (string * list (string * json) * Z)) :
  forall w : World,
    rate_inv w -> length (recorded w) = calls w ->
    rate_inv (snd (run_calls reqs w)) /\
    length (recorded (snd (run_calls reqs w))) = calls (snd (run_calls reqs w)).
Proof.
  induction reqs as [|[[tool_name params] max_retries] reqs IH];
    intros w Hinv Hlen; [split; assumption|].
  cbn [run_calls].
  destruct (call_tool_with_retry_spec tool_name params max_retries w)
    as (r & w' & Hrun & _ & Hrec & _ & _ & _ & Hinv').
  rewrite Hrun. cbn [snd]. apply IH; [auto|lia].
Qed.

(** *** The circuit breaker *)

(** A check of an open breaker, at the clock reading [clock w']. *)
Lemma check_open_spec (w : World) :
  _circuit_breaker_open (mgr w) = true ->
  exists w',
    let elapsed := clock w' - _circuit_breaker_opened_at (mgr w) in
    _check_circuit_breaker w =
      (Val (negb (_circuit_breaker_timeout (mgr w) <? elapsed)), w') /\
    clock w <= clock w' /\
    mgr w' =
      (if _circuit_breaker_timeout (mgr w) <? elapsed
       then set_breaker false (_circuit_breaker_opened_at (mgr w)) (mgr w)
       else mgr w).
Proof.
  intros Hopen. exists (snd (_check_circuit_breaker w)).
  destruct w as [m c ds ups n rec sl]. cbn in Hopen. run_monad.
  rewrite Hopen.
  destruct (_circuit_breaker_timeout m <?
            c + Z.of_nat (hd 0%nat ds) - _circuit_breaker_opened_at m) eqn:E;
    cbn; rewrite E; (split; [reflexivity|]); split;
    try reflexivity; lia.
Qed.

Lemma poll_breaker_total (n : nat) :
  forall w : World,
  exists bs w', poll_breaker n w = (Val bs, w') /\ clock w <= clock w'.
Proof.
  induction n as [|n IH]; intros w.
  - exists [], w. split; [reflexivity|lia].
  - cbn [poll_breaker]. unfold mbind at 1, M_bind at 1, bind at 1.
    destruct (check_circuit_breaker_spec w)
      as (b & w1 & Hrun1 & ((Hclk & _) & _) & _).
    rewrite Hrun1. unfold mbind at 1, M_bind at 1, bind at 1.
    destruct (IH w1) as (bs & w2 & Hrun2 & Hclk2). rewrite Hrun2.
    exists (b :: bs), w2. split; [reflexivity|lia].
Qed.

(** While the cooldown has not elapsed, every check of an open breaker
    answers "open" and leaves the breaker as it is. *)
Lemma poll_breaker_open (n : nat) :
  forall w : World,
  _circuit_breaker_open (mgr w) = true ->
  exists bs w',
    poll_breaker n w = (Val bs, w') /\
    (clock w' - _circuit_breaker_opened_at (mgr w)
       <= _circuit_breaker_timeout (mgr w) ->
     bs = repeat true n /\ mgr w' = mgr w).
Proof.
  induction n as [|n IH]; intros w Hopen.
  - exists [], w. split; [reflexivity|]. intros _. split; reflexivity.
  - cbn [poll_breaker]. unfold mbind at 1, M_bind at 1, bind at 1.
    destruct (check_open_spec w Hopen) as (w1 & Hrun1 & Hclk1 & Hmgr1).
    cbv zeta in Hrun1, Hmgr1. rewrite Hrun1.
    unfold mbind at 1, M_bind at 1, bind at 1.
    destruct (_circuit_breaker_timeout (mgr w) <?
              clock w1 - _circuit_breaker_opened_at (mgr w)) eqn:E.
    + destruct (poll_breaker_total n w1) as (bs & w2 & Hrun2 & Hclk2).
      rewrite Hrun2. exists (negb true :: bs), w2.
      split; [reflexivity|]. intros H. apply Z.ltb_lt in E. lia.
    + rewrite <- Hmgr1 in Hopen.
      destruct (IH w1 Hopen) as (bs & w2 & Hrun2 & Hkeep).
      rewrite Hrun2. exists (negb false :: bs), w2.
      split; [reflexivity|]. rewrite Hmgr1 in Hkeep. intros H.
      destruct (Hkeep H) as [-> ->]. split; reflexivity.
Qed.

(** *** The exception handler, case by case *)

Lemma on_exception_cases (max_retries attempt c429 : Z) (e : string)
    (w : World) :
  exists ctl w',
    on_exception max_retries attempt c429 e w = (Val ctl, w') /\
    calls w' = calls w /\
    (is_rate_limited e = true -> 2 <= c429 + 1 ->
     ctl = Return None /\
     _circuit_breaker_open (mgr w') = true /\
     _circuit_breaker_opened_at (mgr w') = clock w' /\
     clock w <= clock w' /\ slept w' = slept w) /\
    (is_rate_limited e = true -> c429 + 1 < 2 ->
     ctl = Next (c429 + 1) /\ mgr w' = mgr w /\
     slept w' = slept w ++ [20 * 2 ^ attempt] /\
     clock w + Z.max 0 (20 * 2 ^ attempt) <= clock w') /\
    (is_rate_limited e = false -> is_transient e = true ->
     ctl = Next c429 /\ mgr w' = mgr w /\
     slept w' = slept w ++ [(attempt + 1) * 5] /\
     clock w + Z.max 0 ((attempt + 1) * 5) <= clock w') /\
    (is_rate_limited e = false -> is_transient e = false ->
     attempt < max_retries - 1 ->
     ctl = Next c429 /\ mgr w' = mgr w /\
     slept w' = slept w ++ [3] /\ clock w + 3 <= clock w') /\
    (is_rate_limited e = false -> is_transient e = false ->
     max_retries - 1 <= attempt ->
     ctl = Next c429 /\ w' = w).
Proof.
  exists (match fst (on_exception max_retries attempt c429 e w) with
          | Val ctl => ctl
          | Exc _ => Next 0
          end), (snd (on_exception max_retries attempt c429 e w)).
  destruct w as [m c ds ups n rec sl]. run_monad.
  destruct (is_rate_limited e);
    [destruct (2 <=? c429 + 1) eqn:E2|
     destruct (is_transient e);
     [|destruct (attempt <? max_retries - 1) eqn:E3]];
    cbn; (split; [reflexivity|]); (split; [reflexivity|]);
    try apply Z.leb_le in E2; try apply Z.leb_gt in E2;
    try apply Z.ltb_lt in E3; try apply Z.ltb_ge in E3;
    repeat split; try discriminate; try lia;
    try (replace (2 ^ attempt * 20) with (20 * 2 ^ attempt) by lia);
    try reflexivity; try lia.
Qed.

(** *** Calls in flight together *)

(** The clock never goes backwards. *)
Lemma wait_for_rate_limit_clock (w : World) :
  clock w <= clock (snd (_wait_for_rate_limit w)).
Proof.
  destruct w as [m c ds ups n rec sl]. run_monad.
  set (now := c + Z.of_nat (hd 0%nat ds)).
  set (queue := List.filter (fun t => now - t <? 60) (_request_queue m)).
  destruct (_max_requests_per_minute m <=? length queue)%nat;
    [destruct queue as [|oldest rest];
     [|destruct (0 <? 60 - (now - oldest) + 10)]|];
    try (cbn; lia);
    destruct (now - _last_request_time m <? _request_delay m);
    cbn; lia.
Qed.

Lemma attempt_body_clock (tool_name : string) (params : list (string * json))
    (w : World) :
  clock w <= clock (snd (attempt_body tool_name params w)).
Proof.
  pose proof (wait_for_rate_limit_clock w) as H.
  unfold attempt_body. unfold mbind at 1, M_bind at 1, bind at 1.
  destruct (_wait_for_rate_limit w) as [[[]|e] w1]; cbn [snd] in H |- *;
    [|exact H].
  destruct w1 as [m c ds ups n rec sl]. run_monad.
  destruct (hd (Failure "connection closed") ups); [|cbn in *; lia].
  run_monad. destruct (_circuit_breaker_open m); cbn in *; lia.
Qed.

Lemma iteration_clock (tool_name : string) (params : list (string * json))
    (max_retries attempt c429 : Z) (w : World) :
  clock w <=
  clock (snd (try_except (attempt_body tool_name params)
                (on_exception max_retries attempt c429) w)).
Proof.
  pose proof (attempt_body_clock tool_name params w) as H1.
  unfold try_except.
  destruct (attempt_body tool_name params w) as [[ctl|e] w1];
    cbn [snd] in H1 |- *; [exact H1|].
  destruct (on_exception_spec max_retries attempt c429 e w1)
    as (ctl & w2 & Hrun & ((Hclk & _) & _) & _).
  rewrite Hrun. cbn [snd]. lia.
Qed.

(** An attempt that returns leaves the breaker closed. *)
Lemma attempt_body_closes (tool_name : string)
    (params : list (string * json)) (w w' : World) (ctl : loop_ctl) :
  attempt_body tool_name params w = (Val ctl, w') ->
  _circuit_breaker_open (mgr w') = false /\
  exists data, ctl = Return (Some data) /\
    hd (Failure "connection closed") (upstream w) = Success data.
Proof.
  unfold attempt_body. unfold mbind at 1, M_bind at 1, bind at 1.
  destruct (wait_for_rate_limit_spec w)
    as [(now & t1 & w1 & Hrun & _ & _ & Hup & _)|(e & w1 & Hrun & _)];
    rewrite Hrun; [|discriminate].
  clear Hrun. destruct w1 as [m c ds ups n rec sl]. cbn in Hup. subst ups.
  run_monad.
  destruct (hd (Failure "connection closed") (upstream w)) as [data|e];
    [|discriminate].
  run_monad. destruct (_circuit_breaker_open m) eqn:Hopen;
    intros H; injection H as <- <-; cbn; (split; [|eauto]);
    [reflexivity|exact Hopen].
Qed.

(** What a step changes: the call that runs, and nothing of the other
    calls; the clock does not go backwards. *)
Lemma flight_step_frame (i : nat) (f f' : Flights) :
  flight_step i f = Some f' ->
  clock (fl_world f) <= clock (fl_world f') /\
  exists c st,
    fl_calls f !! i = Some c /\
    (forall r, at_stage c <> Finished r) /\
    fl_calls f' = <[i := with_stage st c]> (fl_calls f).
Proof.
  unfold flight_step.
  destruct (fl_calls f !! i) as [c|] eqn:Hc; [|discriminate].
  destruct (at_stage c) as [|remaining attempt c429|r] eqn:Hst;
    [| |discriminate].
  - destruct (check_circuit_breaker_spec (fl_world f))
      as (b & w1 & Hrun & ((Hclk & _) & _) & _).
    rewrite Hrun.
    destruct b; intros H; injection H as <-; cbn [fl_world fl_calls].
    + split; [exact Hclk|]. eexists c, _. split; [reflexivity|].
      split; [rewrite Hst; discriminate|reflexivity].
    + split; [cbn; lia|]. eexists c, _.
      split; [reflexivity|]. split; [rewrite Hst; discriminate|reflexivity].
  - destruct (lock_queue f) as [|holder waiters]; [discriminate|].
    destruct (holder =? i)%nat; [|discriminate].
    destruct remaining as [|remaining].
    + intros H. injection H as <-. cbn [fl_world fl_calls].
      split; [lia|]. eexists c, _. split; [reflexivity|].
      split; [rewrite Hst; discriminate|reflexivity].
    + pose proof (iteration_clock (call_tool_name c) (call_params c)
                    (call_max_retries c) attempt c429 (fl_world f)) as Hclk.
      destruct (try_except _ _ (fl_world f)) as [[[r|c']|e] w1];
        cbn [snd] in Hclk; intros H; injection H as <-;
        cbn [fl_world fl_calls]; (split; [exact Hclk|]); eexists c, _;
        (split; [reflexivity|]);
        (split; [rewrite Hst; discriminate|reflexivity]).
Qed.

Lemma run_flights_clock (schedule : list nat) :
  forall f f' : Flights,
    run_flights schedule f = Some f' ->
    clock (fl_world f) <= clock (fl_world f').
Proof.
  induction schedule as [|i rest IH]; intros f f' Hrun; cbn in Hrun.
  - injection Hrun as <-. lia.
  - destruct (flight_step i f) as [f1|] eqn:Hstep; [|discriminate].
    apply flight_step_frame in Hstep as [Hclk _].
    specialize (IH f1 f' Hrun). lia.
Qed.

(** A call that has returned stays as it is. *)
Lemma run_flights_finished (schedule : list nat) :
  forall (f f' : Flights) (i : nat) (c : call) (r : result (option json)),
    run_flights schedule f = Some f' ->
    fl_calls f !! i = Some c -> at_stage c = Finished r ->
    fl_calls f' !! i = Some c.
Proof.
  induction schedule as [|j rest IH]; intros f f' i c r Hrun Hc Hst;
    cbn in Hrun.
  - now injection Hrun as <-.
  - destruct (flight_step j f) as [f1|] eqn:Hstep; [|discriminate].
    apply flight_step_frame in Hstep as (_ & cj & st & Hcj & Hnot & Hcalls).
    apply (IH f1 f' i c r Hrun); [|exact Hst].
    rewrite Hcalls. destruct (decide (j = i)) as [->|Hne].
    + rewrite Hc in Hcj. injection Hcj as <-. destruct (Hnot r Hst).
    + now rewrite list_lookup_insert_ne.
Qed.

(** The test of an open breaker by a call, before the cooldown has
    elapsed: the call returns [None] and nothing else changes. *)
Lemma flight_step_grounded (i : nat) (f f' : Flights) :
  _circuit_breaker_open (mgr (fl_world f)) = true ->
  Forall (fun c => past_gate c = false) (fl_calls f) ->
  flight_step i f = Some f' ->
  clock (fl_world f') - _circuit_breaker_opened_at (mgr (fl_world f))
    <= _circuit_breaker_timeout (mgr (fl_world f)) ->
  mgr (fl_world f') = mgr (fl_world f) /\
  calls (fl_world f') = calls (fl_world f) /\
  upstream (fl_world f') = upstream (fl_world f) /\
  lock_queue f' = lock_queue f /\
  Forall (fun c => past_gate c = false) (fl_calls f') /\
  exists c, fl_calls f' !! i = Some c /\ at_stage c = Finished (Val None).
Proof.
  intros Hopen Hrest Hstep Hearly. unfold flight_step in Hstep.
  destruct (fl_calls f !! i) as [c|] eqn:Hc; [|discriminate].
  pose proof (Forall_lookup_1 _ _ _ _ Hrest Hc) as Hgate.
  unfold past_gate in Hgate.
  destruct (at_stage c) as [|remaining attempt c429|r] eqn:Hst;
    [|discriminate|discriminate].
  destruct (check_open_spec (fl_world f) Hopen) as (w1 & Hrun & Hclk & Hmgr).
  cbv zeta in Hrun, Hmgr.
  destruct (check_circuit_breaker_spec (fl_world f))
    as (b & w1' & Hrun' & (_ & Hup & Hcalls) & _).
  rewrite Hrun in Hrun'. injection Hrun' as <- <-.
  rewrite Hrun in Hstep.
  destruct (_circuit_breaker_timeout (mgr (fl_world f)) <?
            clock w1 - _circuit_breaker_opened_at (mgr (fl_world f))) eqn:E;
    cbn [negb] in Hstep; injection Hstep as <-;
    cbn [fl_world fl_calls lock_queue] in *.
  - apply Z.ltb_lt in E. cbn in Hearly. lia.
  - split; [exact Hmgr|]. split; [exact Hcalls|]. split; [exact Hup|].
    split; [reflexivity|]. split.
    + apply Forall_insert; [exact Hrest|reflexivity].
    + eexists. split.
      * apply list_lookup_insert_eq. now apply lookup_lt_Some in Hc.
      * reflexivity.
Qed.

(** While the breaker is open, no call is past its test and the cooldown
    has not elapsed, every call that runs returns [None]: nothing is sent
    upstream and the manager stays as it is. *)
Lemma run_flights_grounded (schedule : list nat) :
  forall f f' : Flights,
    _circuit_breaker_open (mgr (fl_world f)) = true ->
    Forall (fun c => past_gate c = false) (fl_calls f) ->
    run_flights schedule f = Some f' ->
    clock (fl_world f') - _circuit_breaker_opened_at (mgr (fl_world f))
      <= _circuit_breaker_timeout (mgr (fl_world f)) ->
    mgr (fl_world f') = mgr (fl_world f) /\
    calls (fl_world f') = calls (fl_world f) /\
    upstream (fl_world f') = upstream (fl_world f) /\
    lock_queue f' = lock_queue f /\
    Forall (fun c => past_gate c = false) (fl_calls f') /\
    forall i, i ∈ schedule ->
      exists c, fl_calls f' !! i = Some c /\ at_stage c = Finished (Val None).
Proof.
  induction schedule as [|i rest IH]; intros f f' Hopen Hrest Hrun Hearly;
    cbn in Hrun.
  - injection Hrun as <-. repeat split; try assumption.
    intros i Hi. apply elem_of_nil in Hi. destruct Hi.
  - destruct (flight_step i f) as [f1|] eqn:Hstep; [|discriminate].
    pose proof (run_flights_clock rest f1 f' Hrun) as Hclk.
    destruct (flight_step_grounded i f f1 Hopen Hrest Hstep)
      as (Hmgr & Hcalls & Hup & Hqueue & Hrest1 & c & Hc & Hst); [lia|].
    destruct (IH f1 f') as (Hmgr' & Hcalls' & Hup' & Hqueue' & Hrest' & Hall);
      try assumption; rewrite ?Hmgr; try assumption.
    split; [congruence|]. split; [congruence|]. split; [congruence|].
    split; [congruence|]. split; [exact Hrest'|].
    intros j Hj. apply elem_of_cons in Hj as [->|Hj]; [|auto].
    exists c. split; [|exact Hst].
    exact (run_flights_finished rest f1 f' i c _ Hrun Hc Hst).
Qed.

(** A call that runs alone goes through [call_tool_with_retry]. *)
Lemma lone_loop (tool_name : string) (params : list (string * json))
    (max_retries : Z) (remaining : nat) :
  forall (attempt c429 : Z) (w : World),
  exists n : nat,
    run_flights (repeat 0%nat n)
      {| fl_world := w;
         fl_calls := [mkCall tool_name params max_retries
                        (InLoop remaining attempt c429)];
         lock_queue := [0%nat] |}
    = Some
        {| fl_world :=
             snd (retry_loop tool_name params max_retries remaining attempt
                    c429 w);
           fl_calls :=
             [mkCall tool_name params max_retries
                (Finished (fst (retry_loop tool_name params max_retries
                                  remaining attempt c429 w)))];
           lock_queue := [] |}.
Proof.
  induction remaining as [|remaining IH]; intros attempt c429 w.
  - exists 1%nat. reflexivity.
  - cbn [retry_loop]. unfold mbind at 1 2, M_bind at 1 2, bind at 1 2.
    destruct (try_except (attempt_body tool_name params)
                (on_exception max_retries attempt c429) w)
      as [[[r|c']|e] w1] eqn:Hrun.
    + exists 1%nat. cbn. rewrite Hrun. reflexivity.
    + destruct (IH (attempt + 1) c' w1) as (n & Hn).
      exists (S n). cbn [repeat run_flights]. cbn. rewrite Hrun. exact Hn.
    + exists 1%nat. cbn. rewrite Hrun. reflexivity.
Qed.

Lemma lone_flight (tool_name : string) (params : list (string * json))
    (max_retries : Z) (w : World) :
  exists n : nat,
    run_flights (repeat 0%nat n)
      (take_off w [(tool_name, params, max_retries)])
    = Some
        {| fl_world := snd (call_tool_with_retry tool_name params
                              max_retries w);
           fl_calls :=
             [mkCall tool_name params max_retries
                (Finished (fst (call_tool_with_retry tool_name params
                                  max_retries w)))];
           lock_queue := [] |}.
Proof.
  destruct (_check_circuit_breaker w) as [[[]|e] w1] eqn:Hrun.
  - assert (call_tool_with_retry tool_name params max_retries w
            = (Val None, w1)) as ->.
    { unfold call_tool_with_retry.
      unfold mbind at 1, M_bind at 1, bind at 1. now rewrite Hrun. }
    exists 1%nat. cbn. rewrite Hrun. reflexivity.
  - destruct (tick_spec w1) as (w2 & Hrun2 & _).
    assert (call_tool_with_retry tool_name params max_retries w
            = retry_loop tool_name params max_retries
                (Z.to_nat max_retries) 0 0 w2) as ->.
    { unfold call_tool_with_retry.
      unfold mbind at 1, M_bind at 1, bind at 1. rewrite Hrun.
      unfold mbind at 1, M_bind at 1, bind at 1. now rewrite Hrun2. }
    destruct (lone_loop tool_name params max_retries (Z.to_nat max_retries)
                0 0 w2) as (n & Hn).
    exists (S n). cbn [repeat run_flights]. unfold flight_step, take_off.
    cbn [fl_calls fl_world lock_queue fmap list_fmap lookup list_lookup
         at_stage fst snd call_max_retries].
    rewrite Hrun, Hrun2. cbn [snd app insert list_insert with_stage
      call_tool_name call_params call_max_retries].
    exact Hn.
  - assert (call_tool_with_retry tool_name params max_retries w
            = (Exc e, w1)) as ->.
    { unfold call_tool_with_retry.
      unfold mbind at 1, M_bind at 1, bind at 1. now rewrite Hrun. }
    exists 1%nat. cbn. rewrite Hrun. reflexivity.
Qed.

(** *** The claims about the admission control *)

(** C4, amended. Only a rate-limit (429) failure increments
    [consecutive_429s]; when the counter reaches 2 the breaker opens at
    once, with [_circuit_breaker_opened_at] the clock reading of that
    instant, and the call returns without a sleep or an upstream
    invocation. Checks that follow one another with nothing in between
    answer "open" and change nothing while no more than
    [_circuit_breaker_timeout] (300) has elapsed, and the first check made
    after that closes the breaker and answers "closed". With calls in
    flight the breaker stays open for that long when no call is past its
    test of the breaker at the time: every call that runs then returns
    [None] without an upstream invocation, and a check still answers
    "open". A call that was past its test closes the breaker as soon as
    one of its attempts succeeds. *)
Theorem circuit_breaker_opens_and_cools_down :
  _circuit_breaker_timeout __init__ = 300 /\
  (forall (max_retries attempt c429 : Z) (e : string) (w : World),
     exists ctl w',
       on_exception max_retries attempt c429 e w = (Val ctl, w') /\
       (is_rate_limited e = false -> ctl = Next c429 /\ mgr w' = mgr w) /\
       (is_rate_limited e = true -> c429 + 1 < 2 ->
        ctl = Next (c429 + 1) /\ mgr w' = mgr w) /\
       (is_rate_limited e = true -> 2 <= c429 + 1 ->
        ctl = Return None /\
        _circuit_breaker_open (mgr w') = true /\
        _circuit_breaker_opened_at (mgr w') = clock w' /\
        slept w' = slept w /\ calls w' = calls w)) /\
  (forall (n : nat) (w : World),
     _circuit_breaker_open (mgr w) = true ->
     exists bs w',
       poll_breaker n w = (Val bs, w') /\
       (clock w' - _circuit_breaker_opened_at (mgr w)
          <= _circuit_breaker_timeout (mgr w) ->
        bs = repeat true n /\ mgr w' = mgr w)) /\
  (forall w : World,
     _circuit_breaker_open (mgr w) = true ->
     exists b w',
       _check_circuit_breaker w = (Val b, w') /\
       (_circuit_breaker_timeout (mgr w)
          < clock w' - _circuit_breaker_opened_at (mgr w) ->
        b = false /\ _circuit_breaker_open (mgr w') = false)) /\
  (forall (schedule : list nat) (f f' : Flights),
     _circuit_breaker_open (mgr (fl_world f)) = true ->
     Forall (fun c => past_gate c = false) (fl_calls f) ->
     run_flights schedule f = Some f' ->
     exists b w',
       _check_circuit_breaker (fl_world f') = (Val b, w') /\
       (clock w' - _circuit_breaker_opened_at (mgr (fl_world f))
          <= _circuit_breaker_timeout (mgr (fl_world f)) ->
        b = true /\ mgr w' = mgr (fl_world f) /\
        calls w' = calls (fl_world f) /\
        forall i, i ∈ schedule ->
          exists c, fl_calls f' !! i = Some c /\
                    at_stage c = Finished (Val None))) /\
  (forall (tool_name : string) (params : list (string * json))
          (w w' : World) (ctl : loop_ctl),
     attempt_body tool_name params w = (Val ctl, w') ->
     _circuit_breaker_open (mgr w') = false).
Proof.
  split; [reflexivity|]. split; [|split; [|split; [|split]]].
  - intros max_retries attempt c429 e w.
    destruct (on_exception_cases max_retries attempt c429 e w)
      as (ctl & w' & Hrun & Hcalls & Hopen & Hrl & Htr & Hother & Hlast).
    exists ctl, w'. split; [exact Hrun|]. split; [|split].
    + intros Hno. destruct (is_transient e) eqn:Et.
      * destruct (Htr Hno eq_refl) as (? & ? & _). now split.
      * destruct (Z.lt_ge_cases attempt (max_retries - 1)) as [Hlt|Hge].
        -- destruct (Hother Hno eq_refl Hlt) as (? & ? & _). now split.
        -- destruct (Hlast Hno eq_refl Hge) as (? & ->). now split.
    + intros Hyes Hlow. destruct (Hrl Hyes Hlow) as (? & ? & _). now split.
    + intros Hyes Hhigh.
      destruct (Hopen Hyes Hhigh) as (? & ? & ? & _ & ?). now repeat split.
  - exact poll_breaker_open.
  - intros w Hopen.
    destruct (check_open_spec w Hopen) as (w' & Hrun & _ & Hmgr).
    cbv zeta in Hrun, Hmgr. eexists _, w'. split; [exact Hrun|].
    intros Hlate. apply Z.ltb_lt in Hlate. rewrite Hlate in *.
    split; [reflexivity|]. rewrite Hmgr. reflexivity.
  - intros schedule f f' Hopen Hrest Hrun.
    destruct (check_circuit_breaker_spec (fl_world f'))
      as (b & w' & Hcheck & ((Hclk & _) & _ & Hcalls) & _).
    exists b, w'. split; [exact Hcheck|]. intros Hearly.
    destruct (run_flights_grounded schedule f f' Hopen Hrest Hrun)
      as (Hmgr & Hcalls' & _ & _ & _ & Hall); [lia|].
    rewrite <- Hmgr in Hopen, Hearly.
    destruct (check_open_spec (fl_world f') Hopen) as (w1 & Hrun1 & _ & Hmgr1).
    cbv zeta in Hrun1, Hmgr1. rewrite Hcheck in Hrun1.
    injection Hrun1 as -> <-.
    destruct (_circuit_breaker_timeout (mgr (fl_world f')) <?
              clock w' - _circuit_breaker_opened_at (mgr (fl_world f')))
      eqn:E; [apply Z.ltb_lt in E; lia|].
    split; [reflexivity|]. split; [congruence|]. split; [congruence|].
    exact Hall.
  - intros tool_name params w w' ctl Hrun.
    now destruct (attempt_body_closes tool_name params w w' ctl Hrun).
Qed.

(** C4 as stated fails. Two calls are made at 1000. The first passes the
    test of the breaker, takes the lock and is answered 429; during its
    backoff the second passes the test and waits for the lock. The first
    is answered 429 again and opens the breaker at 1020. The second, which
    does not test the breaker again, succeeds and closes it: a check at
    1028 answers "closed". *)
Lemma breaker_closed_by_call_past_the_gate : ~ open_until_cooldown.
Proof.
  intros H.
  assert (exists f f' w',
            run_flights [0; 0; 1; 0]%nat two_flights = Some f /\
            _circuit_breaker_open (mgr (fl_world f)) = true /\
            _circuit_breaker_opened_at (mgr (fl_world f)) = 1020 /\
            _circuit_breaker_timeout (mgr (fl_world f)) = 300 /\
            run_flights [1%nat] f = Some f' /\
            _check_circuit_breaker (fl_world f') = (Val false, w') /\
            clock w' = 1028)
    as (f & f' & w' & Hrun & Hopen & Hat & Htimeout & Hrun' & Hcheck & Hclk).
  { eexists _, _, _. split; [vm_compute; reflexivity|].
    split; [reflexivity|]. split; [reflexivity|]. split; [reflexivity|].
    split; [vm_compute; reflexivity|]. split; [vm_compute; reflexivity|].
    reflexivity. }
  assert (false = true) as Habs; [|discriminate Habs].
  apply (H 1000 [] [Failure "429"; Failure "429"; Success (JNum 7)]
           [("get_global", [], 3); ("get_search_trending", [], 3)]
           [0; 0; 1; 0]%nat [1%nat] f f' false w' Hrun Hopen Hrun' Hcheck).
  rewrite Hclk, Hat, Htimeout. lia.
Qed.

(** The breaker of [breaker_open_world], opened at 1000, answers "open" to
    three checks that end at 1290, and "closed" to a check at 1301; two
    calls made at 1150 and 1210 return [None] and a check then answers
    "open". *)
Lemma circuit_breaker_opens_and_cools_down_witness :
  (exists w',
     poll_breaker 3
       {| mgr := mgr breaker_open_world; clock := 1100;
          delays := [50; 60; 80]%nat; upstream := []; calls := 0;
          recorded := []; slept := [] |} = (Val [true; true; true], w') /\
     mgr w' = mgr breaker_open_world) /\
  (exists w',
     _check_circuit_breaker
       {| mgr := mgr breaker_open_world; clock := 1300;
          delays := [1]%nat; upstream := []; calls := 0;
          recorded := []; slept := [] |} = (Val false, w') /\
     _circuit_breaker_open (mgr w') = false) /\
  (exists f' w',
     run_flights [0; 1]%nat grounded_flights = Some f' /\
     _check_circuit_breaker (fl_world f') = (Val true, w') /\
     calls w' = 0%nat /\
     at_stage <$> fl_calls f' = [Finished (Val None); Finished (Val None)]).
Proof.
  destruct circuit_breaker_opens_and_cools_down
    as (_ & _ & Hpoll & Hcheck & Hflights & _).
  split; [|split].
  - destruct (Hpoll 3%nat
                {| mgr := mgr breaker_open_world; clock := 1100;
                   delays := [50; 60; 80]%nat; upstream := []; calls := 0;
                   recorded := []; slept := [] |} eq_refl)
      as (bs & w' & Hrun & Hkeep).
    exists w'.
    assert (clock w' = 1290) as Hclk.
    { vm_compute in Hrun. now injection Hrun as _ <-. }
    destruct Hkeep as [Hbs Hmgr]; [rewrite Hclk; cbn; lia|].
    rewrite Hrun, Hbs. split; [reflexivity|exact Hmgr].
  - destruct (Hcheck
                {| mgr := mgr breaker_open_world; clock := 1300;
                   delays := [1]%nat; upstream := []; calls := 0;
                   recorded := []; slept := [] |} eq_refl)
      as (b & w' & Hrun & Hclose).
    exists w'.
    assert (clock w' = 1301) as Hclk.
    { vm_compute in Hrun. now injection Hrun as _ <-. }
    destruct Hclose as [Hb Hflag]; [rewrite Hclk; cbn; lia|].
    rewrite Hrun, Hb. split; [reflexivity|exact Hflag].
  - assert (exists f', run_flights [0; 1]%nat grounded_flights = Some f' /\
              length (fl_calls f') = 2%nat) as (f' & Hrun & Hlen).
    { eexists. split; [vm_compute; reflexivity|reflexivity]. }
    destruct (Hflights [0; 1]%nat grounded_flights f' eq_refl) as
      (b & w' & Hrun' & Hopen); [repeat constructor|exact Hrun|].
    exists f', w'.
    assert (clock w' = 1210) as Hclk.
    { clear Hopen. vm_compute in Hrun. injection Hrun as <-.
      vm_compute in Hrun'. now injection Hrun' as _ <-. }
    destruct Hopen as (-> & _ & Hcalls & Hall); [rewrite Hclk; cbn; lia|].
    split; [exact Hrun|]. split; [exact Hrun'|]. split; [exact Hcalls|].
    destruct (Hall 0%nat) as (c0 & Hc0 & Hst0); [apply list_elem_of_here|].
    destruct (Hall 1%nat) as (c1 & Hc1 & Hst1);
      [apply list_elem_of_further, list_elem_of_here|].
    destruct (fl_calls f') as [|x0 [|x1 [|x2 l]]]; try discriminate Hlen.
    cbn in Hc0, Hc1. injection Hc0 as ->. injection Hc1 as ->.
    cbn. now rewrite Hst0, Hst1.
Defined.

(** C5. Whatever calls are made through a manager from process start,
    whatever the upstream answers and however long the suspensions last:
    every upstream invocation is recorded once, any two recorded calls are
    at least [_request_delay] = 8 apart, and no window of 60 holds more
    than [_max_requests_per_minute] = 5 of them. *)
Theorem rate_limiter_window_and_spacing (t0 : Z) (ds : list nat)
    (ups : list outcome) (reqs : list (string * list (string * json) * Z)) :
  let w := snd (run_calls reqs (initial_world t0 ds ups)) in
  length (recorded w) = calls w /\
  min_spacing (_request_delay __init__) (recorded w) /\
  forall a : Z,
    (calls_in_window a (recorded w) <= _max_requests_per_minute __init__)%nat.
Proof.
  cbv zeta.
  destruct (run_calls_inv reqs (initial_world t0 ds ups)
              (initial_world_inv t0 ds ups) eq_refl) as [Hinv Hlen].
  split; [exact Hlen|]. split.
  - exact (ri_spacing _ Hinv).
  - exact (ri_window _ Hinv).
Qed.

(** Eight calls in a row against an upstream that answers at once: the
    sixth waits for the first to be 70 old and then for the spacing, the
    others for the spacing only. *)
Example rate_limiter_eight_calls :
  recorded (snd (run_calls (repeat ("get_global", [], 3) 8)
                   (initial_world 1000 [] (repeat (Success JNull) 8))))
  = [1000; 1008; 1016; 1024; 1032; 1078; 1086; 1094].
Proof. vm_compute. reflexivity. Qed.

(** C6. [call_tool_with_retry] never raises: it returns a value. When the
    breaker answers "open" at the start, it returns [None] at once: no
    upstream invocation, no rate-limiter record, no sleep. When each of
    the [max_retries] attempts fails, it returns [None]. It never makes
    more than [max_retries] upstream invocations. *)
Theorem call_tool_with_retry_never_raises (tool_name : string)
    (params : list (string * json)) (max_retries : Z) (w : World) :
  exists r w',
    call_tool_with_retry tool_name params max_retries w = (Val r, w') /\
    (calls w' <= calls w + Z.to_nat max_retries)%nat /\
    (fst (_check_circuit_breaker w) = Val true ->
     r = None /\ calls w' = calls w /\ slept w' = slept w /\
     recorded w' = recorded w) /\
    (Forall is_failure (take (Z.to_nat max_retries) (upstream w)) ->
     r = None).
Proof.
  destruct (call_tool_with_retry_spec tool_name params max_retries w)
    as (r & w' & Hrun & Hcalls & _ & Hopen & Hfail & _).
  exists r, w'. split; [exact Hrun|]. split; [lia|]. split; assumption.
Qed.

(** With the breaker open the upstream, although ready to answer, is not
    asked; and three failures in a row end in [None]. *)
Lemma call_tool_with_retry_never_raises_witness :
  (exists w',
     call_tool_with_retry "get_global" [] 3 breaker_open_world
       = (Val None, w') /\ calls w' = 0%nat /\ slept w' = []) /\
  (exists w',
     call_tool_with_retry "get_global" [] 3
       (initial_world 1000 []
          [Failure "timeout"; Failure "HTTP 500"; Failure "429"])
       = (Val None, w')).
Proof.
  split.
  - destruct (call_tool_with_retry_never_raises "get_global" [] 3
                breaker_open_world)
      as (r & w' & Hrun & _ & Hopen & _).
    destruct Hopen as (-> & Hcalls & Hslept & _); [vm_compute; reflexivity|].
    exists w'. split; [exact Hrun|]. split; assumption.
  - destruct (call_tool_with_retry_never_raises "get_global" [] 3
                (initial_world 1000 []
                   [Failure "timeout"; Failure "HTTP 500"; Failure "429"]))
      as (r & w' & Hrun & _ & _ & Hfail).
    rewrite Hfail in Hrun; [|cbn; repeat constructor].
    exists w'. exact Hrun.
Defined.



End McpFacts.

Section CacheFacts.
Local Open Scope Z_scope.

Variable h : string -> string.

Ltac run_cache :=
  cbv [Cache.set Cache.get Cache.get_stale Cache.on_chroma Cache.get_self
       Cache.put_cache Cache.to_dict Cache.chroma_log Cache.chroma_docs
       Chroma.set Chroma.get Chroma.get_stale Chroma.get_self
       Chroma.collection_get Chroma.collection_upsert
       Chroma.collection_delete Chroma.collection_op Chroma.put_collection
       mbind M_bind bind mret M_ret ret try_except is_some negb andb] in *;
  cbn [cache chroma_cache collection faults store_log fst snd hd tl
       default] in *.

Ltac run_manager :=
  cbv [Cache.set Cache.get Cache.get_stale Cache.on_chroma Cache.get_self
       Cache.put_cache Cache.chroma_log Cache.chroma_docs
       mbind M_bind bind mret M_ret ret try_except is_some negb andb] in *;
  cbn [cache chroma_cache fst snd] in *.

(** *** The persistent cache *)

(** [Chroma.get] never raises and does not change the documents; what it
    returns is a document of the key younger than [max_age_hours]. *)
Lemma chroma_get_spec (now : Z) (endpoint : string) (max_age_hours : Z)
    (c : ChromaPersistentCache) :
  let id := Chroma._generate_cache_key h endpoint in
  exists r c',
    Chroma.get h now endpoint max_age_hours c = (Val r, c') /\
    collection c' = collection c /\
    (forall j, r = Some j ->
       exists docs doc,
         collection c = Some docs /\ docs !! id = Some doc /\
         doc_json doc = j /\
         now - doc_timestamp doc < max_age_hours * 3600) /\
    (forall docs doc,
       collection c = Some docs -> docs !! id = Some doc ->
       hd false (faults c) = false ->
       now - doc_timestamp doc < max_age_hours * 3600 ->
       r = Some (doc_json doc)) /\
    (collection c = None -> c' = c /\ r = None) /\
    (is_Some (collection c) -> store_log c' = store_log c ++ [OpGet id]).
Proof.
  cbv zeta.
  exists (match fst (Chroma.get h now endpoint max_age_hours c) with
          | Val r => r
          | Exc _ => None
          end), (snd (Chroma.get h now endpoint max_age_hours c)).
  destruct c as [[docs|] fl lg]; run_cache.
  2:{ repeat split; try discriminate. intros [? ?]. discriminate. }
  destruct fl as [|[] fl]; cbn [hd tl];
    destruct (docs !! Chroma._generate_cache_key h endpoint)
      as [doc|] eqn:Hdoc;
    try destruct (now - doc_timestamp doc <? max_age_hours * 3600) eqn:Hage;
    cbn; (split; [reflexivity|]); (split; [reflexivity|]);
    try apply Z.ltb_lt in Hage; try apply Z.ltb_ge in Hage;
    (split; [intros j Hj; try discriminate; injection Hj as <-; eauto 10|]);
    (split; [intros docs' doc' Hd Hl Hf Ha; try discriminate;
             injection Hd as <-; rewrite Hdoc in Hl; try discriminate;
             injection Hl as <-; try reflexivity; lia|]);
    (split; [discriminate|reflexivity]).
Qed.

(** [Chroma.get_stale] never raises; it returns only a document of the
    key younger than [max_stale_days], and deletes an older one. *)
Lemma chroma_get_stale_spec (now : Z) (endpoint : string)
    (max_stale_days : Z) (c : ChromaPersistentCache) :
  let id := Chroma._generate_cache_key h endpoint in
  exists r c',
    Chroma.get_stale h now endpoint max_stale_days c = (Val r, c') /\
    (forall j, r = Some j ->
       exists docs doc,
         collection c = Some docs /\ docs !! id = Some doc /\
         doc_json doc = j /\
         now - doc_timestamp doc < max_stale_days * 86400 /\
         collection c' = collection c) /\
    (forall docs doc,
       collection c = Some docs -> docs !! id = Some doc ->
       hd false (faults c) = false ->
       now - doc_timestamp doc < max_stale_days * 86400 ->
       r = Some (doc_json doc)) /\
    (forall docs doc,
       collection c = Some docs -> docs !! id = Some doc ->
       max_stale_days * 86400 <= now - doc_timestamp doc ->
       r = None /\
       (hd false (faults c) = false -> hd false (tl (faults c)) = false ->
        collection c' = Some (delete id docs))) /\
    (forall docs,
       collection c = Some docs -> docs !! id = None ->
       r = None /\ collection c' = collection c) /\
    (collection c = None -> c' = c /\ r = None) /\
    (is_Some (collection c) ->
     exists rest, store_log c' = store_log c ++ OpGet id :: rest).
Proof.
  cbv zeta.
  exists (match fst (Chroma.get_stale h now endpoint max_stale_days c) with
          | Val r => r
          | Exc _ => None
          end), (snd (Chroma.get_stale h now endpoint max_stale_days c)).
  destruct c as [[docs|] fl lg]; run_cache.
  2:{ repeat split; try discriminate. intros [? ?]. discriminate. }
  destruct fl as [|[] [|[] fl]]; cbn [hd tl];
    destruct (docs !! Chroma._generate_cache_key h endpoint)
      as [doc|] eqn:Hdoc;
    try destruct (now - doc_timestamp doc <? max_stale_days * 86400) eqn:Hage;
    cbn; (split; [reflexivity|]);
    try apply Z.ltb_lt in Hage; try apply Z.ltb_ge in Hage;
    (split; [intros j Hj; try discriminate; injection Hj as <-; eauto 10|]);
    (split; [intros docs' doc' Hd Hl Hf Ha; try discriminate;
             injection Hd as <-; rewrite Hdoc in Hl; try discriminate;
             injection Hl as <-; try reflexivity; lia|]);
    (split; [intros docs' doc' Hd Hl Ha; injection Hd as <-;
             rewrite Hdoc in Hl; try discriminate; injection Hl as <-;
             (split; [reflexivity || lia|]); intros; try discriminate;
             try reflexivity; lia|]);
    (split; [intros docs' Hd Hl; injection Hd as <-;
             rewrite Hdoc in Hl; try discriminate; split; reflexivity|]);
    (split; [discriminate|]);
    intros _; rewrite <- ?app_assoc; cbn; eexists; reflexivity.
Qed.

(** [Chroma.set] never raises; it stores the document unless the
    collection fails, and then nothing changes. *)
Lemma chroma_set_spec (now : Z) (endpoint : string) (data : pyval)
    (c : ChromaPersistentCache) :
  let id := Chroma._generate_cache_key h endpoint in
  let doc := {| doc_json := Chroma._make_serializable data;
                doc_endpoint := endpoint; doc_timestamp := now |} in
  exists c',
    Chroma.set h now endpoint data c = (Val tt, c') /\
    (forall docs,
       collection c = Some docs -> hd false (faults c) = false ->
       collection c' = Some (<[id := doc]> docs)) /\
    (hd false (faults c) = true -> collection c' = collection c) /\
    (collection c = None -> c' = c) /\
    (is_Some (collection c) -> store_log c' = store_log c ++ [OpUpsert id]) /\
    (exists rest, store_log c' = store_log c ++ rest).
Proof.
  cbv zeta. exists (snd (Chroma.set h now endpoint data c)).
  destruct c as [[docs|] fl lg]; run_cache.
  2:{ repeat split; try discriminate.
      - intros [? ?]. discriminate.
      - exists []. now rewrite app_nil_r. }
  destruct fl as [|[] fl]; cbn;
    (split; [reflexivity|]);
    (split; [intros docs' Hd Hf; try discriminate; injection Hd as <-;
             reflexivity|]);
    (split; [intros; try discriminate; reflexivity|]);
    (split; [discriminate|]); (split; [reflexivity|]);
    eexists; reflexivity.
Qed.

(** *** The cache manager *)

(** [CacheManager.set] never raises, whatever the persistent store does;
    it always writes the memory cache; it leaves the persistent store
    alone when [ttl <= 60]. *)
Lemma cache_set_spec (now : Z) (key : string) (data : pyval) (ttl : Z)
    (s : CacheManager) :
  let id := Chroma._generate_cache_key h key in
  let doc := {| doc_json := Chroma._make_serializable data;
                doc_endpoint := key; doc_timestamp := now |} in
  exists s',
    Cache.set h now key data ttl s = (Val tt, s') /\
    cache s' = <[key := (data, now, ttl)]> (cache s) /\
    (ttl <= 60 -> chroma_cache s' = chroma_cache s) /\
    (chroma_cache s = None -> chroma_cache s' = None) /\
    (forall c docs,
       60 < ttl -> chroma_cache s = Some c -> collection c = Some docs ->
       hd false (faults c) = false ->
       Cache.chroma_docs s' = <[id := doc]> docs /\
       Cache.chroma_log s' = Cache.chroma_log s ++ [OpUpsert id]) /\
    (forall c,
       60 < ttl -> chroma_cache s = Some c -> hd false (faults c) = true ->
       Cache.chroma_docs s' = Cache.chroma_docs s) /\
    (exists rest, Cache.chroma_log s' = Cache.chroma_log s ++ rest).
Proof.
  cbv zeta. exists (snd (Cache.set h now key data ttl s)).
  destruct s as [mem [c|]]; run_manager.
  2:{ repeat split; try discriminate. exists []. reflexivity. }
  destruct (60 <? ttl) eqn:Httl;
    [apply Z.ltb_lt in Httl|apply Z.ltb_ge in Httl].
  2:{ repeat split; try discriminate; try (intros; lia).
      exists []. cbn. now rewrite app_nil_r. }
  destruct (chroma_set_spec now key (Cache.to_dict data) c)
    as (c' & Hrun & Hok & Hfault & _ & Hlog & Hext).
  cbv zeta in Hok, Hlog. cbn [cache chroma_cache]. rewrite Hrun. cbn.
  split; [reflexivity|]. split; [reflexivity|]. split; [intros; lia|].
  split; [discriminate|]. split; [|split].
  - intros c0 docs _ Hc Hdocs Hf. injection Hc as <-.
    rewrite (Hok docs Hdocs Hf). cbn.
    rewrite Hlog by (rewrite Hdocs; eauto).
    destruct data; split; reflexivity.
  - intros c0 _ Hc Hf. injection Hc as <-. now rewrite (Hfault Hf).
  - exact Hext.
Qed.

(** [CacheManager.get] never raises. An unexpired memory entry is
    returned as it is, without a look at the persistent store. Otherwise
    the persistent store is read: a true document of the key younger than
    one hour is returned and written back to the memory cache for 300
    (and from there to the persistent store), and in every other case
    nothing is returned and the memory cache is left as it is. *)
Lemma cache_get_spec (now : Z) (key : string) (s : CacheManager) :
  let id := Chroma._generate_cache_key h key in
  exists r s',
    Cache.get h now key s = (Val r, s') /\
    (forall d, Cache.fresh_entry now key s = Some d -> r = Some d /\ s' = s) /\
    (Cache.fresh_entry now key s = None ->
     (chroma_cache s = None -> r = None /\ s' = s) /\
     (forall v, r = Some v ->
        exists c docs doc,
          chroma_cache s = Some c /\ collection c = Some docs /\
          docs !! id = Some doc /\ v = PJson (doc_json doc) /\
          json_truthy (doc_json doc) = true /\
          now - doc_timestamp doc < 3600 /\
          cache s' = <[key := (v, now, 300)]> (cache s)) /\
     (r = None -> cache s' = cache s) /\
     (forall c docs doc,
        chroma_cache s = Some c -> collection c = Some docs ->
        docs !! id = Some doc -> hd false (faults c) = false ->
        now - doc_timestamp doc < 3600 ->
        json_truthy (doc_json doc) = true ->
        r = Some (PJson (doc_json doc))) /\
     (forall c,
        chroma_cache s = Some c -> is_Some (collection c) ->
        exists rest, Cache.chroma_log s' = store_log c ++ OpGet id :: rest)).
Proof.
  cbv zeta.
  unfold Cache.get, Cache.get_self, Cache.on_chroma.
  unfold mbind, M_bind, bind, ret.
  destruct (Cache.fresh_entry now key s) as [d|] eqn:Hfresh.
  { exists (Some d), s. split; [reflexivity|]. split; [|discriminate].
    intros d' Hd. injection Hd as <-. split; reflexivity. }
  destruct s as [mem [c|]]; cbn [is_some chroma_cache cache].
  2:{ exists None, {| cache := mem; chroma_cache := None |}.
      split; [reflexivity|]. split; [discriminate|]. intros _.
      repeat split; try discriminate. }
  destruct (chroma_get_spec now key 1 c)
    as (r0 & c1 & Hrun & Hcoll & Hsome & Hfound & _ & Hlog).
  cbv zeta in Hsome, Hfound, Hlog. rewrite Hrun.
  assert (forall c0, Some c = Some c0 -> is_Some (collection c0) ->
            store_log c1 = store_log c0 ++
              [OpGet (Chroma._generate_cache_key h key)]) as Hlog'.
  { intros c0 Hc Hs. injection Hc as <-. auto. }
  destruct r0 as [j|].
  2:{ exists None, {| cache := mem; chroma_cache := Some c1 |}.
      split; [reflexivity|]. split; [discriminate|]. intros _.
      split; [discriminate|]. split; [discriminate|].
      split; [reflexivity|]. split.
      - intros c0 docs doc Hc Hd Hl Hf Ha _. injection Hc as <-.
        assert (1 * 3600 = 3600) as H1 by lia.
        specialize (Hfound docs doc Hd Hl Hf). rewrite H1 in Hfound.
        specialize (Hfound Ha). discriminate Hfound.
      - intros c0 Hc Hs. exists []. now apply Hlog'. }
  destruct (Hsome j eq_refl) as (docs & doc & Hd & Hl & Hj & Ha).
  destruct (json_truthy j) eqn:Htrue.
  2:{ exists None, {| cache := mem; chroma_cache := Some c1 |}.
      split; [reflexivity|]. split; [discriminate|]. intros _.
      split; [discriminate|]. split; [discriminate|].
      split; [reflexivity|]. split.
      - intros c0 docs0 doc0 Hc Hd0 Hl0 Hf Ha0 Ht. injection Hc as <-.
        rewrite Hd in Hd0. injection Hd0 as <-. rewrite Hl in Hl0.
        injection Hl0 as <-. congruence.
      - intros c0 Hc Hs. exists []. now apply Hlog'. }
  destruct (cache_set_spec now key (PJson j) 300
              {| cache := mem; chroma_cache := Some c1 |})
    as (s2 & Hrun2 & Hmem2 & _ & _ & _ & _ & (rest & Hext)).
  rewrite Hrun2. cbn [cache] in Hmem2.
  exists (Some (PJson j)), s2.
  split; [reflexivity|]. split; [discriminate|]. intros _.
  split; [discriminate|]. split.
  { intros v Hv. injection Hv as <-. exists c, docs, doc.
    rewrite Hj. repeat split; try assumption; try lia. }
  split; [discriminate|]. split.
  - intros c0 docs0 doc0 Hc Hd0 Hl0 _ _ _. injection Hc as <-.
    rewrite Hd in Hd0. injection Hd0 as <-. rewrite Hl in Hl0.
    injection Hl0 as <-. now rewrite Hj.
  - intros c0 Hc Hs. rewrite Hext. cbn. rewrite (Hlog' c0 Hc Hs).
    rewrite <- app_assoc. cbn. eexists. reflexivity.
Qed.

(** [CacheManager.get_stale] never raises. A memory entry is returned
    whatever its age, and nothing changes. Without one, the persistent
    store is asked for a document younger than one day. *)
Lemma cache_get_stale_spec (now : Z) (key : string) (s : CacheManager) :
  let id := Chroma._generate_cache_key h key in
  exists r s',
    Cache.get_stale h now key s = (Val r, s') /\
    (forall d ts ttl,
       cache s !! key = Some (d, ts, ttl) -> r = Some d /\ s' = s) /\
    (cache s !! key = None ->
     cache s' = cache s /\
     (chroma_cache s = None -> r = None /\ s' = s) /\
     (forall v, r = Some v ->
        exists c docs doc,
          chroma_cache s = Some c /\ collection c = Some docs /\
          docs !! id = Some doc /\ v = PJson (doc_json doc) /\
          json_truthy (doc_json doc) = true /\
          now - doc_timestamp doc < 86400) /\
     (forall c,
        chroma_cache s = Some c -> is_Some (collection c) ->
        exists rest, Cache.chroma_log s' = store_log c ++ OpGet id :: rest)).
Proof.
  cbv zeta.
  unfold Cache.get_stale, Cache.get_self, Cache.on_chroma.
  unfold mbind, M_bind, bind, ret.
  destruct (cache s !! key) as [[[d ts] ttl]|] eqn:Hmem.
  { exists (Some d), s. split; [reflexivity|]. split; [|discriminate].
    intros d' ts' ttl' H. injection H as <- <- <-. split; reflexivity. }
  destruct s as [mem [c|]]; cbn [is_some chroma_cache cache].
  2:{ exists None, {| cache := mem; chroma_cache := None |}.
      split; [reflexivity|]. split; [discriminate|]. intros _.
      repeat split; try discriminate. }
  destruct (chroma_get_stale_spec now key 1 c)
    as (r0 & c1 & Hrun & Hsome & _ & _ & _ & _ & Hlog).
  cbv zeta in Hsome, Hlog. rewrite Hrun.
  assert (forall c0, Some c = Some c0 -> is_Some (collection c0) ->
            exists rest, store_log c1 = store_log c0 ++
              OpGet (Chroma._generate_cache_key h key) :: rest) as Hlog'.
  { intros c0 Hc Hs. injection Hc as <-. auto. }
  destruct r0 as [j|]; [destruct (json_truthy j) eqn:Htrue|].
  - exists (Some (PJson j)), {| cache := mem; chroma_cache := Some c1 |}.
    split; [reflexivity|]. split; [discriminate|]. intros _.
    split; [reflexivity|]. split; [discriminate|]. split; [|exact Hlog'].
    intros v Hv. injection Hv as <-.
    destruct (Hsome j eq_refl) as (docs & doc & Hd & Hl & Hj & Ha & _).
    exists c, docs, doc. rewrite Hj. repeat split; try assumption; lia.
  - exists None, {| cache := mem; chroma_cache := Some c1 |}.
    split; [reflexivity|]. split; [discriminate|]. intros _.
    split; [reflexivity|]. split; [discriminate|].
    split; [discriminate|exact Hlog'].
  - exists None, {| cache := mem; chroma_cache := Some c1 |}.
    split; [reflexivity|]. split; [discriminate|]. intros _.
    split; [reflexivity|]. split; [discriminate|].
    split; [discriminate|exact Hlog'].
Qed.



(** *** The claims about the two-tier cache *)


(** C3, amended. [ChromaPersistentCache.get_stale] never returns a
    document as old as [max_stale_days], and when it finds one that old it
    returns nothing and, the collection working, deletes it.
    [CacheManager.get_stale] has no bound for the memory cache: an entry
    of the key is returned whatever its age and nothing is deleted; only
    without one is the persistent store asked, with a bound of one day. *)
Theorem get_stale_bounds_persistent_tier_only (now : Z) (key : string) :
  (forall (max_stale_days : Z) (c : ChromaPersistentCache),
     exists r c',
       Chroma.get_stale h now key max_stale_days c = (Val r, c') /\
       (forall j, r = Some j ->
          exists docs doc,
            collection c = Some docs /\
            docs !! Chroma._generate_cache_key h key = Some doc /\
            doc_json doc = j /\
            now - doc_timestamp doc < max_stale_days * 86400) /\
       (forall docs doc,
          collection c = Some docs ->
          docs !! Chroma._generate_cache_key h key = Some doc ->
          max_stale_days * 86400 <= now - doc_timestamp doc ->
          r = None /\
          (hd false (faults c) = false ->
           hd false (tl (faults c)) = false ->
           collection c' =
             Some (delete (Chroma._generate_cache_key h key) docs)))) /\
  (forall s : CacheManager,
     exists r s',
       Cache.get_stale h now key s = (Val r, s') /\
       (forall d ts ttl,
          cache s !! key = Some (d, ts, ttl) -> r = Some d /\ s' = s) /\
       (cache s !! key = None ->
        cache s' = cache s /\
        forall v, r = Some v ->
          exists c docs doc,
            chroma_cache s = Some c /\ collection c = Some docs /\
            docs !! Chroma._generate_cache_key h key = Some doc /\
            v = PJson (doc_json doc) /\
            now - doc_timestamp doc < 86400)).
Proof.
  split.
  - intros max_stale_days c.
    destruct (chroma_get_stale_spec now key max_stale_days c)
      as (r & c' & Hrun & Hsome & _ & Hold & _).
    cbv zeta in Hsome, Hold. exists r, c'. split; [exact Hrun|]. split.
    + intros j Hj.
      destruct (Hsome j Hj) as (docs & doc & ? & ? & ? & ? & _). eauto 10.
    + exact Hold.
  - intros s.
    destruct (cache_get_stale_spec now key s)
      as (r & s' & Hrun & Hmem & Hmiss).
    cbv zeta in Hmiss. exists r, s'. split; [exact Hrun|].
    split; [exact Hmem|]. intros Hnone.
    destruct (Hmiss Hnone) as (Hcache & _ & Hsome & _).
    split; [exact Hcache|]. intros v Hv.
    destruct (Hsome v Hv) as (c & docs & doc & ? & ? & ? & ? & _ & ?).
    eauto 10.
Qed.

(** C8, amended. A fresh lookup that finds an unexpired memory entry does
    not touch the persistent store. Every other fresh lookup, and every
    stale lookup that finds no memory entry, reads the persistent store
    when there is one. *)
Theorem get_reads_store_only_without_fresh_entry (now : Z) (key : string)
    (s : CacheManager) :
  (forall d,
     Cache.fresh_entry now key s = Some d ->
     Cache.get h now key s = (Val (Some d), s)) /\
  (forall c,
     Cache.fresh_entry now key s = None ->
     chroma_cache s = Some c -> is_Some (collection c) ->
     exists rest,
       Cache.chroma_log (snd (Cache.get h now key s)) =
       Cache.chroma_log s ++
       OpGet (Chroma._generate_cache_key h key) :: rest) /\
  (forall d ts ttl,
     cache s !! key = Some (d, ts, ttl) ->
     Cache.get_stale h now key s = (Val (Some d), s)) /\
  (forall c,
     cache s !! key = None ->
     chroma_cache s = Some c -> is_Some (collection c) ->
     exists rest,
       Cache.chroma_log (snd (Cache.get_stale h now key s)) =
       Cache.chroma_log s ++
       OpGet (Chroma._generate_cache_key h key) :: rest).
Proof.
  destruct (cache_get_spec now key s) as (r & s1 & Hrun & Hhit & Hmiss).
  destruct (cache_get_stale_spec now key s)
    as (r' & s2 & Hrun' & Hmem & Hmiss').
  cbv zeta in Hmiss, Hmiss'. rewrite Hrun, Hrun'. cbn [snd].
  split; [|split; [|split]].
  - intros d Hd. now destruct (Hhit d Hd) as [-> ->].
  - intros c Hfresh Hc Hcoll.
    destruct (Hmiss Hfresh) as (_ & _ & _ & _ & Hlog).
    unfold Cache.chroma_log at 2. rewrite Hc. exact (Hlog c Hc Hcoll).
  - intros d ts ttl Hd. now destruct (Hmem d ts ttl Hd) as [-> ->].
  - intros c Hnone Hc Hcoll.
    destruct (Hmiss' Hnone) as (_ & _ & _ & Hlog).
    unfold Cache.chroma_log at 2. rewrite Hc. exact (Hlog c Hc Hcoll).
Qed.

(** C9. [set] always returns normally and always writes the memory cache.
    With [ttl <= 60] the persistent cache is left as it is. With
    [ttl > 60] and a working collection the document is stored; when the
    collection fails, the failure is swallowed and the documents are as
    before. *)
Theorem set_writes_memory_and_swallows_store_failure (now : Z)
    (key : string) (data : pyval) (ttl : Z) (s : CacheManager) :
  exists s',
    Cache.set h now key data ttl s = (Val tt, s') /\
    cache s' = <[key := (data, now, ttl)]> (cache s) /\
    (ttl <= 60 -> chroma_cache s' = chroma_cache s) /\
    (forall c docs,
       60 < ttl -> chroma_cache s = Some c -> collection c = Some docs ->
       hd false (faults c) = false ->
       Cache.chroma_docs s' =
         <[Chroma._generate_cache_key h key :=
             {| doc_json := Chroma._make_serializable data;
                doc_endpoint := key; doc_timestamp := now |}]> docs) /\
    (forall c,
       60 < ttl -> chroma_cache s = Some c -> hd false (faults c) = true ->
       Cache.chroma_docs s' = Cache.chroma_docs s).
Proof.
  destruct (cache_set_spec now key data ttl s)
    as (s' & Hrun & Hmem & Hshort & _ & Hok & Hfault & _).
  cbv zeta in Hok. exists s'. split; [exact Hrun|]. split; [exact Hmem|].
  split; [exact Hshort|]. split; [|exact Hfault].
  intros c docs Httl Hc Hd Hf. now destruct (Hok c docs Httl Hc Hd Hf).
Qed.

End CacheFacts.

(** *** The cache claims on concrete states *)

Section CacheExamples.
Local Open Scope Z_scope.



(** C3 as stated fails: [get_stale] returns a memory entry that is ten
    days old, and keeps it. *)
Lemma get_stale_returns_old_memory_entry :
  ~ (forall h : string -> string, Cache.get_stale_bounded h).
Proof.
  intros H.
  destruct (H Cache.plain_digest 864000 "k" Cache.memory_only_manager
              Cache.empty_gainers 0 600) as [Hnone _].
  - vm_compute. reflexivity.
  - lia.
  - vm_compute in Hnone. discriminate.
Qed.

Lemma get_stale_bounds_persistent_tier_only_witness :
  (exists c',
     Chroma.get_stale Cache.plain_digest 864000 "k" 7 Cache.old_store
       = (Val None, c') /\
     collection c' = Some ∅) /\
  Cache.get_stale Cache.plain_digest 864000 "k" Cache.memory_only_manager
    = (Val (Some Cache.empty_gainers), Cache.memory_only_manager).
Proof.
  destruct (get_stale_bounds_persistent_tier_only Cache.plain_digest
              864000 "k") as [Hstore Hmanager].
  split.
  - destruct (Hstore 7 Cache.old_store) as (r & c' & Hrun & _ & Hold).
    edestruct Hold as [-> Hdel].
    + reflexivity.
    + vm_compute. reflexivity.
    + cbn. lia.
    + exists c'. split; [exact Hrun|].
      rewrite Hdel by reflexivity. reflexivity.
  - destruct (Hmanager Cache.memory_only_manager)
      as (r & s' & Hrun & Hmem & _).
    destruct (Hmem Cache.empty_gainers 0 600) as [-> ->].
    + vm_compute. reflexivity.
    + exact Hrun.
Defined.

(** C8 as stated fails: on a miss, [get] reads the persistent store. *)
Lemma get_reads_store_on_miss :
  ~ (forall h : string -> string, Cache.get_never_reads_store h).
Proof.
  intros H.
  specialize (H Cache.plain_digest 0 "k" Cache.fresh_manager).
  vm_compute in H. discriminate.
Qed.

Lemma get_reads_store_only_without_fresh_entry_witness :
  Cache.get Cache.plain_digest 100 "k" Cache.warmed_manager
    = (Val (Some Cache.empty_gainers), Cache.warmed_manager) /\
  exists rest,
    Cache.chroma_log
      (snd (Cache.get Cache.plain_digest 0 "k" Cache.fresh_manager))
    = OpGet "k:{}" :: rest.
Proof.
  split.
  - destruct (get_reads_store_only_without_fresh_entry Cache.plain_digest
                100 "k" Cache.warmed_manager) as (Hhit & _).
    apply Hhit. vm_compute. reflexivity.
  - destruct (get_reads_store_only_without_fresh_entry Cache.plain_digest
                0 "k" Cache.fresh_manager) as (_ & Hmiss & _).
    destruct (Hmiss {| collection := Some ∅; faults := [];
                       store_log := [] |}) as (rest & Hlog).
    + reflexivity.
    + reflexivity.
    + eexists. reflexivity.
    + exists rest. exact Hlog.
Defined.

Lemma set_writes_memory_and_swallows_store_failure_witness :
  (exists s',
     Cache.set Cache.plain_digest 0 "k" Cache.empty_gainers 600
       Cache.faulty_manager = (Val tt, s') /\
     cache s' !! "k" = Some (Cache.empty_gainers, 0, 600) /\
     Cache.chroma_docs s' = ∅) /\
  (exists s',
     Cache.set Cache.plain_digest 0 "k" Cache.empty_gainers 60
       Cache.fresh_manager = (Val tt, s') /\
     chroma_cache s' = chroma_cache Cache.fresh_manager).
Proof.
  split.
  - destruct (set_writes_memory_and_swallows_store_failure
                Cache.plain_digest 0 "k" Cache.empty_gainers 600
                Cache.faulty_manager)
      as (s' & Hrun & Hmem & _ & _ & Hfault).
    exists s'. split; [exact Hrun|]. split.
    + rewrite Hmem. apply lookup_insert_eq.
    + rewrite (Hfault {| collection := Some ∅; faults := [true];
                         store_log := [] |}); [reflexivity|lia| |];
        reflexivity.
  - destruct (set_writes_memory_and_swallows_store_failure
                Cache.plain_digest 0 "k" Cache.empty_gainers 60
                Cache.fresh_manager)
      as (s' & Hrun & _ & Hshort & _).
    exists s'. split; [exact Hrun|]. apply Hshort. lia.
Defined.

End CacheExamples.

(** *** The top-gainers endpoint *)

Section EndpointFacts.
Local Open Scope Z_scope.

Variable h : string -> string.
Variable build : json -> result pyval.

(** Reading the clock from the endpoint. *)
Lemma app_time_spec (a : App) :
  let t := Mcp.clock (world a) + Z.of_nat (hd 0%nat (Mcp.delays (world a))) in
  exists a',
    Endpoint.on_world Mcp.time_time a = (Val t, a') /\
    Mcp.clock (world a') = t /\
    cache_manager a' = cache_manager a /\
    Mcp.calls (world a') = Mcp.calls (world a) /\
    Mcp.upstream (world a') = Mcp.upstream (world a).
Proof.
  destruct a as [[m c ds ups n rec sl] cm]. cbv zeta.
  eexists. split; [reflexivity|]. cbn. repeat split.
Qed.

Lemma app_cache_set_spec (key : string) (data : pyval) (ttl : Z) (a : App) :
  exists t a',
    Endpoint.cache_set h key data ttl a = (Val tt, a') /\
    cache (cache_manager a') =
      <[key := (data, t, ttl)]> (cache (cache_manager a)) /\
    (ttl <= 60 ->
     chroma_cache (cache_manager a') = chroma_cache (cache_manager a)) /\
    Mcp.clock (world a) <= t /\ t = Mcp.clock (world a') /\
    Mcp.calls (world a') = Mcp.calls (world a).
Proof.
  unfold Endpoint.cache_set. unfold mbind, M_bind, bind.
  destruct (app_time_spec a) as (a1 & Hrun & Hclk & Hcm & Hcalls & _).
  cbv zeta in Hrun, Hclk. rewrite Hrun.
  destruct (cache_set_spec h (Mcp.clock (world a) +
              Z.of_nat (hd 0%nat (Mcp.delays (world a)))) key data ttl
              (cache_manager a1))
    as (s' & Hset & Hmem & Hshort & _).
  unfold Endpoint.on_cache_manager. rewrite Hset.
  eexists _, _. split; [reflexivity|]. cbn. rewrite <- Hcm.
  split; [exact Hmem|]. split; [exact Hshort|].
  split; [lia|]. split; [now rewrite Hclk|exact Hcalls].
Qed.

Lemma app_cache_get_stale_spec (key : string) (a : App) :
  exists r a',
    Endpoint.cache_get_stale h key a = (Val r, a') /\
    cache (cache_manager a') = cache (cache_manager a) /\
    Mcp.calls (world a') = Mcp.calls (world a).
Proof.
  unfold Endpoint.cache_get_stale. unfold mbind, M_bind, bind.
  destruct (app_time_spec a) as (a1 & Hrun & Hclk & Hcm & Hcalls & _).
  cbv zeta in Hrun, Hclk. rewrite Hrun.
  destruct (cache_get_stale_spec h (Mcp.clock (world a) +
              Z.of_nat (hd 0%nat (Mcp.delays (world a)))) key
              (cache_manager a1))
    as (r & s' & Hget & Hhit & Hmiss).
  cbv zeta in Hmiss.
  unfold Endpoint.on_cache_manager. rewrite Hget.
  exists r, {| world := world a1; cache_manager := s' |}.
  split; [reflexivity|]. cbn. split; [|exact Hcalls]. rewrite <- Hcm.
  destruct (cache (cache_manager a1) !! key) as [[[d ts] ttl]|] eqn:Hmem.
  - now destruct (Hhit d ts ttl eq_refl) as [_ ->].
  - now destruct (Hmiss eq_refl) as [-> _].
Qed.




End EndpointFacts.

Section EndpointExamples.
Local Open Scope Z_scope.


End EndpointExamples.

(** *** The request coalescer *)

Module CoalescerFacts.
Import Coalescer.

Lemma lookup_set_pc (i j : nat) (p : pc) (cs : list caller) :
  set_pc i p cs !! j =
  if decide (i = j)
  then (fun c => {| key := key c; at_pc := p |}) <$> cs !! i
  else cs !! j.
Proof.
  unfold set_pc. destruct (cs !! i) as [c|] eqn:Hi.
  - destruct (decide (i = j)) as [->|Hne].
    + rewrite list_lookup_insert_eq; [reflexivity|].
      eapply lookup_lt_Some; eauto.
    + now rewrite list_lookup_insert_ne.
  - destruct (decide (i = j)) as [->|Hne]; [now rewrite Hi|reflexivity].
Qed.

Lemma length_set_pc (i : nat) (p : pc) (cs : list caller) :
  length (set_pc i p cs) = length cs.
Proof.
  unfold set_pc. destruct (cs !! i); [apply length_insert|reflexivity].
Qed.

Lemma sum_list_insert {A} (f : A -> nat) (l : list A) (i : nat) (x y : A) :
  l !! i = Some x ->
  sum_list (map f (<[i := y]> l)) + f x = sum_list (map f l) + f y.
Proof.
  revert i. induction l as [|z l IH]; intros [|i] H; simpl in *;
    try discriminate.
  - injection H as ->. clear IH. lia.
  - specialize (IH i H). lia.
Qed.

Lemma sum_entered_set_pc (cs : list caller) (i : nat) (c : caller) (p : pc) :
  cs !! i = Some c ->
  sum_list (map entered (set_pc i p cs)) + entered c =
  sum_list (map entered cs) + entered {| key := key c; at_pc := p |}.
Proof.
  intros H. unfold set_pc. rewrite H. now apply sum_list_insert.
Qed.

Lemma lock_of_put_lock (k k' : string) (l : Lock) (s : State) :
  lock_of k' (put_lock k l s) = if decide (k = k') then l else lock_of k' s.
Proof.
  unfold lock_of, put_lock. cbn.
  destruct (decide (k = k')) as [->|Hne].
  - now rewrite lookup_insert_eq.
  - now rewrite lookup_insert_ne.
Qed.

Lemma lock_of_same (k : string) (s s' : State) :
  _request_locks s' = _request_locks s -> lock_of k s' = lock_of k s.
Proof. unfold lock_of. now intros ->. Qed.

(** A free lock means that nobody is past it, and nothing is registered. *)
Lemma free_lock_no_owner (s : State) (k : string) :
  coal_inv s -> _locked (lock_of k s) = false ->
  (forall i c t, callers s !! i = Some c -> key c = k ->
                 at_pc c <> AwaitOwn t) /\
  _active_requests s !! k = None.
Proof.
  intros Hinv Hfree.
  assert (forall i c t, callers s !! i = Some c -> key c = k ->
                        at_pc c <> AwaitOwn t) as Hnone.
  { intros i c t Hc <- Hat.
    rewrite (ci_locked s Hinv i c t Hc Hat) in Hfree. discriminate. }
  split; [exact Hnone|].
  destruct (_active_requests s !! k) as [t|] eqn:Hact; [|reflexivity].
  destruct (ci_active s Hinv k t Hact) as (i & c & Hc & Hk & Hat).
  destruct (Hnone i c t Hc Hk Hat).
Qed.

(** A task that ends changes nothing for the callers. *)
Lemma step_complete_inv (t : nat) (s s' : State) :
  coal_inv s -> step_complete t s = Some s' -> coal_inv s'.
Proof.
  intros Hinv Hstep. unfold step_complete in Hstep.
  destruct (tasks s !! t) as [[r|]|] eqn:Ht; try discriminate.
  injection Hstep as <-.
  destruct Hinv as [H1 H2 H3 H4 H5 H6 H7 H8 H9 H10].
  constructor; cbn [callers _active_requests tasks]; try assumption.
  - intros t' Ht'.
    destruct (decide (t = t')) as [->|Hne].
    + rewrite list_lookup_insert_eq in Ht' by (eapply lookup_lt_Some; eauto).
      discriminate.
    + rewrite list_lookup_insert_ne in Ht' by assumption. auto.
  - unfold invocations in *. cbn. now rewrite length_insert.
Qed.

(** A caller that takes the free lock of its key, at once or as the woken
    waiter, starts a request of its own. *)
Lemma enter_inv (i : nat) (c : caller) (ws : list nat) (s : State) :
  coal_inv s -> callers s !! i = Some c ->
  _locked (lock_of (key c) s) = false ->
  (at_pc c = Start /\ _waiters (lock_of (key c) s) = [] /\ ws = []) \/
  (at_pc c = WaitLock true /\
   ws = List.filter (fun j => negb (Nat.eqb j i))
          (_waiters (lock_of (key c) s))) ->
  coal_inv (enter i (key c)
              (put_lock (key c) {| _locked := true; _waiters := ws |} s)).
Proof.
  intros Hinv Hi Hfree Hcase.
  destruct (free_lock_no_owner s (key c) Hinv Hfree) as [Hnone Hact].
  unfold enter, put_lock.
  cbn [_active_requests _request_locks tasks callers answers].
  rewrite Hact.
  set (t := length (tasks s)).
  assert (forall j, j <> i ->
            set_pc i (AwaitOwn t) (callers s) !! j = callers s !! j) as Hother.
  { intros j Hj. rewrite lookup_set_pc.
    destruct (decide (i = j)); [congruence|reflexivity]. }
  assert (set_pc i (AwaitOwn t) (callers s) !! i
          = Some {| key := key c; at_pc := AwaitOwn t |}) as Hself.
  { rewrite lookup_set_pc. destruct (decide (i = i)); [|congruence].
    now rewrite Hi. }
  assert (forall k',
            lock_of k' {| _request_locks :=
                            <[key c := {| _locked := true; _waiters := ws |}]>
                              (_request_locks s);
                          _active_requests := <[key c := t]> (_active_requests s);
                          tasks := tasks s ++ [None];
                          callers := set_pc i (AwaitOwn t) (callers s);
                          answers := answers s |}
            = if decide (key c = k')
              then {| _locked := true; _waiters := ws |}
              else lock_of k' s) as Hlock.
  { intros k'. unfold lock_of. cbn.
    destruct (decide (key c = k')) as [<-|Hne].
    - now rewrite lookup_insert_eq.
    - now rewrite lookup_insert_ne. }
  assert (forall p, at_pc c = p -> forall t', p <> AwaitOwn t') as Hnot_own.
  { intros p <- t' Hp. destruct Hcase as [(H & _)|(H & _)]; congruence. }
  assert (entered c = 0) as Hentered.
  { unfold entered. destruct Hcase as [(-> & _)|(-> & _)]; reflexivity. }
  constructor; cbn [callers _active_requests tasks]; try setoid_rewrite Hlock.
  - (* ci_no_shared *)
    intros j cj t' Hj. destruct (decide (j = i)) as [->|Hne].
    + rewrite Hself in Hj. injection Hj as <-. discriminate.
    + rewrite Hother in Hj by assumption. eapply ci_no_shared; eauto.
  - (* ci_locked *)
    intros j cj t' Hj Hat. destruct (decide (key c = key cj)); [reflexivity|].
    destruct (decide (j = i)) as [->|Hne].
    + rewrite Hself in Hj. injection Hj as <-. cbn in *. congruence.
    + rewrite Hother in Hj by assumption. eapply ci_locked; eauto.
  - (* ci_mutex *)
    intros j1 j2 c1 c2 t1 t2 H1 H2 Hk Ht1 Ht2.
    destruct (decide (j1 = i)) as [->|Hne1];
      destruct (decide (j2 = i)) as [->|Hne2]; try reflexivity.
    + rewrite Hself in H1. injection H1 as <-. cbn in Hk.
      rewrite Hother in H2 by assumption.
      destruct (Hnone j2 c2 t2 H2 (eq_sym Hk) Ht2).
    + rewrite Hself in H2. injection H2 as <-. cbn in Hk.
      rewrite Hother in H1 by assumption.
      destruct (Hnone j1 c1 t1 H1 Hk Ht1).
    + rewrite Hother in H1, H2 by assumption. eapply ci_mutex; eauto.
  - (* ci_active *)
    intros k' t' Hk'. destruct (decide (key c = k')) as [<-|Hne].
    + rewrite lookup_insert_eq in Hk'. injection Hk' as <-.
      exists i, {| key := key c; at_pc := AwaitOwn t |}. now repeat split.
    + rewrite lookup_insert_ne in Hk' by assumption.
      destruct (ci_active s Hinv k' t' Hk') as (j & cj & Hj & Hkj & Hat).
      exists j, cj. rewrite Hother; [now repeat split|].
      intros ->. rewrite Hi in Hj. injection Hj as <-. congruence.
  - (* ci_waiting *)
    intros j cj b Hj Hat. destruct (decide (j = i)) as [->|Hne].
    { rewrite Hself in Hj. injection Hj as <-. discriminate. }
    rewrite Hother in Hj by assumption.
    pose proof (ci_waiting s Hinv j cj b Hj Hat) as Hin.
    destruct (decide (key c = key cj)) as [Hk|Hk]; [|exact Hin].
    rewrite <- Hk in Hin. cbn.
    destruct Hcase as [(_ & Hempty & ->)|(_ & ->)].
    + now rewrite Hempty in Hin.
    + apply list_elem_of_In, List.filter_In. split.
      * now apply list_elem_of_In.
      * apply negb_true_iff, Nat.eqb_neq. exact Hne.
  - (* ci_waiters *)
    intros k' j Hin. destruct (decide (key c = k')) as [<-|Hne].
    + cbn in Hin. destruct Hcase as [(_ & _ & ->)|(_ & ->)].
      { now apply elem_of_nil in Hin. }
      apply list_elem_of_In, List.filter_In in Hin as [Hin Hji].
      apply negb_true_iff, Nat.eqb_neq in Hji.
      apply list_elem_of_In in Hin.
      rewrite Hother by assumption. eapply ci_waiters; eauto.
    + destruct (ci_waiters s Hinv k' j Hin) as (cj & b & Hj & Hkj & Hat).
      exists cj, b. rewrite Hother; [now repeat split|].
      intros ->. rewrite Hi in Hj. injection Hj as <-. congruence.
  - (* ci_woken *)
    intros j cj Hj Hat. destruct (decide (j = i)) as [->|Hne].
    { rewrite Hself in Hj. injection Hj as <-. discriminate. }
    rewrite Hother in Hj by assumption.
    destruct (decide (key c = key cj)) as [Hk|Hk];
      [|eapply ci_woken; eauto].
    exfalso. destruct Hcase as [(_ & Hempty & _)|(Hw & _)].
    + pose proof (ci_waiting s Hinv j cj true Hj Hat) as Hin.
      rewrite <- Hk, Hempty in Hin. now apply elem_of_nil in Hin.
    + apply Hne. symmetry. eapply (ci_woken_one s Hinv i j c cj); eauto.
  - (* ci_woken_one *)
    intros j1 j2 c1 c2 H1 H2 Hk Ht1 Ht2.
    destruct (decide (j1 = i)) as [->|Hne1].
    { rewrite Hself in H1. injection H1 as <-. discriminate. }
    destruct (decide (j2 = i)) as [->|Hne2].
    { rewrite Hself in H2. injection H2 as <-. discriminate. }
    rewrite Hother in H1, H2 by assumption. eapply ci_woken_one; eauto.
  - (* ci_running *)
    intros t' Ht'.
    destruct (decide (t' < length (tasks s))) as [Hlt|Hge].
    + rewrite lookup_app_l in Ht' by assumption.
      destruct (ci_running s Hinv t' Ht') as (j & cj & Hj & Hat).
      exists j, cj. rewrite Hother; [now split|].
      intros ->. rewrite Hi in Hj. injection Hj as <-.
      now apply (Hnot_own _ eq_refl t').
    + apply lookup_lt_Some in Ht' as Hlt. rewrite length_app in Hlt.
      cbn in Hlt. assert (t' = t) as -> by (unfold t; lia).
      exists i, {| key := key c; at_pc := AwaitOwn t |}. now split.
  - (* ci_count *)
    unfold invocations. cbn. rewrite length_app. cbn.
    pose proof (sum_entered_set_pc (callers s) i c (AwaitOwn t) Hi) as Hsum.
    rewrite Hentered in Hsum. cbn in Hsum.
    pose proof (ci_count s Hinv) as Hcount. unfold invocations in Hcount.
    lia.
Qed.

(** A caller that finds the lock of its key taken, or waited for, joins
    the waiters. *)
Lemma wait_inv (i : nat) (c : caller) (s : State) :
  coal_inv s -> callers s !! i = Some c -> at_pc c = Start ->
  coal_inv (wait_for_lock i
              (put_lock (key c)
                 {| _locked := _locked (lock_of (key c) s);
                    _waiters := _waiters (lock_of (key c) s) ++ [i] |} s)).
Proof.
  intros Hinv Hi Hstart.
  unfold wait_for_lock, put_lock.
  cbn [_active_requests _request_locks tasks callers answers].
  assert (forall j, j <> i ->
            set_pc i (WaitLock false) (callers s) !! j = callers s !! j)
    as Hother.
  { intros j Hj. rewrite lookup_set_pc.
    destruct (decide (i = j)); [congruence|reflexivity]. }
  assert (set_pc i (WaitLock false) (callers s) !! i
          = Some {| key := key c; at_pc := WaitLock false |}) as Hself.
  { rewrite lookup_set_pc. destruct (decide (i = i)); [|congruence].
    now rewrite Hi. }
  assert (forall k',
            lock_of k'
              {| _request_locks :=
                   <[key c := {| _locked := _locked (lock_of (key c) s);
                                 _waiters :=
                                   _waiters (lock_of (key c) s) ++ [i] |}]>
                     (_request_locks s);
                 _active_requests := _active_requests s;
                 tasks := tasks s;
                 callers := set_pc i (WaitLock false) (callers s);
                 answers := answers s |}
            = if decide (key c = k')
              then {| _locked := _locked (lock_of (key c) s);
                      _waiters := _waiters (lock_of (key c) s) ++ [i] |}
              else lock_of k' s) as Hlock.
  { intros k'. unfold lock_of. cbn.
    destruct (decide (key c = k')) as [<-|Hne].
    - now rewrite lookup_insert_eq.
    - now rewrite lookup_insert_ne. }
  assert (forall j cj, callers s !! j = Some cj ->
            at_pc cj <> Start -> j <> i) as Hdiff.
  { intros j cj Hj Hat ->. rewrite Hi in Hj. injection Hj as <-. congruence. }
  constructor; cbn [callers _active_requests tasks]; try setoid_rewrite Hlock.
  - (* ci_no_shared *)
    intros j cj t' Hj. destruct (decide (j = i)) as [->|Hne].
    + rewrite Hself in Hj. injection Hj as <-. discriminate.
    + rewrite Hother in Hj by assumption. eapply ci_no_shared; eauto.
  - (* ci_locked *)
    intros j cj t' Hj Hat. destruct (decide (j = i)) as [->|Hne].
    { rewrite Hself in Hj. injection Hj as <-. discriminate. }
    rewrite Hother in Hj by assumption.
    pose proof (ci_locked s Hinv j cj t' Hj Hat) as Hl.
    destruct (decide (key c = key cj)) as [->|]; exact Hl.
  - (* ci_mutex *)
    intros j1 j2 c1 c2 t1 t2 H1 H2 Hk Ht1 Ht2.
    destruct (decide (j1 = i)) as [->|Hne1].
    { rewrite Hself in H1. injection H1 as <-. discriminate. }
    destruct (decide (j2 = i)) as [->|Hne2].
    { rewrite Hself in H2. injection H2 as <-. discriminate. }
    rewrite Hother in H1, H2 by assumption. eapply ci_mutex; eauto.
  - (* ci_active *)
    intros k' t' Hk'.
    destruct (ci_active s Hinv k' t' Hk') as (j & cj & Hj & Hkj & Hat).
    exists j, cj. rewrite Hother; [now repeat split|].
    eapply Hdiff; eauto. congruence.
  - (* ci_waiting *)
    intros j cj b Hj Hat. destruct (decide (j = i)) as [->|Hne].
    { rewrite Hself in Hj. injection Hj as <-. cbn.
      destruct (decide (key c = key c)); [|congruence].
      cbn. apply elem_of_app. right. apply list_elem_of_singleton.
      reflexivity. }
    rewrite Hother in Hj by assumption.
    pose proof (ci_waiting s Hinv j cj b Hj Hat) as Hin.
    destruct (decide (key c = key cj)) as [Hk|Hk]; [|exact Hin].
    cbn. apply elem_of_app. left. now rewrite Hk.
  - (* ci_waiters *)
    intros k' j Hin. destruct (decide (key c = k')) as [<-|Hne].
    + cbn in Hin. apply elem_of_app in Hin as [Hin|Hin].
      * destruct (ci_waiters s Hinv (key c) j Hin) as (cj & b & Hj & Hkj & Hat).
        exists cj, b. rewrite Hother; [now repeat split|].
        eapply Hdiff; eauto. congruence.
      * apply list_elem_of_singleton in Hin as ->.
        exists {| key := key c; at_pc := WaitLock false |}, false.
        now repeat split.
    + destruct (ci_waiters s Hinv k' j Hin) as (cj & b & Hj & Hkj & Hat).
      exists cj, b. rewrite Hother; [now repeat split|].
      eapply Hdiff; eauto. congruence.
  - (* ci_woken *)
    intros j cj Hj Hat. destruct (decide (j = i)) as [->|Hne].
    { rewrite Hself in Hj. injection Hj as <-. discriminate. }
    rewrite Hother in Hj by assumption.
    pose proof (ci_woken s Hinv j cj Hj Hat) as Hl.
    destruct (decide (key c = key cj)) as [->|]; exact Hl.
  - (* ci_woken_one *)
    intros j1 j2 c1 c2 H1 H2 Hk Ht1 Ht2.
    destruct (decide (j1 = i)) as [->|Hne1].
    { rewrite Hself in H1. injection H1 as <-. discriminate. }
    destruct (decide (j2 = i)) as [->|Hne2].
    { rewrite Hself in H2. injection H2 as <-. discriminate. }
    rewrite Hother in H1, H2 by assumption. eapply ci_woken_one; eauto.
  - (* ci_running *)
    intros t' Ht'.
    destruct (ci_running s Hinv t' Ht') as (j & cj & Hj & Hat).
    exists j, cj. rewrite Hother; [now split|].
    eapply Hdiff; eauto. congruence.
  - (* ci_count *)
    unfold invocations. cbn.
    pose proof (sum_entered_set_pc (callers s) i c (WaitLock false) Hi)
      as Hsum.
    assert (entered c = 0) as He by (unfold entered; now rewrite Hstart).
    rewrite He in Hsum.
    change (entered {| key := key c; at_pc := WaitLock false |}) with 0
      in Hsum.
    pose proof (ci_count s Hinv) as Hcount. unfold invocations in Hcount.
    lia.
Qed.

(** The callers after [i] has returned [r] and released the lock [l]. *)
Lemma release_callers (i : nat) (r : result pyval) (l : Lock) (s : State)
    (c : caller) :
  coal_inv s -> callers s !! i = Some c -> l = lock_of (key c) s ->
  (exists t, at_pc c = AwaitOwn t) ->
  let cs' := match _waiters l with
             | w :: _ =>
               set_pc w (WaitLock true) (set_pc i (Returned r) (callers s))
             | [] => set_pc i (Returned r) (callers s)
             end in
  cs' !! i = Some {| key := key c; at_pc := Returned r |} /\
  (forall j, j <> i -> head (_waiters l) = Some j ->
     exists cj b,
       callers s !! j = Some cj /\ key cj = key c /\ at_pc cj = WaitLock b /\
       cs' !! j = Some {| key := cj.(key); at_pc := WaitLock true |}) /\
  (forall j, j <> i -> head (_waiters l) <> Some j ->
     cs' !! j = callers s !! j) /\
  (forall j, head (_waiters l) = Some j -> j <> i).
Proof.
  intros Hinv Hi -> [t Hat]. cbv zeta.
  assert (forall j, head (_waiters (lock_of (key c) s)) = Some j ->
            exists cj b, callers s !! j = Some cj /\ key cj = key c /\
                         at_pc cj = WaitLock b) as Hhead.
  { intros j Hj. apply (ci_waiters s Hinv).
    destruct (_waiters (lock_of (key c) s)) as [|w ws]; [discriminate|].
    injection Hj as ->. apply list_elem_of_here. }
  assert (forall j, head (_waiters (lock_of (key c) s)) = Some j -> j <> i)
    as Hne.
  { intros j Hj ->. destruct (Hhead i Hj) as (cj & b & Hcj & _ & Hb).
    rewrite Hi in Hcj. injection Hcj as <-. congruence. }
  destruct (_waiters (lock_of (key c) s)) as [|w ws]; cbn [head] in *.
  - split; [|split; [|split]].
    + rewrite lookup_set_pc. destruct (decide (i = i)); [|congruence].
      now rewrite Hi.
    + discriminate.
    + intros j Hj _. rewrite lookup_set_pc.
      destruct (decide (i = j)); [congruence|reflexivity].
    + discriminate.
  - specialize (Hne w eq_refl).
    destruct (Hhead w eq_refl) as (cw & b & Hcw & Hkw & Hb).
    split; [|split; [|split]].
    + rewrite lookup_set_pc. destruct (decide (w = i)); [congruence|].
      rewrite lookup_set_pc. destruct (decide (i = i)); [|congruence].
      now rewrite Hi.
    + intros j Hj Hw. injection Hw as ->. exists cw, b.
      repeat split; try assumption.
      rewrite lookup_set_pc. destruct (decide (j = j)); [|congruence].
      rewrite lookup_set_pc. destruct (decide (i = j)); [congruence|].
      now rewrite Hcw.
    + intros j Hj Hw. rewrite lookup_set_pc.
      destruct (decide (w = j)); [congruence|].
      rewrite lookup_set_pc.
      destruct (decide (i = j)); [congruence|reflexivity].
    + intros j Hw. injection Hw as <-. exact Hne.
Qed.

Lemma release_state (i : nat) (r : result pyval) (k : string) (s : State) :
  release k (clean_up k (finish i r s)) =
  {| _request_locks :=
       <[k := {| _locked := false; _waiters := _waiters (lock_of k s) |}]>
         (_request_locks s);
     _active_requests := delete k (_active_requests s);
     tasks := tasks s;
     callers :=
       match _waiters (lock_of k s) with
       | w :: _ =>
         set_pc w (WaitLock true) (set_pc i (Returned r) (callers s))
       | [] => set_pc i (Returned r) (callers s)
       end;
     answers := answers s |}.
Proof.
  unfold release, clean_up, finish, put_lock, lock_of. cbn.
  destruct (_waiters (default {| _locked := false; _waiters := [] |}
                        (_request_locks s !! k))); reflexivity.
Qed.

(** A caller whose own task is done cleans up, frees the lock and wakes
    the first waiter. *)
Lemma release_inv (i : nat) (c : caller) (t : nat) (r : result pyval)
    (s : State) :
  coal_inv s -> callers s !! i = Some c -> at_pc c = AwaitOwn t ->
  tasks s !! t = Some (Some r) ->
  coal_inv (release (key c) (clean_up (key c) (finish i r s))).
Proof.
  intros Hinv Hi Hat Hdone. rewrite release_state.
  destruct (release_callers i r (lock_of (key c) s) s c Hinv Hi eq_refl
              (ex_intro _ t Hat)) as (Hself & Hwoken & Hother & Hhead_ne).
  set (l := lock_of (key c) s) in *.
  set (cs' := match _waiters l with
              | w :: _ =>
                set_pc w (WaitLock true) (set_pc i (Returned r) (callers s))
              | [] => set_pc i (Returned r) (callers s)
              end) in *.
  assert (_locked l = true) as Hlocked by (eapply ci_locked; eauto).
  assert (forall j cj, callers s !! j = Some cj -> key cj = key c ->
            at_pc cj <> WaitLock true) as Hnowoken.
  { intros j cj Hj Hk Hw. pose proof (ci_woken s Hinv j cj Hj Hw) as Hf.
    rewrite Hk in Hf. fold l in Hf. congruence. }
  assert (forall k',
            lock_of k'
              {| _request_locks :=
                   <[key c := {| _locked := false; _waiters := _waiters l |}]>
                     (_request_locks s);
                 _active_requests := delete (key c) (_active_requests s);
                 tasks := tasks s; callers := cs'; answers := answers s |}
            = if decide (key c = k')
              then {| _locked := false; _waiters := _waiters l |}
              else lock_of k' s) as Hlock.
  { intros k'. unfold lock_of. cbn.
    destruct (decide (key c = k')) as [<-|Hne].
    - now rewrite lookup_insert_eq.
    - now rewrite lookup_insert_ne. }
  (* every caller of the new state comes from one of the old state *)
  assert (forall j cj', cs' !! j = Some cj' ->
            (j = i /\ cj' = {| key := key c; at_pc := Returned r |}) \/
            (j <> i /\ head (_waiters l) = Some j /\ key cj' = key c /\
             at_pc cj' = WaitLock true) \/
            (j <> i /\ head (_waiters l) <> Some j /\
             callers s !! j = Some cj')) as Hcases.
  { intros j cj' Hj. destruct (decide (j = i)) as [->|Hji].
    - left. rewrite Hself in Hj. injection Hj as <-. now split.
    - right. destruct (decide (head (_waiters l) = Some j)) as [Hh|Hh].
      + left. destruct (Hwoken j Hji Hh) as (cj & b & _ & Hk & _ & Hj').
        rewrite Hj' in Hj. injection Hj as <-. cbn. now repeat split.
      + right. rewrite (Hother j Hji Hh) in Hj. now repeat split. }
  (* a caller that was not waiting is as before, unless it is [i] *)
  assert (forall j cj, callers s !! j = Some cj -> j <> i ->
            (forall b, at_pc cj <> WaitLock b) -> cs' !! j = Some cj)
    as Hkeep.
  { intros j cj Hj Hji Hnw. rewrite Hother; [exact Hj|exact Hji|].
    intros Hh. destruct (Hwoken j Hji Hh) as (cj0 & b & Hj0 & _ & Hb & _).
    rewrite Hj in Hj0. injection Hj0 as <-. exact (Hnw b Hb). }
  constructor; cbn [callers _active_requests tasks]; try setoid_rewrite Hlock.
  - (* ci_no_shared *)
    intros j cj t' Hj.
    destruct (Hcases j cj Hj) as [(_ & ->)|[(_ & _ & _ & ->)|(_ & _ & Hold)]];
      try discriminate.
    eapply ci_no_shared; eauto.
  - (* ci_locked *)
    intros j cj t' Hj Hown.
    destruct (Hcases j cj Hj) as [(_ & ->)|[(_ & _ & _ & Hw)|(Hji & _ & Hold)]];
      try discriminate; try congruence.
    destruct (decide (key c = key cj)) as [Hk|Hk].
    + destruct Hji. symmetry.
      eapply (ci_mutex s Hinv i j c cj); eauto.
    + eapply ci_locked; eauto.
  - (* ci_mutex *)
    intros j1 j2 c1 c2 t1 t2 H1 H2 Hk Ht1 Ht2.
    destruct (Hcases j1 c1 H1)
      as [(_ & ->)|[(_ & _ & _ & Hw1)|(_ & _ & Hold1)]];
      try discriminate; try congruence.
    destruct (Hcases j2 c2 H2)
      as [(_ & ->)|[(_ & _ & _ & Hw2)|(_ & _ & Hold2)]];
      try discriminate; try congruence.
    eapply ci_mutex; eauto.
  - (* ci_active *)
    intros k' t' Hk'. destruct (decide (key c = k')) as [<-|Hne].
    { rewrite lookup_delete_eq in Hk'. discriminate. }
    rewrite lookup_delete_ne in Hk' by assumption.
    destruct (ci_active s Hinv k' t' Hk') as (j & cj & Hj & Hkj & Hown).
    exists j, cj. split; [|now split]. apply Hkeep; [exact Hj| |congruence].
    intros ->. rewrite Hi in Hj. injection Hj as <-. congruence.
  - (* ci_waiting *)
    intros j cj b Hj Hb.
    destruct (Hcases j cj Hj)
      as [(_ & ->)|[(_ & Hh & Hk & _)|(_ & _ & Hold)]]; try discriminate.
    + destruct (decide (key c = key cj)) as [_|Hne]; [|congruence].
      cbn. destruct (_waiters l) as [|w ws]; [discriminate|].
      injection Hh as ->. apply list_elem_of_here.
    + pose proof (ci_waiting s Hinv j cj b Hold Hb) as Hin.
      destruct (decide (key c = key cj)) as [Hk|_]; [|exact Hin].
      cbn. unfold l. now rewrite Hk.
  - (* ci_waiters *)
    intros k' j Hin.
    assert (j ∈ _waiters (lock_of k' s)) as Hin'.
    { destruct (decide (key c = k')) as [<-|_]; exact Hin. }
    destruct (ci_waiters s Hinv k' j Hin') as (cj & b & Hj & Hkj & Hb).
    assert (j <> i) as Hji.
    { intros ->. rewrite Hi in Hj. injection Hj as <-. congruence. }
    destruct (decide (head (_waiters l) = Some j)) as [Hh|Hh].
    + destruct (Hwoken j Hji Hh) as (cj0 & b0 & Hj0 & _ & _ & Hj').
      rewrite Hj in Hj0. injection Hj0 as <-.
      exists {| key := key cj; at_pc := WaitLock true |}, true.
      now repeat split.
    + exists cj, b. rewrite (Hother j Hji Hh). now repeat split.
  - (* ci_woken *)
    intros j cj Hj Hw.
    destruct (Hcases j cj Hj)
      as [(_ & ->)|[(_ & _ & Hk & _)|(_ & _ & Hold)]]; try discriminate.
    + destruct (decide (key c = key cj)); [reflexivity|congruence].
    + destruct (decide (key c = key cj)) as [Hk|_].
      * destruct (Hnowoken j cj Hold (eq_sym Hk) Hw).
      * eapply ci_woken; eauto.
  - (* ci_woken_one *)
    intros j1 j2 c1 c2 H1 H2 Hk Hw1 Hw2.
    destruct (Hcases j1 c1 H1)
      as [(_ & ->)|[(_ & Hh1 & Hk1 & _)|(_ & _ & Hold1)]]; try discriminate;
    destruct (Hcases j2 c2 H2)
      as [(_ & ->)|[(_ & Hh2 & Hk2 & _)|(_ & _ & Hold2)]]; try discriminate.
    + congruence.
    + destruct (Hnowoken j2 c2 Hold2); congruence.
    + destruct (Hnowoken j1 c1 Hold1); congruence.
    + eapply ci_woken_one; eauto.
  - (* ci_running *)
    intros t' Ht'.
    destruct (ci_running s Hinv t' Ht') as (j & cj & Hj & Hown).
    exists j, cj. split; [|exact Hown]. apply Hkeep; [exact Hj| |congruence].
    intros ->. rewrite Hi in Hj. injection Hj as <-.
    assert (t' = t) as -> by congruence. congruence.
  - (* ci_count *)
    unfold invocations. cbn.
    pose proof (ci_count s Hinv) as Hcount. unfold invocations in Hcount.
    pose proof (sum_entered_set_pc (callers s) i c (Returned r) Hi) as Hsum.
    assert (entered c = 1) as He by (unfold entered; now rewrite Hat).
    rewrite He in Hsum.
    change (entered {| key := key c; at_pc := Returned r |}) with 1 in Hsum.
    unfold cs'. destruct (_waiters l) as [|w ws] eqn:Hws; [lia|].
    destruct (Hwoken w (Hhead_ne w eq_refl) eq_refl)
      as (cw & b & Hcw & _ & Hb & _).
    assert (set_pc i (Returned r) (callers s) !! w = Some cw) as Hcw'.
    { rewrite lookup_set_pc.
      destruct (decide (i = w)) as [->|_]; [|exact Hcw].
      destruct (Hhead_ne w eq_refl eq_refl). }
    pose proof (sum_entered_set_pc _ w cw (WaitLock true) Hcw') as Hsum'.
    assert (entered cw = 0) as Hew by (unfold entered; now rewrite Hb).
    rewrite Hew in Hsum'.
    change (entered {| key := key cw; at_pc := WaitLock true |}) with 0
      in Hsum'.
    lia.
Qed.

(** Every step of a caller keeps the invariant. *)
Lemma step_caller_inv (i : nat) (s s' : State) :
  coal_inv s -> step_caller i s = Some s' -> coal_inv s'.
Proof.
  intros Hinv Hstep. unfold step_caller in Hstep.
  destruct (callers s !! i) as [c|] eqn:Hi; [|discriminate].
  cbv zeta in Hstep.
  destruct (at_pc c) as [|[|]|t|t|r] eqn:Hat; try discriminate.
  - (* Start *)
    destruct (negb (_locked (lock_of (key c) s)) &&
              bool_decide (_waiters (lock_of (key c) s) = [])) eqn:Hfast;
      injection Hstep as <-.
    + apply andb_true_iff in Hfast as [Hfree Hempty].
      apply negb_true_iff in Hfree. apply bool_decide_eq_true in Hempty.
      rewrite Hempty. apply enter_inv; [assumption..|].
      left. now repeat split.
    + now apply wait_inv.
  - (* woken in [acquire] *)
    injection Hstep as <-.
    apply enter_inv; [assumption|assumption| |right; now split].
    eapply ci_woken; eauto.
  - (* nobody is ever here *)
    destruct (ci_no_shared s Hinv i c t Hi Hat).
  - (* the own task *)
    destruct (tasks s !! t) as [[r|]|] eqn:Ht; try discriminate.
    injection Hstep as <-. eapply release_inv; eauto.
Qed.

Lemma step_inv (e : event) (s s' : State) :
  coal_inv s -> step e s = Some s' ->
  coal_inv s' /\ length (callers s') = length (callers s).
Proof.
  intros Hinv Hstep. split.
  - destruct e as [i|t]; cbn in Hstep.
    + eapply step_caller_inv; eauto.
    + eapply step_complete_inv; eauto.
  - destruct e as [i|t]; cbn in Hstep.
    + unfold step_caller in Hstep.
      destruct (callers s !! i) as [c|]; [|discriminate].
      cbv zeta in Hstep.
      destruct (at_pc c) as [|[|]|t|t|r]; try discriminate.
      * destruct (_ && _); injection Hstep as <-;
          unfold enter, wait_for_lock, put_lock; cbn;
          try destruct (_active_requests s !! key c); cbn;
          apply length_set_pc.
      * injection Hstep as <-. unfold enter, put_lock. cbn.
        destruct (_active_requests s !! key c); cbn; apply length_set_pc.
      * destruct (tasks s !! t) as [[r|]|]; try discriminate.
        injection Hstep as <-. unfold release, finish, put_lock. cbn.
        destruct (_waiters _); cbn; rewrite ?length_set_pc; reflexivity.
      * destruct (tasks s !! t) as [[r|]|]; try discriminate.
        injection Hstep as <-. rewrite release_state. cbn.
        destruct (_waiters _); cbn; rewrite ?length_set_pc; reflexivity.
    + unfold step_complete in Hstep.
      destruct (tasks s !! t) as [[r|]|]; try discriminate.
      now injection Hstep as <-.
Qed.

Lemma run_inv (schedule : list event) :
  forall s s' : State,
    coal_inv s -> run schedule s = Some s' ->
    coal_inv s' /\ length (callers s') = length (callers s).
Proof.
  induction schedule as [|e rest IH]; intros s s' Hinv Hrun; cbn in Hrun.
  - injection Hrun as <-. now split.
  - destruct (step e s) as [s1|] eqn:Hstep; [|discriminate].
    destruct (step_inv e s s1 Hinv Hstep) as [Hinv1 Hlen1].
    destruct (IH s1 s' Hinv1 Hrun) as [Hinv' Hlen']. split; [assumption|].
    congruence.
Qed.

Lemma initial_inv (ks : list string) (ans : list (result pyval)) :
  coal_inv (initial ks ans).
Proof.
  assert (forall i c,
            map (fun k => {| key := k; at_pc := Start |}) ks !! i = Some c ->
            at_pc c = Start) as Hstart.
  { intros i c Hc. change (map ?f ks) with (f <$> ks) in Hc.
    rewrite list_lookup_fmap in Hc.
    destruct (ks !! i); [|discriminate]. now injection Hc as <-. }
  constructor; cbn [initial callers _active_requests tasks].
  - intros i c t Hc Hat. rewrite (Hstart i c Hc) in Hat. discriminate.
  - intros i c t Hc Hat. rewrite (Hstart i c Hc) in Hat. discriminate.
  - intros i j ci cj ti tj Hi _ _ Hat. rewrite (Hstart i ci Hi) in Hat.
    discriminate.
  - intros k t Hk. rewrite lookup_empty in Hk. discriminate.
  - intros j c b Hc Hat. rewrite (Hstart j c Hc) in Hat. discriminate.
  - intros k j Hin. unfold lock_of in Hin. cbn in Hin.
    rewrite lookup_empty in Hin. cbn in Hin. now apply elem_of_nil in Hin.
  - intros j c Hc Hat. rewrite (Hstart j c Hc) in Hat. discriminate.
  - intros i j ci cj Hi _ _ Hat. rewrite (Hstart i ci Hi) in Hat.
    discriminate.
  - intros t Ht. rewrite lookup_nil in Ht. discriminate.
  - unfold invocations. cbn. induction ks as [|k ks IH]; cbn; [reflexivity|].
    apply IH. intros i c Hc. apply (Hstart (S i) c). exact Hc.
Qed.

Lemma sum_entered_returned (cs : list caller) :
  Forall returned cs -> sum_list (map entered cs) = length cs.
Proof.
  induction 1 as [|c cs Hc _ IH]; cbn; [reflexivity|].
  rewrite IH. unfold returned in Hc. unfold entered.
  destruct (at_pc c); try destruct Hc. reflexivity.
Qed.

(** C1. In every state that the scheduler can reach from callers that all
    entered [debounced_request] before any of them ran: two running tasks
    awaited under the lock of the same key are one task, so at most one
    request per key is underway; and once all callers have returned,
    [request_func] has been invoked once for each caller, whatever their
    keys: the branch that awaits the request in progress is never taken,
    because the lock is held until the request is no longer registered. *)
Theorem every_caller_invokes_request_func (ks : list string)
    (ans : list (result pyval)) (schedule : list event) (s : State) :
  run schedule (initial ks ans) = Some s ->
  (forall i j ci cj ti tj,
     callers s !! i = Some ci -> callers s !! j = Some cj ->
     key ci = key cj ->
     at_pc ci = AwaitOwn ti -> at_pc cj = AwaitOwn tj -> ti = tj) /\
  (forall t, tasks s !! t = Some None ->
     exists i c, callers s !! i = Some c /\ at_pc c = AwaitOwn t) /\
  (forall i c t, callers s !! i = Some c -> at_pc c <> AwaitActive t) /\
  (Forall returned (callers s) -> invocations s = length ks).
Proof.
  intros Hrun.
  destruct (run_inv schedule _ _ (initial_inv ks ans) Hrun) as [Hinv Hlen].
  split; [|split; [|split]].
  - intros i j ci cj ti tj Hi Hj Hk Hti Htj.
    assert (i = j) as -> by (eapply (ci_mutex s Hinv); eauto).
    congruence.
  - exact (ci_running s Hinv).
  - exact (ci_no_shared s Hinv).
  - intros Hall. rewrite (ci_count s Hinv), (sum_entered_returned _ Hall).
    rewrite Hlen. cbn. apply length_map.
Qed.

(** Two simultaneous requests for one key: two invocations, two results. *)
Lemma every_caller_invokes_request_func_witness :
  exists s,
    run one_after_the_other two_callers = Some s /\
    invocations s = 2 /\
    map at_pc (callers s) =
      [Returned (Val (PJson (JNum 1))); Returned (Val (PJson (JNum 2)))].
Proof.
  destruct (run one_after_the_other two_callers) as [s|] eqn:Hrun;
    [|vm_compute in Hrun; discriminate].
  exists s. split; [reflexivity|].
  destruct (every_caller_invokes_request_func
              ["global_market_data"; "global_market_data"]
              [Val (PJson (JNum 1)); Val (PJson (JNum 2))]
              one_after_the_other s Hrun) as (_ & _ & _ & Hall).
  vm_compute in Hrun. injection Hrun as <-. split.
  - apply Hall. repeat constructor.
  - reflexivity.
Defined.

(** The coalescer does not coalesce. *)
Lemma two_callers_are_not_coalesced : ~ coalesces.
Proof.
  intros H.
  specialize (H "global_market_data" 1
                [Val (PJson (JNum 1)); Val (PJson (JNum 2))]
                one_after_the_other).
  destruct (run one_after_the_other
              (initial (repeat "global_market_data" 2)
                 [Val (PJson (JNum 1)); Val (PJson (JNum 2))]))
    as [s|] eqn:Hrun; [|vm_compute in Hrun; discriminate].
  destruct (H s eq_refl) as [Hone _].
  - vm_compute in Hrun. injection Hrun as <-. repeat constructor.
  - vm_compute in Hrun. injection Hrun as <-. discriminate Hone.
Qed.

End CoalescerFacts.

(* ================================================================== *)
(** * Part III: further properties *)
(* ================================================================== *)

Module RetryFacts.
Import Mcp McpFacts.
Local Open Scope Z_scope.

Lemma Forall_tl {A} (P : A -> Prop) (l : list A) :
  Forall P l -> Forall P (tl l).
Proof. intros H. destruct H; [constructor|assumption]. Qed.

Lemma conf_frame_refl (w : World) : conf_frame w w.
Proof. repeat split; auto. Qed.

Lemma conf_frame_trans (w1 w2 w3 : World) :
  conf_frame w1 w2 -> conf_frame w2 w3 -> conf_frame w1 w3.
Proof.
  intros (H1 & H2 & H3) (H4 & H5 & H6). repeat split; try congruence. auto.
Qed.

Ltac solve_conf :=
  unfold conf_frame; cbn; repeat split; try reflexivity;
  intros P HP; repeat apply Forall_tl; exact HP.

Lemma tick_conf (w : World) : conf_frame w (snd (tick w)).
Proof. destruct w. run_monad. solve_conf. Qed.

Lemma time_time_run (w : World) :
  exists w', time_time w = (Val (clock w'), w') /\ quiet w w' /\
    mgr w' = mgr w /\ conf_frame w w'.
Proof.
  destruct w. run_monad. eexists (mkWorld _ _ _ _ _ _ _).
  split; [reflexivity|].
  split; [solve_quiet|]. split; [reflexivity|solve_conf].
Qed.

Lemma check_conf (w : World) : conf_frame w (snd (_check_circuit_breaker w)).
Proof.
  destruct w as [m c ds ups n rec sl]. run_monad.
  destruct (_circuit_breaker_open m); [destruct (_ <? _)|]; solve_conf.
Qed.

Lemma wait_conf (w : World) : conf_frame w (snd (_wait_for_rate_limit w)).
Proof.
  destruct w as [m c ds ups n rec sl]. run_monad.
  set (now := c + Z.of_nat (hd 0%nat ds)).
  set (queue := List.filter (fun t => now - t <? 60) (_request_queue m)).
  destruct (_max_requests_per_minute m <=? length queue)%nat;
    [destruct queue as [|oldest rest];
     [|destruct (0 <? 60 - (now - oldest) + 10)]|];
    try solve_conf;
    destruct (now - _last_request_time m <? _request_delay m); solve_conf.
Qed.

Lemma attempt_conf (tool_name : string) (params : list (string * json))
    (w : World) :
  conf_frame w (snd (attempt_body tool_name params w)).
Proof.
  pose proof (wait_conf w) as H.
  unfold attempt_body. unfold mbind at 1, M_bind at 1, bind at 1.
  destruct (_wait_for_rate_limit w) as [[[]|e] w1]; cbn [snd] in H |- *;
    [|exact H].
  eapply conf_frame_trans; [exact H|]. clear H.
  destruct w1 as [m c ds ups n rec sl]. run_monad.
  destruct (hd (Failure "connection closed") ups); [|solve_conf].
  run_monad. destruct (_circuit_breaker_open m); solve_conf.
Qed.

Lemma on_exception_conf (max_retries attempt c429 : Z) (e : string)
    (w : World) :
  conf_frame w (snd (on_exception max_retries attempt c429 e w)).
Proof.
  destruct w as [m c ds ups n rec sl]. run_monad.
  destruct (is_rate_limited e); [destruct (2 <=? c429 + 1)|
    destruct (is_transient e); [|destruct (attempt <? max_retries - 1)]];
    solve_conf.
Qed.

Lemma retry_loop_conf (tool_name : string) (params : list (string * json))
    (max_retries : Z) (remaining : nat) :
  forall (attempt c429 : Z) (w : World),
    conf_frame w
      (snd (retry_loop tool_name params max_retries remaining attempt c429 w)).
Proof.
  induction remaining as [|remaining IH]; intros attempt c429 w.
  - apply conf_frame_refl.
  - cbn [retry_loop]. unfold mbind at 1, M_bind at 1, bind at 1.
    unfold try_except.
    pose proof (attempt_conf tool_name params w) as H1.
    destruct (attempt_body tool_name params w) as [[ctl|e] w1];
      cbn [snd] in H1.
    + destruct ctl as [r|c]; [exact H1|].
      eapply conf_frame_trans; [exact H1|apply IH].
    + pose proof (on_exception_conf max_retries attempt c429 e w1) as H2.
      destruct (on_exception max_retries attempt c429 e w1) as [[ctl|e'] w2];
        cbn [snd] in H2.
      * destruct ctl as [r|c].
        -- eapply conf_frame_trans; eassumption.
        -- eapply conf_frame_trans; [exact H1|].
           eapply conf_frame_trans; [exact H2|apply IH].
      * eapply conf_frame_trans; eassumption.
Qed.

Lemma call_conf (tool_name : string) (params : list (string * json))
    (max_retries : Z) (w : World) :
  conf_frame w (snd (call_tool_with_retry tool_name params max_retries w)).
Proof.
  unfold call_tool_with_retry. unfold mbind at 1, M_bind at 1, bind at 1.
  pose proof (check_conf w) as H1.
  destruct (check_circuit_breaker_spec w) as (b & w1 & Hrun1 & _).
  rewrite Hrun1 in H1 |- *. cbn [snd] in H1.
  destruct b; [exact H1|].
  unfold mbind at 1, M_bind at 1, bind at 1.
  pose proof (tick_conf w1) as H2.
  destruct (tick_spec w1) as (w2 & Hrun2 & _).
  rewrite Hrun2 in H2 |- *. cbn [snd] in H2.
  eapply conf_frame_trans; [exact H1|].
  eapply conf_frame_trans; [exact H2|apply retry_loop_conf].
Qed.

(** A closed breaker answers "closed". *)
Lemma check_of_closed (w : World) :
  _circuit_breaker_open (mgr w) = false ->
  fst (_check_circuit_breaker w) = Val false.
Proof.
  destruct w as [m c ds ups n rec sl]. run_monad. intros ->. reflexivity.
Qed.

(** A breaker that was opened at the last reading of the clock answers
    "open" when the next delay is within the cooldown. *)
Lemma check_just_opened (w : World) :
  _circuit_breaker_open (mgr w) = true ->
  _circuit_breaker_opened_at (mgr w) = clock w ->
  0 <= _circuit_breaker_timeout (mgr w) ->
  Forall (fun d => Z.of_nat d <= _circuit_breaker_timeout (mgr w))
    (delays w) ->
  exists w', _check_circuit_breaker w = (Val true, w') /\ quiet w w' /\
    mgr w' = mgr w.
Proof.
  destruct w as [m c ds ups n rec sl]. run_monad.
  intros -> -> Hpos Hds.
  assert (Z.of_nat (hd 0%nat ds) <= _circuit_breaker_timeout m) as Hd.
  { destruct Hds; cbn; [lia|assumption]. }
  destruct (_ <? _) eqn:E; [apply Z.ltb_lt in E; lia|].
  eexists. split; [reflexivity|]. split; [solve_quiet|reflexivity].
Qed.

(** A check that answers "closed" leaves the breaker closed. *)
Lemma check_closed_spec (w : World) :
  fst (_check_circuit_breaker w) = Val false ->
  exists w',
    _check_circuit_breaker w = (Val false, w') /\ quiet w w' /\
    _circuit_breaker_open (mgr w') = false.
Proof.
  destruct w as [m c ds ups n rec sl]. run_monad.
  destruct (_circuit_breaker_open m) eqn:Hopen;
    [destruct (_ <? _)|]; cbn; intros H; try discriminate;
    eexists; (split; [reflexivity|]); (split; [solve_quiet|]); cbn;
    [reflexivity|exact Hopen].
Qed.

(** An attempt with a working rate limiter: one upstream invocation, whose
    outcome is the outcome of the attempt; a success closes the breaker. *)
Lemma attempt_body_run (tool_name : string) (params : list (string * json))
    (w : World) :
  _max_requests_per_minute (mgr w) <> 0%nat ->
  exists w',
    attempt_body tool_name params w =
      (match hd (Failure "connection closed") (upstream w) with
       | Success data => Val (Return (Some data))
       | Failure e => Exc e
       end, w') /\
    upstream w' = tl (upstream w) /\ calls w' = S (calls w) /\
    _max_requests_per_minute (mgr w') = _max_requests_per_minute (mgr w) /\
    _circuit_breaker_open (mgr w') =
      match hd (Failure "connection closed") (upstream w) with
      | Success _ => false
      | Failure _ => _circuit_breaker_open (mgr w)
      end.
Proof.
  intros Hmax.
  destruct (wait_for_rate_limit_spec w)
    as [(now & t1 & w1 & Hrun & _ & Hmgr & Hup & Hcalls & _)
       |(e & w1 & _ & Hzero & _)]; [|contradiction].
  unfold attempt_body. unfold mbind at 1, M_bind at 1, bind at 1.
  rewrite Hrun. cbv zeta in Hmgr.
  destruct w1 as [m1 c1 ds1 ups1 n1 rec1 sl1]. cbn in Hup, Hcalls, Hmgr.
  subst ups1 n1 m1. run_monad.
  destruct (hd (Failure "connection closed") (upstream w)) as [data|e].
  - run_monad. destruct (_circuit_breaker_open (mgr w)); eexists;
      (split; [reflexivity|]); cbn; repeat split; reflexivity.
  - eexists; (split; [reflexivity|]); cbn; repeat split; reflexivity.
Qed.

Lemma on_exception_frame (max_retries attempt c429 : Z) (e : string)
    (w : World) :
  exists ctl w',
    on_exception max_retries attempt c429 e w = (Val ctl, w') /\
    upstream w' = upstream w /\ calls w' = calls w /\
    _max_requests_per_minute (mgr w') = _max_requests_per_minute (mgr w) /\
    (is_rate_limited e = true -> 2 <= c429 + 1 ->
     ctl = Return None /\ _circuit_breaker_open (mgr w') = true /\
     _circuit_breaker_opened_at (mgr w') = clock w') /\
    (is_rate_limited e = true -> c429 + 1 < 2 ->
     ctl = Next (c429 + 1) /\ mgr w' = mgr w) /\
    (is_rate_limited e = false -> ctl = Next c429 /\ mgr w' = mgr w).
Proof.
  destruct (on_exception_spec max_retries attempt c429 e w)
    as (ctl & w' & Hrun & (Hfr & Hup & Hcalls) & _).
  destruct (on_exception_cases max_retries attempt c429 e w)
    as (ctl' & w'' & Hrun' & _ & Hopen & Hrl & Htr & Hother & Hlast).
  rewrite Hrun in Hrun'. injection Hrun' as <- <-.
  exists ctl, w'. split; [exact Hrun|]. split; [exact Hup|].
  split; [exact Hcalls|]. split; [apply Hfr|]. split; [|split].
  - intros H1 H2. destruct (Hopen H1 H2) as (? & ? & ? & _). auto.
  - intros H1 H2. destruct (Hrl H1 H2) as (? & ? & _). auto.
  - intros Hno. destruct (is_transient e) eqn:Et.
    + destruct (Htr Hno eq_refl) as (? & ? & _). auto.
    + destruct (Z.lt_ge_cases attempt (max_retries - 1)) as [Hlt|Hge].
      * destruct (Hother Hno eq_refl Hlt) as (? & ? & _). auto.
      * destruct (Hlast Hno eq_refl Hge) as (? & ->). auto.
Qed.

(** The retry loop through failures [es] that do not open the breaker. *)
Lemma retry_loop_failures (tool_name : string) (params : list (string * json))
    (max_retries : Z) (es : list string) :
  forall (remaining : nat) (attempt c429 : Z) (w : World)
         (rest : list outcome),
    _max_requests_per_minute (mgr w) <> 0%nat ->
    upstream w = (Failure <$> es) ++ rest ->
    (length es <= remaining)%nat ->
    c429 + count_429 es < 2 ->
    exists w1,
      retry_loop tool_name params max_retries remaining attempt c429 w =
      retry_loop tool_name params max_retries (remaining - length es)
        (attempt + Z.of_nat (length es)) (c429 + count_429 es) w1 /\
      upstream w1 = rest /\ calls w1 = (calls w + length es)%nat /\
      _max_requests_per_minute (mgr w1) = _max_requests_per_minute (mgr w) /\
      _circuit_breaker_open (mgr w1) = _circuit_breaker_open (mgr w).
Proof.
  induction es as [|e es IH]; intros remaining attempt c429 w rest
    Hmax Hup Hlen Hcount.
  - exists w. cbn. unfold count_429. cbn.
    rewrite Nat.sub_0_r, !Z.add_0_r, Nat.add_0_r. auto.
  - cbn [length] in Hlen. destruct remaining as [|remaining]; [lia|].
    cbn [retry_loop]. unfold mbind at 1, M_bind at 1, bind at 1.
    unfold try_except.
    destruct (attempt_body_run tool_name params w Hmax)
      as (w1 & Hrun1 & Hup1 & Hcalls1 & Hmax1 & Hopen1).
    rewrite Hup in Hrun1, Hup1, Hopen1. cbn in Hrun1, Hup1, Hopen1.
    rewrite Hrun1.
    destruct (on_exception_frame max_retries attempt c429 e w1)
      as (ctl & w2 & Hrun2 & Hup2 & Hcalls2 & Hmax2 & _ & Hrl & Hno).
    rewrite Hrun2.
    assert (count_429 (e :: es) =
            (if is_rate_limited e then 1 else 0) + count_429 es) as Hc.
    { unfold count_429. cbn. destruct (is_rate_limited e); cbn; lia. }
    assert (0 <= count_429 es) as Hpos by (unfold count_429; lia).
    assert (exists c', ctl = Next c' /\ mgr w2 = mgr w1 /\
              c' + count_429 es = c429 + count_429 (e :: es))
      as (c' & -> & Hmgr2 & Hc').
    { rewrite Hc. destruct (is_rate_limited e) eqn:Erl.
      - destruct (Hrl eq_refl) as [-> ?]; [lia|]. eexists. repeat split; auto.
        lia.
      - destruct (Hno eq_refl) as [-> ?]. eexists. repeat split; auto. }
    destruct (IH remaining (attempt + 1) c' w2 rest) as
      (w3 & Hrun3 & Hup3 & Hcalls3 & Hmax3 & Hopen3).
    + congruence.
    + congruence.
    + lia.
    + lia.
    + exists w3. rewrite Hrun3. cbn [length].
      replace (S remaining - S (length es))%nat
        with (remaining - length es)%nat by lia.
      replace (attempt + 1 + Z.of_nat (length es))
        with (attempt + Z.of_nat (S (length es))) by lia.
      rewrite Hc'. split; [reflexivity|]. split; [exact Hup3|].
      split; [lia|]. split; [congruence|]. rewrite Hopen3, Hmgr2. exact Hopen1.
Qed.

(** The call up to the attempt that follows the failures [es]. *)
Lemma call_through_failures (tool_name : string)
    (params : list (string * json)) (max_retries : Z) (w : World)
    (es : list string) (rest : list outcome) :
  fst (_check_circuit_breaker w) = Val false ->
  _max_requests_per_minute (mgr w) <> 0%nat ->
  upstream w = (Failure <$> es) ++ rest ->
  (length es < Z.to_nat max_retries)%nat ->
  count_429 es < 2 ->
  exists w1 k,
    call_tool_with_retry tool_name params max_retries w =
    retry_loop tool_name params max_retries (S k)
      (Z.of_nat (length es)) (count_429 es) w1 /\
    upstream w1 = rest /\ calls w1 = (calls w + length es)%nat /\
    _max_requests_per_minute (mgr w1) <> 0%nat /\
    _circuit_breaker_open (mgr w1) = false.
Proof.
  intros Hcheck Hmax Hup Hlen Hcount.
  destruct (check_closed_spec w Hcheck)
    as (w1 & Hrun1 & (Hfr1 & Hup1 & Hcalls1) & Hopen1).
  unfold call_tool_with_retry. unfold mbind at 1, M_bind at 1, bind at 1.
  rewrite Hrun1. unfold mbind at 1, M_bind at 1, bind at 1.
  destruct (tick_spec w1) as (w2 & Hrun2 & (Hfr2 & Hup2 & Hcalls2) & Hmgr2 & _).
  rewrite Hrun2.
  assert (_max_requests_per_minute (mgr w2) = _max_requests_per_minute (mgr w))
    as Hmax2.
  { rewrite Hmgr2. apply Hfr1. }
  destruct (retry_loop_failures tool_name params max_retries es
              (Z.to_nat max_retries) 0 0 w2 rest)
    as (w3 & Hrun3 & Hup3 & Hcalls3 & Hmax3 & Hopen3).
  { congruence. }
  { congruence. }
  { lia. }
  { lia. }
  destruct (Z.to_nat max_retries - length es)%nat as [|k] eqn:Hk; [lia|].
  exists w3, k. rewrite Hrun3. rewrite !Z.add_0_l.
  split; [reflexivity|]. split; [exact Hup3|]. split; [lia|].
  split; [congruence|]. rewrite Hopen3, Hmgr2. exact Hopen1.
Qed.

Lemma call_run_success (tool_name : string)
    (params : list (string * json)) (max_retries : Z) (w : World)
    (es : list string) (d : json) (rest : list outcome) :
  fst (_check_circuit_breaker w) = Val false ->
  _max_requests_per_minute (mgr w) <> 0%nat ->
  upstream w = (Failure <$> es) ++ Success d :: rest ->
  (length es < Z.to_nat max_retries)%nat ->
  (length (List.filter is_rate_limited es) <= 1)%nat ->
  exists w',
    call_tool_with_retry tool_name params max_retries w = (Val (Some d), w') /\
    calls w' = (calls w + length es + 1)%nat /\
    upstream w' = rest /\
    _circuit_breaker_open (mgr w') = false.
Proof.
  intros Hcheck Hmax Hup Hlen Hcount.
  destruct (call_through_failures tool_name params max_retries w es
              (Success d :: rest) Hcheck Hmax Hup Hlen)
    as (w3 & k & Hrun3 & Hup3 & Hcalls3 & Hmax3 & Hopen3).
  { unfold count_429. lia. }
  rewrite Hrun3.
  cbn [retry_loop]. unfold mbind at 1, M_bind at 1, bind at 1.
  unfold try_except.
  destruct (attempt_body_run tool_name params w3 Hmax3)
    as (w4 & Hrun4 & Hup4 & Hcalls4 & Hmax4 & Hopen4).
  rewrite Hup3 in Hrun4, Hup4, Hopen4. cbn in Hrun4, Hup4, Hopen4.
  rewrite Hrun4. exists w4. split; [reflexivity|].
  split; [lia|]. split; assumption.
Qed.

Lemma call_run_breaker (tool_name : string)
    (params : list (string * json)) (max_retries : Z) (w : World)
    (es : list string) (e : string) (rest : list outcome) :
  fst (_check_circuit_breaker w) = Val false ->
  _max_requests_per_minute (mgr w) <> 0%nat ->
  upstream w = (Failure <$> es) ++ Failure e :: rest ->
  (length es < Z.to_nat max_retries)%nat ->
  length (List.filter is_rate_limited es) = 1%nat ->
  is_rate_limited e = true ->
  exists w',
    call_tool_with_retry tool_name params max_retries w = (Val None, w') /\
    calls w' = (calls w + length es + 1)%nat /\
    upstream w' = rest /\
    _circuit_breaker_open (mgr w') = true /\
    _circuit_breaker_opened_at (mgr w') = clock w'.
Proof.
  intros Hcheck Hmax Hup Hlen Hcount He.
  destruct (call_through_failures tool_name params max_retries w es
              (Failure e :: rest) Hcheck Hmax Hup Hlen)
    as (w3 & k & Hrun3 & Hup3 & Hcalls3 & Hmax3 & Hopen3).
  { unfold count_429. lia. }
  rewrite Hrun3.
  cbn [retry_loop]. unfold mbind at 1, M_bind at 1, bind at 1.
  unfold try_except.
  destruct (attempt_body_run tool_name params w3 Hmax3)
    as (w4 & Hrun4 & Hup4 & Hcalls4 & Hmax4 & Hopen4).
  rewrite Hup3 in Hrun4, Hup4, Hopen4. cbn in Hrun4, Hup4, Hopen4.
  rewrite Hrun4.
  destruct (on_exception_frame max_retries (Z.of_nat (length es))
              (count_429 es) e w4)
    as (ctl & w5 & Hrun5 & Hup5 & Hcalls5 & _ & Hopen5 & _).
  rewrite Hrun5.
  destruct (Hopen5 He) as (-> & Hflag & Hat); [unfold count_429; lia|].
  exists w5. split; [reflexivity|]. split; [lia|].
  split; [congruence|]. split; assumption.
Qed.

(** X1. [call_tool_with_retry] returns the data of the first upstream
    invocation that succeeds, when the failures before it are fewer than
    [max_retries] and at most one of them is a rate-limit failure: it
    has then made one invocation per failure and one more, and the breaker
    is closed. *)
Theorem retry_returns_first_success (tool_name : string)
    (params : list (string * json)) (max_retries : Z) (w : World)
    (es : list string) (d : json) (rest : list outcome) :
  fst (_check_circuit_breaker w) = Val false ->
  _max_requests_per_minute (mgr w) <> 0%nat ->
  upstream w = (Failure <$> es) ++ Success d :: rest ->
  (length es < Z.to_nat max_retries)%nat ->
  (length (List.filter is_rate_limited es) <= 1)%nat ->
  exists w',
    call_tool_with_retry tool_name params max_retries w = (Val (Some d), w') /\
    calls w' = (calls w + length es + 1)%nat /\
    upstream w' = rest /\
    _circuit_breaker_open (mgr w') = false.
Proof. apply call_run_success. Qed.

Lemma retry_returns_first_success_witness :
  exists w',
    call_tool_with_retry "get_global" [] 3
      (initial_world 1000 []
         [Failure "HTTP 429"; Failure "Read timeout"; Success (JNum 7)])
    = (Val (Some (JNum 7)), w') /\ calls w' = 3%nat.
Proof.
  destruct (retry_returns_first_success "get_global" [] 3
              (initial_world 1000 []
                 [Failure "HTTP 429"; Failure "Read timeout";
                  Success (JNum 7)])
              ["HTTP 429"; "Read timeout"] (JNum 7) [])
    as (w' & Hrun & Hcalls & _).
  - vm_compute. reflexivity.
  - cbn. lia.
  - reflexivity.
  - cbn. lia.
  - vm_compute. lia.
  - exists w'. split; [exact Hrun|exact Hcalls].
Defined.

(** X2. The counter of rate-limit failures is never reset within a call:
    the second rate-limit failure of a call opens the breaker and ends the
    call with [None], whatever other failures came between the two; no
    further attempt is made. *)
Theorem second_rate_limit_opens_breaker (tool_name : string)
    (params : list (string * json)) (max_retries : Z) (w : World)
    (es : list string) (e : string) (rest : list outcome) :
  fst (_check_circuit_breaker w) = Val false ->
  _max_requests_per_minute (mgr w) <> 0%nat ->
  upstream w = (Failure <$> es) ++ Failure e :: rest ->
  (length es < Z.to_nat max_retries)%nat ->
  length (List.filter is_rate_limited es) = 1%nat ->
  is_rate_limited e = true ->
  exists w',
    call_tool_with_retry tool_name params max_retries w = (Val None, w') /\
    calls w' = (calls w + length es + 1)%nat /\
    upstream w' = rest /\
    _circuit_breaker_open (mgr w') = true /\
    _circuit_breaker_opened_at (mgr w') = clock w'.
Proof. apply call_run_breaker. Qed.

Lemma second_rate_limit_opens_breaker_witness :
  exists w',
    call_tool_with_retry "get_global" [] 3
      (initial_world 1000 []
         [Failure "HTTP 429"; Failure "Read timeout"; Failure "429";
          Success (JNum 7)])
    = (Val None, w') /\
    upstream w' = [Success (JNum 7)] /\
    _circuit_breaker_open (mgr w') = true.
Proof.
  destruct (second_rate_limit_opens_breaker "get_global" [] 3
              (initial_world 1000 []
                 [Failure "HTTP 429"; Failure "Read timeout"; Failure "429";
                  Success (JNum 7)])
              ["HTTP 429"; "Read timeout"] "429" [Success (JNum 7)])
    as (w' & Hrun & _ & Hup & Hopen & _).
  - vm_compute. reflexivity.
  - cbn. lia.
  - reflexivity.
  - cbn. lia.
  - vm_compute. reflexivity.
  - vm_compute. reflexivity.
  - exists w'. split; [exact Hrun|]. split; [exact Hup|exact Hopen].
Defined.

End RetryFacts.

Module OhlcFacts.
Import Mcp McpFacts RetryFacts.
Local Open Scope Z_scope.

(** The rows of well-formed points, from row number [i] on. *)
Lemma ohlc_rows_points {St} (vols pts : list (json * json)) :
  forall (i : nat) (s : St),
  exists rows,
    ohlc_rows (JArr (point <$> vols)) i (point <$> pts) s = (Val rows, s) /\
    length rows = length pts /\
    forall k p, pts !! k = Some p ->
      rows !! k =
        Some (JArr [fst p; snd p; snd p; snd p; snd p;
                    default (JNum 0) (snd <$> vols !! (i + k)%nat)]).
Proof.
  induction pts as [|p pts IH]; intros i s.
  - exists []. split; [reflexivity|]. split; [reflexivity|].
    intros k p Hk. rewrite lookup_nil in Hk. discriminate.
  - destruct (IH (S i) s) as (rows & Hrun & Hlen & Hrows).
    exists (JArr [fst p; snd p; snd p; snd p; snd p;
                  default (JNum 0) (snd <$> vols !! i)] :: rows).
    split; [|split].
    + cbn [fmap list_fmap ohlc_rows].
      change (list_fmap _ _ point pts) with (point <$> pts).
      unfold mbind, M_bind, bind. cbn [unpack2 point items_of ret py_len].
      rewrite length_fmap.
      destruct (i <? length vols)%nat eqn:Hi.
      * apply Nat.ltb_lt in Hi.
        destruct (lookup_lt_is_Some_2 vols i Hi) as [v Hv].
        cbn [py_index]. rewrite list_lookup_fmap, Hv. cbn.
        fold (@fmap list _ _ _ point pts). rewrite Hrun. reflexivity.
      * apply Nat.ltb_ge in Hi. rewrite (lookup_ge_None_2 vols i Hi). cbn.
        fold (@fmap list _ _ _ point pts). rewrite Hrun. reflexivity.
    + cbn. now rewrite Hlen.
    + intros [|k] q Hk.
      * cbn in Hk. injection Hk as <-. rewrite Nat.add_0_r. reflexivity.
      * rewrite Nat.add_succ_r. exact (Hrows k q Hk).
Qed.

(** The conversion of a chart of well-formed points. *)
Lemma chart_to_ohlc_rows_run {St} (fields : list (string * json))
    (pts vols : list (json * json)) (s : St) :
  default (JArr []) (assoc "prices" fields) = JArr (point <$> pts) ->
  default (JArr []) (assoc "total_volumes" fields) = JArr (point <$> vols) ->
  exists rows,
    chart_to_ohlc (JObj fields) s = (Val (JArr rows), s) /\
    length rows = length pts /\
    forall k p, pts !! k = Some p ->
      rows !! k =
        Some (JArr [fst p; snd p; snd p; snd p; snd p;
                    default (JNum 0) (snd <$> vols !! k)]).
Proof.
  intros Hp Hv.
  destruct (ohlc_rows_points vols pts 0 s) as (rows & Hrun & Hlen & Hrows).
  exists rows. split; [|split; [exact Hlen|exact Hrows]].
  unfold chart_to_ohlc, py_get, mbind, M_bind, bind, ret.
  rewrite Hp, Hv. cbn [py_iter items_of ret]. unfold ret. rewrite Hrun.
  reflexivity.
Qed.

(** X3. The conversion of a market chart whose prices and volumes are
    lists of pairs: one row per price point, in order, with the price as
    open, high, low and close, and with the volume of the same rank, or 0
    when the volumes are fewer than the prices. *)
Theorem chart_to_ohlc_rows {St} (fields : list (string * json))
    (pts vols : list (json * json)) (s : St) :
  default (JArr []) (assoc "prices" fields) = JArr (point <$> pts) ->
  default (JArr []) (assoc "total_volumes" fields) = JArr (point <$> vols) ->
  exists rows,
    chart_to_ohlc (JObj fields) s = (Val (JArr rows), s) /\
    length rows = length pts /\
    forall k p, pts !! k = Some p ->
      rows !! k =
        Some (JArr [fst p; snd p; snd p; snd p; snd p;
                    default (JNum 0) (snd <$> vols !! k)]).
Proof. apply chart_to_ohlc_rows_run. Qed.

Lemma chart_to_ohlc_rows_witness :
  chart_to_ohlc sample_chart tt =
  (Val (JArr [JArr [JNum 10; JNum 5; JNum 5; JNum 5; JNum 5; JNum 900];
              JArr [JNum 20; JNum 6; JNum 6; JNum 6; JNum 6; JNum 0]]), tt).
Proof.
  destruct (chart_to_ohlc_rows
              [("prices", JArr [point (JNum 10, JNum 5);
                                point (JNum 20, JNum 6)]);
               ("total_volumes", JArr [point (JNum 10, JNum 900)])]
              [(JNum 10, JNum 5); (JNum 20, JNum 6)] [(JNum 10, JNum 900)] tt
              eq_refl eq_refl) as (rows & Hrun & Hlen & Hrows).
  pose proof (Hrows 0%nat _ eq_refl) as H0.
  pose proof (Hrows 1%nat _ eq_refl) as H1.
  destruct rows as [|r0 [|r1 [|r2 rows]]]; try discriminate Hlen.
  cbn in H0, H1. injection H0 as ->. injection H1 as ->. exact Hrun.
Defined.

(** The parameters of the two requests of [get_ohlc_data]. *)
Lemma get_ohlc_data_start (coin_id : string) (days : Z) (w : World) :
  exists w2 params,
    quiet w w2 /\ mgr w2 = mgr w /\ conf_frame w w2 /\
    get_ohlc_data coin_id days w =
    (ohlc_data ← call_tool_with_retry "get_range_coins_ohlc" params 3;
     if opt_truthy json_truthy ohlc_data then ret ohlc_data
     else
       chart_data ←
         call_tool_with_retry "get_range_coins_market_chart" params 3;
       match chart_data with
       | Some d =>
         if json_truthy d then
           ohlc_data ← chart_to_ohlc d;
           ret (Some ohlc_data)
         else ret None
       | None => ret None
       end) w2.
Proof.
  destruct (time_time_run w) as (w1 & Hrun1 & Hq1 & Hmgr1 & Hconf1).
  destruct (time_time_run w1) as (w2 & Hrun2 & Hq2 & Hmgr2 & Hconf2).
  exists w2. eexists. split; [eapply quiet_trans; eassumption|].
  split; [congruence|]. split; [eapply conf_frame_trans; eassumption|].
  unfold get_ohlc_data. unfold mbind at 1, M_bind at 1, bind at 1.
  rewrite Hrun1. unfold mbind at 1, M_bind at 1, bind at 1.
  rewrite Hrun2. reflexivity.
Qed.

(** When the OHLC request is answered by nothing useful and the market
    chart request by a true value, the result is the conversion of that
    value. *)
Lemma get_ohlc_data_fallback_run (coin_id : string) (days : Z) (w : World)
    (o d : json) (rest : list outcome) :
  _circuit_breaker_open (mgr w) = false ->
  _max_requests_per_minute (mgr w) <> 0%nat ->
  upstream w = Success o :: Success d :: rest ->
  json_truthy o = false -> json_truthy d = true ->
  exists w4,
    get_ohlc_data coin_id days w =
      (ohlc_data ← chart_to_ohlc d; ret (Some ohlc_data)) w4 /\
    calls w4 = (calls w + 2)%nat /\ upstream w4 = rest.
Proof.
  intros Hopen Hmax Hup Ho Hd.
  destruct (get_ohlc_data_start coin_id days w)
    as (w2 & params & (_ & Hup2 & Hcalls2) & Hmgr2 & _ & ->).
  unfold mbind at 1, M_bind at 1, bind at 1.
  destruct (call_run_success "get_range_coins_ohlc" params 3 w2 [] o
              (Success d :: rest))
    as (w3 & Hrun3 & Hcalls3 & Hup3 & Hopen3).
  { apply check_of_closed. congruence. }
  { congruence. }
  { cbn. congruence. }
  { cbn. lia. }
  { cbn. lia. }
  pose proof (call_conf "get_range_coins_ohlc" params 3 w2) as (Hmax3 & _).
  rewrite Hrun3 in Hmax3 |- *. cbn [snd] in Hmax3.
  cbn [opt_truthy]. rewrite Ho.
  unfold mbind at 1, M_bind at 1, bind at 1.
  destruct (call_run_success "get_range_coins_market_chart" params 3 w3 [] d
              rest)
    as (w4 & Hrun4 & Hcalls4 & Hup4 & _).
  { apply check_of_closed. exact Hopen3. }
  { congruence. }
  { cbn. congruence. }
  { cbn. lia. }
  { cbn. lia. }
  rewrite Hrun4, Hd. exists w4. split; [reflexivity|].
  cbn in Hcalls3, Hcalls4. split; [lia|exact Hup4].
Qed.

(** X4. When the OHLC request is answered by an empty or otherwise false
    value, [get_ohlc_data] asks for the market chart and returns its
    conversion: two upstream invocations for one result. *)
Theorem get_ohlc_data_falls_back_to_market_chart (coin_id : string)
    (days : Z) (w : World) (o : json) (fields : list (string * json))
    (pts vols : list (json * json)) (rest : list outcome) :
  _circuit_breaker_open (mgr w) = false ->
  _max_requests_per_minute (mgr w) <> 0%nat ->
  upstream w = Success o :: Success (JObj fields) :: rest ->
  json_truthy o = false ->
  default (JArr []) (assoc "prices" fields) = JArr (point <$> pts) ->
  default (JArr []) (assoc "total_volumes" fields) = JArr (point <$> vols) ->
  fields <> [] ->
  exists rows w',
    get_ohlc_data coin_id days w = (Val (Some (JArr rows)), w') /\
    calls w' = (calls w + 2)%nat /\ upstream w' = rest /\
    length rows = length pts /\
    forall k p, pts !! k = Some p ->
      rows !! k =
        Some (JArr [fst p; snd p; snd p; snd p; snd p;
                    default (JNum 0) (snd <$> vols !! k)]).
Proof.
  intros Hopen Hmax Hup Ho Hp Hv Hne.
  destruct (get_ohlc_data_fallback_run coin_id days w o (JObj fields) rest)
    as (w4 & Hrun & Hcalls & Hup4); try assumption.
  { destruct fields; [contradiction|reflexivity]. }
  destruct (chart_to_ohlc_rows_run fields pts vols w4 Hp Hv)
    as (rows & Hconv & Hlen & Hrows).
  exists rows, w4. split; [|auto].
  rewrite Hrun. unfold mbind, M_bind, bind. rewrite Hconv. reflexivity.
Qed.

(** X5. [get_ohlc_data] is not protected as [call_tool_with_retry] is: a
    true market chart answer that is not a dict makes it raise. *)
Theorem get_ohlc_data_raises_on_malformed_chart (coin_id : string)
    (days : Z) (w : World) (o d : json) (rest : list outcome) :
  _circuit_breaker_open (mgr w) = false ->
  _max_requests_per_minute (mgr w) <> 0%nat ->
  upstream w = Success o :: Success d :: rest ->
  json_truthy o = false -> json_truthy d = true ->
  (forall fields, d <> JObj fields) ->
  fst (get_ohlc_data coin_id days w) =
    Exc ("'" ++ type_name d ++ "' object has no attribute 'get'").
Proof.
  intros Hopen Hmax Hup Ho Hd Hnot.
  destruct (get_ohlc_data_fallback_run coin_id days w o d rest)
    as (w4 & Hrun & _); try assumption.
  rewrite Hrun. unfold chart_to_ohlc, mbind, M_bind, bind.
  destruct d; try reflexivity. now destruct (Hnot fields).
Qed.

Lemma get_ohlc_data_falls_back_to_market_chart_witness :
  exists w',
    get_ohlc_data "bitcoin" 30
      (initial_world 1000 [] [Success (JArr []); Success sample_chart])
    = (Val (Some (JArr
         [JArr [JNum 10; JNum 5; JNum 5; JNum 5; JNum 5; JNum 900];
          JArr [JNum 20; JNum 6; JNum 6; JNum 6; JNum 6; JNum 0]])), w') /\
    calls w' = 2%nat.
Proof.
  destruct (get_ohlc_data_falls_back_to_market_chart "bitcoin" 30
              (initial_world 1000 [] [Success (JArr []); Success sample_chart])
              (JArr [])
              [("prices", JArr [point (JNum 10, JNum 5);
                                point (JNum 20, JNum 6)]);
               ("total_volumes", JArr [point (JNum 10, JNum 900)])]
              [(JNum 10, JNum 5); (JNum 20, JNum 6)] [(JNum 10, JNum 900)] [])
    as (rows & w' & Hrun & Hcalls & _ & Hlen & Hrows).
  - reflexivity.
  - cbn. lia.
  - reflexivity.
  - reflexivity.
  - reflexivity.
  - reflexivity.
  - discriminate.
  - pose proof (Hrows 0%nat _ eq_refl) as H0.
    pose proof (Hrows 1%nat _ eq_refl) as H1.
    destruct rows as [|r0 [|r1 [|r2 rows]]]; try discriminate Hlen.
    cbn in H0, H1. injection H0 as ->. injection H1 as ->.
    exists w'. split; [exact Hrun|exact Hcalls].
Defined.

Lemma get_ohlc_data_raises_on_malformed_chart_witness :
  fst (get_ohlc_data "bitcoin" 30
         (initial_world 1000 []
            [Success JNull; Success (JArr [JStr "error"])]))
  = Exc "'list' object has no attribute 'get'".
Proof.
  apply (get_ohlc_data_raises_on_malformed_chart "bitcoin" 30
           (initial_world 1000 []
              [Success JNull; Success (JArr [JStr "error"])])
           JNull (JArr [JStr "error"]) []).
  - reflexivity.
  - cbn. lia.
  - reflexivity.
  - reflexivity.
  - reflexivity.
  - discriminate.
Defined.

(** X6. When the OHLC request ends by opening the breaker, the market
    chart request that follows it finds the breaker open (the time that
    passes in between being within the cooldown): [get_ohlc_data] returns
    [None] and the fallback is never sent upstream. *)
Theorem get_ohlc_data_no_fallback_once_breaker_opens (coin_id : string)
    (days : Z) (w : World) (es : list string) (e : string)
    (rest : list outcome) :
  _circuit_breaker_open (mgr w) = false ->
  _max_requests_per_minute (mgr w) <> 0%nat ->
  0 <= _circuit_breaker_timeout (mgr w) ->
  Forall (fun d => Z.of_nat d <= _circuit_breaker_timeout (mgr w))
    (delays w) ->
  upstream w = (Failure <$> es) ++ Failure e :: rest ->
  (length es < 3)%nat ->
  length (List.filter is_rate_limited es) = 1%nat ->
  is_rate_limited e = true ->
  exists w',
    get_ohlc_data coin_id days w = (Val None, w') /\
    calls w' = (calls w + length es + 1)%nat /\
    upstream w' = rest /\
    _circuit_breaker_open (mgr w') = true.
Proof.
  intros Hopen Hmax Hpos Hds Hup Hlen Hcount He.
  destruct (get_ohlc_data_start coin_id days w)
    as (w2 & params & (_ & Hup2 & Hcalls2) & Hmgr2 & Hconf2 & ->).
  unfold mbind at 1, M_bind at 1, bind at 1.
  destruct (call_run_breaker "get_range_coins_ohlc" params 3 w2 es e rest)
    as (w3 & Hrun3 & Hcalls3 & Hup3 & Hopen3 & Hat3).
  { apply check_of_closed. congruence. }
  { congruence. }
  { congruence. }
  { exact Hlen. }
  { exact Hcount. }
  { exact He. }
  pose proof (call_conf "get_range_coins_ohlc" params 3 w2) as Hconf3.
  rewrite Hrun3 in Hconf3 |- *. cbn [snd] in Hconf3.
  destruct (conf_frame_trans _ _ _ Hconf2 Hconf3) as (_ & Htime & Hlater).
  cbn [opt_truthy].
  unfold mbind at 1, M_bind at 1, bind at 1.
  destruct (check_just_opened w3 Hopen3 Hat3)
    as (w4 & Hrun4 & (_ & Hup4 & Hcalls4) & Hmgr4).
  { rewrite Htime. exact Hpos. }
  { rewrite Htime. apply Hlater. exact Hds. }
  unfold call_tool_with_retry. unfold mbind at 1, M_bind at 1, bind at 1.
  rewrite Hrun4. exists w4. split; [reflexivity|].
  split; [lia|]. split; [congruence|]. rewrite Hmgr4. exact Hopen3.
Qed.

Lemma get_ohlc_data_no_fallback_once_breaker_opens_witness :
  exists w',
    get_ohlc_data "bitcoin" 30
      (initial_world 1000 [5; 5; 5; 5; 5; 5; 5; 5; 5; 5; 5; 5]%nat
         [Failure "HTTP 429"; Failure "HTTP 429"; Success sample_chart])
    = (Val None, w') /\
    calls w' = 2%nat /\ upstream w' = [Success sample_chart].
Proof.
  destruct (get_ohlc_data_no_fallback_once_breaker_opens "bitcoin" 30
              (initial_world 1000 [5; 5; 5; 5; 5; 5; 5; 5; 5; 5; 5; 5]%nat
                 [Failure "HTTP 429"; Failure "HTTP 429";
                  Success sample_chart])
              ["HTTP 429"] "HTTP 429" [Success sample_chart])
    as (w' & Hrun & Hcalls & Hup & _).
  - reflexivity.
  - cbn. lia.
  - cbn. lia.
  - cbn. repeat constructor; lia.
  - reflexivity.
  - cbn. lia.
  - vm_compute. reflexivity.
  - vm_compute. reflexivity.
  - exists w'. split; [exact Hrun|]. split; [exact Hcalls|exact Hup].
Defined.

End OhlcFacts.

Section StoreFacts.
Import Chroma.
Local Open Scope Z_scope.

Ltac run_store :=
  cbv [clear_expired get_stats collection_get_all collection_delete_many
       collection_ops Chroma.get_self Chroma.put_collection
       mbind M_bind bind mret M_ret ret try_except is_some negb] in *;
  cbn [collection faults store_log fst snd hd tl default] in *.

Lemma lookup_foldr_delete {A} (m : gmap string A) (ids : list string)
    (i : string) :
  foldr delete m ids !! i = if decide (i ∈ ids) then None else m !! i.
Proof.
  induction ids as [|j ids IH]; cbn.
  - reflexivity.
  - destruct (decide (i = j)) as [->|Hne].
    + rewrite lookup_delete_eq. rewrite decide_True; [reflexivity|].
      apply list_elem_of_here.
    + rewrite lookup_delete_ne by congruence. rewrite IH.
      destruct (decide (i ∈ ids)) as [Hin|Hin].
      * rewrite decide_True; [reflexivity|]. now apply list_elem_of_further.
      * rewrite decide_False; [reflexivity|].
        intros H. apply elem_of_cons in H as [?|?]; contradiction.
Qed.

Lemma elem_of_expired_ids (docs : gmap string document) (cutoff : Z)
    (i : string) :
  i ∈ fst <$> List.filter (fun kv => doc_timestamp (snd kv) <? cutoff)
                 (map_to_list docs) <->
  exists doc, docs !! i = Some doc /\ doc_timestamp doc < cutoff.
Proof.
  rewrite list_elem_of_fmap. split.
  - intros ([j doc] & -> & Hin). apply list_elem_of_In, filter_In in Hin.
    destruct Hin as [Hin Hold]. apply list_elem_of_In in Hin.
    apply elem_of_map_to_list in Hin. cbn in Hold. apply Z.ltb_lt in Hold.
    eauto.
  - intros (doc & Hdoc & Hold). exists (i, doc). split; [reflexivity|].
    apply list_elem_of_In, filter_In. split.
    + apply list_elem_of_In, elem_of_map_to_list, Hdoc.
    + cbn. now apply Z.ltb_lt.
Qed.

(** [clear_expired] never raises. When the collection works, a document
    written before the cutoff goes and every other document stays as it
    is; when an operation of the collection fails, the documents are as
    before. *)
Lemma clear_expired_spec (now max_age_days : Z) (c : ChromaPersistentCache) :
  exists c',
    clear_expired now max_age_days c = (Val tt, c') /\
    (collection c = None -> c' = c) /\
    (forall docs, collection c = Some docs ->
       exists docs', collection c' = Some docs' /\
         (hd false (faults c) = false -> hd false (tl (faults c)) = false ->
          forall id,
            docs' !! id =
            match docs !! id with
            | Some doc =>
              if doc_timestamp doc <? now - max_age_days * 86400
              then None else Some doc
            | None => None
            end) /\
         (hd false (faults c) = true \/ hd false (tl (faults c)) = true ->
          docs' = docs)).
Proof.
  exists (snd (clear_expired now max_age_days c)).
  destruct c as [[docs|] fl lg]; run_store.
  2:{ repeat split; discriminate. }
  set (cutoff := now - max_age_days * 86400).
  assert (forall id,
    foldr delete docs
      (fst <$> List.filter (fun kv => doc_timestamp (snd kv) <? cutoff)
                 (map_to_list docs)) !! id =
    match docs !! id with
    | Some doc => if doc_timestamp doc <? cutoff then None else Some doc
    | None => None
    end) as Hlookup.
  { intros id. rewrite lookup_foldr_delete.
    destruct (decide (id ∈ _)) as [Hin|Hin].
    - apply elem_of_expired_ids in Hin as (doc & -> & Hold).
      apply Z.ltb_lt in Hold. now rewrite Hold.
    - destruct (docs !! id) as [doc|] eqn:Hdoc; [|reflexivity].
      destruct (doc_timestamp doc <? cutoff) eqn:Hold; [|reflexivity].
      exfalso. apply Hin, elem_of_expired_ids. apply Z.ltb_lt in Hold. eauto. }
  destruct fl as [|[] fl]; cbn [hd tl]; cbv beta iota zeta;
    cbn [hd tl faults collection store_log fst snd].
  2:{ split; [reflexivity|]. split; [discriminate|].
      intros docs0 Hd. injection Hd as <-. eexists. split; [reflexivity|].
      split; [discriminate|reflexivity]. }
  all: remember (fst <$> List.filter
                           (fun kv => doc_timestamp (snd kv) <? cutoff)
                           (map_to_list docs)) as ids eqn:Hdef;
    destruct ids as [|id0 ids']; cbn [length Nat.eqb];
    cbv beta iota zeta; cbn [hd tl faults collection store_log fst snd].
  1,3: split; [reflexivity|]; (split; [discriminate|]);
    intros docs0 Hd; injection Hd as <-; eexists; (split; [reflexivity|]);
    (split; [intros _ _ id; rewrite <- Hlookup; reflexivity|reflexivity]).
  - split; [reflexivity|]. split; [discriminate|].
    intros docs0 Hd. injection Hd as <-. eexists. split; [reflexivity|].
    split; [intros _ _ id; apply Hlookup|].
    intros [?|?]; discriminate.
  - destruct fl as [|[] fl]; cbn [hd tl];
      (split; [reflexivity|]); (split; [discriminate|]);
      intros docs0 Hd; injection Hd as <-; eexists;
      (split; [reflexivity|]);
      (split; [intros _ Hf id; try discriminate; apply Hlookup|]);
      intros [?|?]; try discriminate; reflexivity.
Qed.

(** A collection that does not fail still does not after
    [clear_expired]. *)
Lemma clear_expired_faults (now max_age_days : Z)
    (c : ChromaPersistentCache) :
  faults c = [] -> faults (snd (clear_expired now max_age_days c)) = [].
Proof.
  destruct c as [[docs|] fl lg]; cbn [faults]; intros ->; run_store;
    [|reflexivity].
  cbv beta iota zeta; cbn [hd tl faults collection store_log fst snd].
  destruct (fst <$> _) as [|id0 ids]; reflexivity.
Qed.

(** X7. [clear_expired] never raises. With a working collection, every
    document older than [max_age_days] is deleted, and every other
    document, one that is exactly that old included, stays as it is. When
    an operation of the collection fails, the failure is swallowed and
    no document is deleted. *)
Theorem clear_expired_deletes_the_old_documents (now max_age_days : Z)
    (c : ChromaPersistentCache) (docs : gmap string document) :
  collection c = Some docs ->
  exists docs',
    clear_expired now max_age_days c =
      (Val tt, snd (clear_expired now max_age_days c)) /\
    collection (snd (clear_expired now max_age_days c)) = Some docs' /\
    (hd false (faults c) = false -> hd false (tl (faults c)) = false ->
     forall id doc,
       (docs !! id = Some doc ->
        now - doc_timestamp doc <= max_age_days * 86400 ->
        docs' !! id = Some doc) /\
       (docs !! id = Some doc ->
        max_age_days * 86400 < now - doc_timestamp doc ->
        docs' !! id = None) /\
       (docs !! id = None -> docs' !! id = None)) /\
    (hd false (faults c) = true \/ hd false (tl (faults c)) = true ->
     docs' = docs).
Proof.
  intros Hdocs.
  destruct (clear_expired_spec now max_age_days c) as (c' & Hrun & _ & Hsome).
  destruct (Hsome docs Hdocs) as (docs' & Hcoll & Hok & Hfault).
  rewrite Hrun. cbn [snd]. exists docs'. split; [reflexivity|].
  split; [exact Hcoll|]. split; [|exact Hfault].
  intros Hf1 Hf2 id doc. specialize (Hok Hf1 Hf2 id).
  split; [|split]; intros Hid; rewrite Hid in Hok.
  - intros Hage.
    destruct (_ <? _) eqn:E; [apply Z.ltb_lt in E; lia|exact Hok].
  - intros Hage.
    destruct (_ <? _) eqn:E; [exact Hok|apply Z.ltb_ge in E; lia].
  - exact Hok.
Qed.

Variable json_dumps : json -> string.

(** The loop of [get_stats]: what it adds to its counters. *)
Lemma stats_loop (now : Z) (metadatas : list document) :
  forall (counts0 : gmap string nat) (size0 fresh0 stale0 : nat),
  exists counts size fresh stale,
    foldl (stats_step json_dumps now) (counts0, size0, fresh0, stale0)
      metadatas = (counts, size, fresh, stale) /\
    fresh = (fresh0 + length (List.filter
               (fun d => (now - doc_timestamp d <? 24 * 3600)%Z)
               metadatas))%nat /\
    (fresh + stale = fresh0 + stale0 + length metadatas)%nat /\
    size = (size0 + sum_list ((fun d => String.length
                                 (json_dumps (doc_json d))) <$> metadatas))%nat /\
    forall e,
      default 0%nat (counts !! e) =
      (default 0%nat (counts0 !! e) +
       length (List.filter (fun d => String.eqb (doc_endpoint d) e)
                 metadatas))%nat.
Proof.
  induction metadatas as [|d metadatas IH]; intros counts0 size0 fresh0 stale0.
  - exists counts0, size0, fresh0, stale0. cbn.
    repeat split; intros; lia.
  - cbn [foldl]. unfold stats_step at 2.
    assert (forall e,
      default 0%nat
        (<[doc_endpoint d :=
             (default 0 (counts0 !! doc_endpoint d) + 1)%nat]> counts0 !! e) =
      (default 0%nat (counts0 !! e) +
       (if String.eqb (doc_endpoint d) e then 1 else 0))%nat) as Hcount.
    { intros e. destruct (String.eqb (doc_endpoint d) e) eqn:E.
      - apply String.eqb_eq in E. subst e. now rewrite lookup_insert_eq.
      - apply String.eqb_neq in E. rewrite lookup_insert_ne by exact E. lia. }
    destruct (now - doc_timestamp d <? 24 * 3600) eqn:Hfresh.
    + destruct (IH (<[doc_endpoint d :=
                        (default 0 (counts0 !! doc_endpoint d) + 1)%nat]>
                      counts0)
                   (size0 + String.length (json_dumps (doc_json d)))%nat
                   (fresh0 + 1)%nat stale0)
        as (counts & size & fresh & stale & Hrun & Hf & Hsum & Hsize & Hc).
      exists counts, size, fresh, stale. split; [exact Hrun|].
      cbn [List.filter fmap list_fmap sum_list length]. rewrite Hfresh.
      cbn [length]. split; [lia|]. split; [lia|].
      split; [cbn in Hsize |- *; lia|].
      intros e. rewrite Hc, Hcount.
      destruct (String.eqb (doc_endpoint d) e); cbn [length]; lia.
    + destruct (IH (<[doc_endpoint d :=
                        (default 0 (counts0 !! doc_endpoint d) + 1)%nat]>
                      counts0)
                   (size0 + String.length (json_dumps (doc_json d)))%nat
                   fresh0 (stale0 + 1)%nat)
        as (counts & size & fresh & stale & Hrun & Hf & Hsum & Hsize & Hc).
      exists counts, size, fresh, stale. split; [exact Hrun|].
      cbn [List.filter fmap list_fmap sum_list length]. rewrite Hfresh.
      split; [lia|]. split; [lia|]. split; [cbn in Hsize |- *; lia|].
      intros e. rewrite Hc, Hcount.
      destruct (String.eqb (doc_endpoint d) e); cbn [length]; lia.
Qed.

(** What [get_stats] returns. *)
Lemma get_stats_spec (now : Z) (c : ChromaPersistentCache) :
  exists r c',
    get_stats json_dumps now c = (Val r, c') /\
    collection c' = collection c /\
    (collection c = None -> r = StatsError "ChromaDB not available" None) /\
    (is_Some (collection c) -> hd false (faults c) = true ->
     r = StatsError "chromadb error" (Some false)) /\
    (forall docs,
       collection c = Some docs -> hd false (faults c) = false ->
       exists st,
         r = Stats st /\
         total_entries st = size docs /\
         (fresh_entries st + stale_entries st = total_entries st)%nat /\
         fresh_entries st =
           length (List.filter
                     (fun kv => now - doc_timestamp (snd kv) <? 24 * 3600)
                     (map_to_list docs)) /\
         (forall e,
            default 0%nat (endpoint_counts st !! e) =
            length (List.filter
                      (fun kv => String.eqb (doc_endpoint (snd kv)) e)
                      (map_to_list docs))) /\
         total_size_bytes st =
           sum_list ((fun kv => String.length (json_dumps (doc_json (snd kv))))
                     <$> map_to_list docs)).
Proof.
  destruct c as [[docs|] fl lg]; run_store.
  2:{ do 2 eexists. split; [reflexivity|]. split; [reflexivity|].
      split; [reflexivity|]. split; [intros [? ?]; discriminate|discriminate]. }
  destruct fl as [|[] fl]; cbn [hd tl]; cbv beta iota zeta;
    cbn [hd tl faults collection store_log fst snd].
  2:{ do 2 eexists. split; [reflexivity|]. split; [reflexivity|].
      split; [discriminate|]. split; [reflexivity|discriminate]. }
  all: destruct (stats_loop now (snd <$> map_to_list docs) ∅ 0 0 0)
      as (counts & size & fresh & stale & Hrun & Hf & Hsum & Hsize & Hc);
    rewrite Hrun; do 2 eexists; (split; [reflexivity|]);
    (split; [reflexivity|]); (split; [discriminate|]);
    (split; [discriminate|]);
    intros docs0 Hd _; injection Hd as <-; eexists; (split; [reflexivity|]);
    cbn [total_entries fresh_entries stale_entries endpoint_counts
         total_size_bytes];
    rewrite length_fmap in Hsum; rewrite length_map_to_list.
  all: split; [reflexivity|]; split; [rewrite <- length_map_to_list; lia|].
  all: split; [rewrite Hf; cbn; clear; induction (map_to_list docs) as [|kv l IH];
               [reflexivity|cbn; destruct (_ <? _); cbn; rewrite IH; reflexivity]|].
  all: split; [intros e; rewrite Hc, lookup_empty; cbn; clear;
               induction (map_to_list docs) as [|kv l IH];
               [reflexivity|cbn; destruct (String.eqb _ _); cbn; rewrite IH;
                reflexivity]|].
  all: rewrite Hsize; cbn; f_equal; clear;
    induction (map_to_list docs) as [|kv l IH];
    [reflexivity|cbn; rewrite IH; reflexivity].
Qed.

(** X8. [get_stats] never raises and deletes nothing. With a working
    collection it counts every document once, as fresh when it is
    younger than 24 hours and as stale otherwise, and once under its
    endpoint. Without a collection, or when the collection fails, it
    returns an error. *)
Theorem get_stats_counts_every_document (now : Z)
    (c : ChromaPersistentCache) :
  exists r c',
    get_stats json_dumps now c = (Val r, c') /\
    collection c' = collection c /\
    (collection c = None -> r = StatsError "ChromaDB not available" None) /\
    (is_Some (collection c) -> hd false (faults c) = true ->
     r = StatsError "chromadb error" (Some false)) /\
    (forall docs,
       collection c = Some docs -> hd false (faults c) = false ->
       exists st,
         r = Stats st /\
         total_entries st = size docs /\
         (fresh_entries st + stale_entries st = total_entries st)%nat /\
         fresh_entries st =
           length (List.filter
                     (fun kv => now - doc_timestamp (snd kv) <? 24 * 3600)
                     (map_to_list docs)) /\
         (forall e,
            default 0%nat (endpoint_counts st !! e) =
            length (List.filter
                      (fun kv => String.eqb (doc_endpoint (snd kv)) e)
                      (map_to_list docs))) /\
         total_size_bytes st =
           sum_list ((fun kv => String.length (json_dumps (doc_json (snd kv))))
                     <$> map_to_list docs)).
Proof. apply get_stats_spec. Qed.

Variable h : string -> string.

Ltac run_chroma :=
  cbv [Chroma.set Chroma.get Chroma.get_stale Chroma.get_self
       Chroma.collection_get Chroma.collection_upsert
       Chroma.collection_delete Chroma.collection_op Chroma.put_collection
       mbind M_bind bind mret M_ret ret try_except is_some negb] in *;
  cbn [collection faults store_log fst snd hd tl] in *.

(** X9. What [set] stores, [get] and [get_stale] give back in its
    serialized form (a response model comes back as its dict), as long as
    it is younger than the bound of the lookup and the collection
    works. *)
Theorem chroma_set_then_get (now now' : Z) (endpoint : string)
    (data : pyval) (c : ChromaPersistentCache)
    (docs : gmap string document) :
  collection c = Some docs ->
  hd false (faults c) = false -> hd false (tl (faults c)) = false ->
  (forall max_age_hours,
     now' - now < max_age_hours * 3600 ->
     fst (Chroma.get h now' endpoint max_age_hours
            (snd (Chroma.set h now endpoint data c)))
     = Val (Some (Chroma._make_serializable data))) /\
  (forall max_stale_days,
     now' - now < max_stale_days * 86400 ->
     fst (Chroma.get_stale h now' endpoint max_stale_days
            (snd (Chroma.set h now endpoint data c)))
     = Val (Some (Chroma._make_serializable data))).
Proof.
  destruct c as [[docs0|] fl lg]; [|discriminate].
  intros _ Hf1 Hf2. run_chroma.
  destruct fl as [|[] [|[] fl]]; try discriminate; cbn [hd tl];
    cbv beta iota zeta; cbn [hd tl faults collection store_log fst snd];
    rewrite lookup_insert_eq; cbn [doc_timestamp doc_json];
    (split; intros bound Hage; apply Z.ltb_lt in Hage; rewrite Hage;
     reflexivity).
Qed.

(** X10. Endpoints whose cache keys differ do not interfere: a [set] for
    one changes neither what [get] nor what [get_stale] returns for the
    other. *)
Theorem chroma_set_leaves_other_endpoints (now now' : Z)
    (endpoint other : string) (data : pyval) (c : ChromaPersistentCache) :
  Chroma._generate_cache_key h endpoint <>
  Chroma._generate_cache_key h other ->
  hd false (faults c) = false -> hd false (tl (faults c)) = false ->
  (forall max_age_hours,
     fst (Chroma.get h now' other max_age_hours
            (snd (Chroma.set h now endpoint data c)))
     = fst (Chroma.get h now' other max_age_hours c)) /\
  (forall max_stale_days,
     fst (Chroma.get_stale h now' other max_stale_days
            (snd (Chroma.set h now endpoint data c)))
     = fst (Chroma.get_stale h now' other max_stale_days c)).
Proof.
  intros Hne Hf1 Hf2.
  destruct c as [[docs0|] fl lg]; [|split; reflexivity].
  run_chroma.
  destruct fl as [|[] [|[] fl]]; try discriminate; cbn [hd tl];
    cbv beta iota zeta; cbn [hd tl faults collection store_log fst snd];
    rewrite lookup_insert_ne by exact Hne;
    split; intros bound;
    (destruct (docs0 !! Chroma._generate_cache_key h other) as [doc|];
     [destruct (_ <? _)|]);
    cbv beta iota zeta; cbn [hd tl faults collection store_log fst snd];
    try reflexivity;
    destruct fl as [|[] fl]; reflexivity.
Qed.

(** X11. The two bounds on age do not meet: a document that is exactly
    [days] days old survives [clear_expired(days)], while
    [get_stale(max_stale_days=days)] finds it too old, returns nothing and
    deletes it. *)
Theorem exactly_max_age_kept_by_clear_expired_only (now days : Z)
    (endpoint : string) (c : ChromaPersistentCache)
    (docs : gmap string document) (doc : document) :
  collection c = Some docs ->
  hd false (faults c) = false -> hd false (tl (faults c)) = false ->
  docs !! Chroma._generate_cache_key h endpoint = Some doc ->
  now - doc_timestamp doc = days * 86400 ->
  (exists docs',
     collection (snd (clear_expired now days c)) = Some docs' /\
     docs' !! Chroma._generate_cache_key h endpoint = Some doc) /\
  Chroma.get_stale h now endpoint days c =
    (Val None,
     {| collection :=
          Some (delete (Chroma._generate_cache_key h endpoint) docs);
        faults := tl (tl (faults c));
        store_log :=
          store_log c ++
          [OpGet (Chroma._generate_cache_key h endpoint);
           OpDelete (Chroma._generate_cache_key h endpoint)] |}).
Proof.
  intros Hdocs Hf1 Hf2 Hdoc Hage. split.
  - destruct (clear_expired_spec now days c) as (c' & Hrun & _ & Hsome).
    destruct (Hsome docs Hdocs) as (docs' & Hcoll & Hok & _).
    rewrite Hrun. cbn [snd]. exists docs'. split; [exact Hcoll|].
    rewrite (Hok Hf1 Hf2), Hdoc.
    destruct (_ <? _) eqn:E; [apply Z.ltb_lt in E; lia|reflexivity].
  - destruct c as [[docs0|] fl lg]; [|discriminate].
    injection Hdocs as ->. run_chroma.
    destruct fl as [|[] [|[] fl]]; try discriminate; cbn [hd tl];
      cbv beta iota zeta; cbn [hd tl faults collection store_log fst snd];
      rewrite Hdoc;
      (destruct (_ <? _) eqn:E; [apply Z.ltb_lt in E; lia|]);
      cbn; rewrite <- app_assoc; reflexivity.
Qed.

End StoreFacts.

Section StoreExamples.
Import Chroma.
Local Open Scope Z_scope.

(** At time 200000 and with a bound of one day, the document written two
    days before goes and the one written an hour before stays. *)
Lemma clear_expired_deletes_the_old_documents_witness :
  exists docs',
    collection (snd (clear_expired 200000 1 two_documents)) = Some docs' /\
    docs' !! "a" = None /\
    docs' !! "b" = Some {| doc_json := JNum 2;
                           doc_endpoint := "global_market_data";
                           doc_timestamp := 196400 |}.
Proof.
  destruct (clear_expired_deletes_the_old_documents 200000 1 two_documents
              _ eq_refl) as (docs' & _ & Hcoll & Hok & _).
  exists docs'. split; [exact Hcoll|].
  specialize (Hok eq_refl eq_refl). split.
  - destruct (Hok "a" {| doc_json := JNum 1; doc_endpoint := "trending_coins";
                         doc_timestamp := 27200 |}) as (_ & Hold & _).
    apply Hold; [reflexivity|cbn; lia].
  - destruct (Hok "b" {| doc_json := JNum 2;
                         doc_endpoint := "global_market_data";
                         doc_timestamp := 196400 |}) as (Hkeep & _).
    apply Hkeep; [reflexivity|cbn; lia].
Defined.

Lemma get_stats_counts_every_document_witness :
  exists st c',
    get_stats (fun _ => "{}") 200000 two_documents = (Val (Stats st), c') /\
    total_entries st = 2%nat /\ fresh_entries st = 1%nat /\
    stale_entries st = 1%nat.
Proof.
  destruct (get_stats_counts_every_document (fun _ => "{}") 200000
              two_documents) as (r & c' & Hrun & _ & _ & _ & Hok).
  destruct (Hok _ eq_refl eq_refl)
    as (st & -> & Htotal & Hsum & Hfresh & _).
  exists st, c'. split; [exact Hrun|].
  assert (total_entries st = 2%nat) as H2 by (rewrite Htotal; reflexivity).
  assert (fresh_entries st = 1%nat) as H1
    by (rewrite Hfresh; vm_compute; reflexivity).
  split; [exact H2|]. split; [exact H1|]. lia.
Defined.

(** What was stored at 0 is read back at 100, as a dict. *)
Lemma chroma_set_then_get_witness :
  fst (Chroma.get Cache.plain_digest 100 "k" 1
         (snd (Chroma.set Cache.plain_digest 0 "k" Cache.empty_gainers
                 {| collection := Some ∅; faults := [];
                    store_log := [] |})))
  = Val (Some (JObj [("top_gainers", JArr []); ("top_losers", JArr [])])).
Proof.
  destruct (chroma_set_then_get Cache.plain_digest 0 100 "k"
              Cache.empty_gainers
              {| collection := Some ∅; faults := []; store_log := [] |}
              ∅ eq_refl eq_refl eq_refl) as [Hget _].
  apply (Hget 1). lia.
Defined.

Lemma chroma_set_leaves_other_endpoints_witness :
  fst (Chroma.get Cache.plain_digest 100 "k" 1
         (snd (Chroma.set Cache.plain_digest 50 "other" Cache.empty_gainers
                 Cache.old_store)))
  = Val (Some (JObj [("top_gainers", JArr [JNum 1])])).
Proof.
  destruct (chroma_set_leaves_other_endpoints Cache.plain_digest 50 100
              "other" "k" Cache.empty_gainers Cache.old_store)
    as [Hget _].
  - discriminate.
  - reflexivity.
  - reflexivity.
  - rewrite Hget. vm_compute. reflexivity.
Defined.

(** The document of [old_store], written at 0, at the age of one day. *)
Lemma exactly_max_age_kept_by_clear_expired_only_witness :
  (exists docs',
     collection (snd (clear_expired 86400 1 Cache.old_store)) = Some docs' /\
     is_Some (docs' !! Chroma._generate_cache_key Cache.plain_digest "k")) /\
  fst (Chroma.get_stale Cache.plain_digest 86400 "k" 1 Cache.old_store)
  = Val None.
Proof.
  destruct (exactly_max_age_kept_by_clear_expired_only Cache.plain_digest
              86400 1 "k" Cache.old_store _ _ eq_refl eq_refl eq_refl
              eq_refl eq_refl) as [(docs' & Hcoll & Hdoc) Hstale].
  split.
  - exists docs'. split; [exact Hcoll|]. rewrite Hdoc. eauto.
  - rewrite Hstale. reflexivity.
Defined.

End StoreExamples.

Section ManagerFacts.
Import Cache.
Local Open Scope Z_scope.

Variable h : string -> string.

Ltac run_tiers :=
  cbv [Cache.set Cache.get Cache.get_stale Cache.on_chroma Cache.get_self
       Cache.put_cache Cache.to_dict Cache.chroma_log Cache.chroma_docs
       Cache.fresh_entry
       Chroma.set Chroma.get Chroma.get_stale Chroma.get_self
       Chroma.collection_get Chroma.collection_upsert
       Chroma.collection_delete Chroma.collection_op Chroma.put_collection
       Chroma._make_serializable
       mbind M_bind bind mret M_ret ret try_except is_some negb andb] in *;
  cbn [cache chroma_cache collection faults store_log fst snd hd tl
       default] in *.

(** X12. What [set] stores, [get] returns as it is until its ttl has
    passed, whatever the persistent store does, and the lookup changes
    nothing. *)
Theorem cache_set_then_get (now now' : Z) (key : string) (data : pyval)
    (ttl : Z) (s : CacheManager) :
  now' - now < ttl ->
  Cache.get h now' key (snd (Cache.set h now key data ttl s)) =
  (Val (Some data), snd (Cache.set h now key data ttl s)).
Proof.
  intros Hfresh.
  destruct (cache_set_spec h now key data ttl s) as (s1 & Hrun & Hmem & _).
  rewrite Hrun. cbn [snd].
  destruct (cache_get_spec h now' key s1) as (r & s2 & Hget & Hhit & _).
  rewrite Hget. destruct (Hhit data) as [-> ->]; [|reflexivity].
  unfold Cache.fresh_entry. rewrite Hmem, lookup_insert_eq.
  apply Z.ltb_lt in Hfresh. now rewrite Hfresh.
Qed.

(** X13. A response model stored with a ttl of more than 60 and looked up
    after its ttl, but within the hour, comes back from the persistent
    store as its dict and no longer as the model; the lookup writes it
    again to both tiers, so that the memory entry has a ttl of 300 and the
    persistent document is dated from the lookup. *)
Theorem expired_model_comes_back_as_dict (now now' : Z) (key cls : string)
    (fields : json) (ttl : Z) (s : CacheManager)
    (c : ChromaPersistentCache) (docs : gmap string document) :
  chroma_cache s = Some c -> collection c = Some docs -> faults c = [] ->
  60 < ttl -> ttl <= now' - now -> now' - now < 3600 ->
  json_truthy fields = true ->
  exists s2,
    Cache.get h now' key (snd (Cache.set h now key (PModel cls fields) ttl s))
      = (Val (Some (PJson fields)), s2) /\
    cache s2 !! key = Some (PJson fields, now', 300) /\
    Cache.chroma_docs s2 !! Chroma._generate_cache_key h key =
      Some {| doc_json := fields; doc_endpoint := key;
              doc_timestamp := now' |}.
Proof.
  destruct s as [mem [c0|]]; [|discriminate].
  destruct c0 as [[docs0|] fl lg]; cbn [chroma_cache collection faults];
    intros Hc Hdocs Hfl Httl Hexp Hhour Htrue;
    injection Hc as <-; [|discriminate].
  cbn [faults] in Hfl. subst fl. run_tiers.
  assert ((60 <? ttl) = true) as -> by now apply Z.ltb_lt.
  cbv beta iota zeta; cbn [cache chroma_cache collection faults store_log
                           fst snd hd tl].
  rewrite lookup_insert_eq.
  assert ((now' - now <? ttl) = false) as -> by now apply Z.ltb_ge.
  cbv beta iota zeta; cbn [cache chroma_cache collection faults store_log
                           fst snd hd tl].
  rewrite lookup_insert_eq. cbn [doc_timestamp doc_json].
  assert ((now' - now <? 1 * 3600) = true) as -> by (apply Z.ltb_lt; lia).
  rewrite Htrue.
  cbv beta iota zeta; cbn [cache chroma_cache collection faults store_log
                           fst snd hd tl Z.ltb Z.compare Pos.compare
                           Pos.compare_cont].
  eexists. split; [reflexivity|].
  cbn [cache chroma_cache collection default]. unfold id.
  rewrite !lookup_insert_eq. split; reflexivity.
Qed.

(** [clear] never raises; it empties the memory cache and runs
    [clear_expired] with a bound of one day on the persistent cache. *)
Lemma cache_clear_spec (now : Z) (s : CacheManager) :
  exists s',
    clear now s = (Val tt, s') /\ cache s' = ∅ /\
    (chroma_cache s = None -> chroma_cache s' = None) /\
    (forall c, chroma_cache s = Some c ->
       chroma_cache s' = Some (snd (Chroma.clear_expired now 1 c))).
Proof.
  destruct s as [mem [c|]];
    cbv [clear Cache.put_cache Cache.get_self Cache.on_chroma
         mbind M_bind bind mret M_ret ret try_except is_some];
    cbn [cache chroma_cache].
  - destruct (clear_expired_spec now 1 c) as (c' & Hrun & _).
    rewrite Hrun. eexists. split; [reflexivity|]. split; [reflexivity|].
    split; [discriminate|]. intros c0 Hc. injection Hc as <-.
    rewrite Hrun. reflexivity.
  - eexists. split; [reflexivity|]. split; [reflexivity|].
    split; [reflexivity|discriminate].
Qed.

(** X14. [clear] never raises and empties the memory cache, but of the
    persistent store it deletes only what is older than a day: a true
    document younger than an hour is still served by the next [get]. *)
Theorem clear_keeps_recent_documents (now now' : Z) (key : string)
    (s : CacheManager) (c : ChromaPersistentCache)
    (docs : gmap string document) (doc : document) :
  chroma_cache s = Some c -> collection c = Some docs -> faults c = [] ->
  docs !! Chroma._generate_cache_key h key = Some doc ->
  json_truthy (doc_json doc) = true ->
  now - doc_timestamp doc <= 86400 -> now' - doc_timestamp doc < 3600 ->
  exists s1,
    clear now s = (Val tt, s1) /\ cache s1 = ∅ /\
    fst (Cache.get h now' key s1) = Val (Some (PJson (doc_json doc))).
Proof.
  intros Hc Hdocs Hfl Hdoc Htrue Hday Hhour.
  destruct (cache_clear_spec now s) as (s1 & Hrun & Hmem & _ & Hstore).
  exists s1. split; [exact Hrun|]. split; [exact Hmem|].
  specialize (Hstore c Hc).
  destruct (clear_expired_spec now 1 c) as (c1 & Hrun1 & _ & Hsome).
  destruct (Hsome docs Hdocs) as (docs1 & Hcoll1 & Hkeep & _).
  pose proof (clear_expired_faults now 1 c Hfl) as Hfl1.
  rewrite Hrun1 in Hstore, Hfl1. cbn [snd] in Hstore, Hfl1.
  assert (docs1 !! Chroma._generate_cache_key h key = Some doc) as Hdoc1.
  { rewrite Hkeep by (rewrite Hfl; reflexivity). rewrite Hdoc.
    destruct (_ <? _) eqn:E; [apply Z.ltb_lt in E; lia|reflexivity]. }
  destruct (cache_get_spec h now' key s1) as (r & s2 & Hget & _ & Hmiss).
  rewrite Hget. cbn [fst]. f_equal.
  assert (Cache.fresh_entry now' key s1 = None) as Hfresh.
  { unfold Cache.fresh_entry. rewrite Hmem, lookup_empty. reflexivity. }
  destruct (Hmiss Hfresh) as (_ & _ & _ & Hfound & _).
  apply (Hfound c1 docs1 doc); try assumption.
  rewrite Hfl1. reflexivity.
Qed.

Variable json_dumps : json -> string.

(** The loop of [get_stats] over the items of the memory cache. *)
Lemma memory_loop (now : Z) (items : list (string * (pyval * Z * Z))) :
  forall (a0 : list (string * (Z * Z * Z))) (e0 : list string),
  exists a e,
    foldl (memory_step now) (a0, e0) items = (a, e) /\
    (length a + length e = length a0 + length e0 + length items)%nat /\
    (forall key age ttl exp,
       (key, (age, ttl, exp)) ∈ a <->
       (key, (age, ttl, exp)) ∈ a0 \/
       exists data ts,
         (key, (data, ts, ttl)) ∈ items /\
         age = now - ts /\ exp = ttl - age /\ age < ttl).
Proof.
  induction items as [|[k [[d ts] ttl]] items IH]; intros a0 e0.
  - exists a0, e0. split; [reflexivity|]. split; [cbn; lia|].
    intros key age ttl exp. split; [auto|].
    intros [H|(data & ts & H & _)]; [exact H|].
    apply elem_of_nil in H. contradiction.
  - cbn [foldl]. unfold memory_step at 2.
    destruct (now - ts <? ttl) eqn:Hfresh.
    + destruct (IH (a0 ++ [(k, (now - ts, ttl, ttl - (now - ts)))]) e0)
        as (a & e & Hrun & Hlen & Hin).
      exists a, e. split; [exact Hrun|].
      rewrite length_app in Hlen. cbn [length] in Hlen |- *.
      split; [lia|]. intros key age ttl' exp. rewrite Hin.
      rewrite elem_of_app, list_elem_of_singleton. apply Z.ltb_lt in Hfresh.
      split.
      * intros [[H|H]|(data & ts' & H & Hrest)].
        -- now left.
        -- injection H as -> -> -> ->. right. exists d, ts.
           split; [apply list_elem_of_here|]. repeat split; lia.
        -- right. exists data, ts'. split; [|exact Hrest].
           now apply list_elem_of_further.
      * intros [H|(data & ts' & H & Hrest)].
        -- now left; left.
        -- apply elem_of_cons in H as [H|H].
           ++ injection H as -> -> -> ->.
              destruct Hrest as (-> & -> & _). left. now right.
           ++ right. eauto.
    + destruct (IH a0 (e0 ++ [k])) as (a & e & Hrun & Hlen & Hin).
      exists a, e. split; [exact Hrun|].
      rewrite length_app in Hlen. cbn [length] in Hlen |- *.
      split; [lia|]. intros key age ttl' exp. rewrite Hin.
      apply Z.ltb_ge in Hfresh. split.
      * intros [H|(data & ts' & H & Hrest)]; [now left|].
        right. exists data, ts'. split; [|exact Hrest].
        now apply list_elem_of_further.
      * intros [H|(data & ts' & H & Hrest)]; [now left|].
        apply elem_of_cons in H as [H|H].
        -- injection H as -> -> -> ->. lia.
        -- right. eauto.
Qed.

(** X15. [get_stats] never raises and changes nothing in the memory
    cache. It counts every key once, as active or as expired, and it
    lists as active exactly the keys that [get] would serve from memory at
    that time, each with its age and with the time it has left, which is
    positive. *)
Theorem get_stats_lists_what_get_would_serve (now : Z) (s : CacheManager) :
  exists ms cs s',
    get_stats json_dumps now s = (Val (ms, cs), s') /\
    cache s' = cache s /\
    total_keys ms = size (cache s) /\
    (active_keys ms + expired_keys ms = total_keys ms)%nat /\
    active_keys ms = length (cache_details ms) /\
    (forall key age ttl exp,
       (key, (age, ttl, exp)) ∈ cache_details ms <->
       exists data ts,
         cache s !! key = Some (data, ts, ttl) /\
         age = now - ts /\ exp = ttl - age /\ 0 < exp) /\
    (forall key,
       is_Some (Cache.fresh_entry now key s) <->
       key ∈ fst <$> cache_details ms) /\
    (chroma_cache s = None <-> cs = None).
Proof.
  destruct (memory_loop now (map_to_list (cache s)) [] [])
    as (a & e & Hrun & Hlen & Hin).
  cbn [length] in Hlen. rewrite length_map_to_list in Hlen.
  assert (forall key age ttl exp,
    (key, (age, ttl, exp)) ∈ a <->
    exists data ts,
      cache s !! key = Some (data, ts, ttl) /\
      age = now - ts /\ exp = ttl - age /\ 0 < exp) as Hin'.
  { intros key age ttl exp. rewrite Hin. split.
    - intros [H|(data & ts & H & -> & -> & Hlt)];
        [apply elem_of_nil in H; contradiction|].
      apply elem_of_map_to_list in H. exists data, ts.
      repeat split; try assumption; lia.
    - intros (data & ts & H & -> & -> & Hlt). right. exists data, ts.
      split; [now apply elem_of_map_to_list|]. repeat split; lia. }
  assert (forall key,
    is_Some (Cache.fresh_entry now key s) <-> key ∈ fst <$> a) as Hfresh.
  { intros key. rewrite list_elem_of_fmap. unfold Cache.fresh_entry. split.
    - destruct (cache s !! key) as [[[d ts] ttl]|] eqn:Hkey;
        [|intros [? ?]; discriminate].
      destruct (now - ts <? ttl) eqn:E; [|intros [? ?]; discriminate].
      intros _. apply Z.ltb_lt in E.
      exists (key, (now - ts, ttl, ttl - (now - ts))).
      split; [reflexivity|]. apply Hin'. exists d, ts.
      repeat split; try assumption; lia.
    - intros ([k [[age ttl] exp]] & -> & H). cbn [fst].
      apply Hin' in H as (d & ts & -> & -> & -> & Hlt).
      assert ((now - ts <? ttl) = true) as -> by (apply Z.ltb_lt; lia).
      eauto. }
  unfold get_stats, Cache.get_self.
  unfold mbind at 1, M_bind at 1, bind at 1. cbv zeta. rewrite Hrun.
  destruct s as [mem [c|]]; cbn [is_some chroma_cache cache] in *.
  - unfold Cache.on_chroma, try_except, mbind, M_bind, bind, ret.
    cbn [chroma_cache cache].
    destruct (get_stats_spec json_dumps now c) as (r & c' & Hstats & _).
    rewrite Hstats.
    eexists _, _, _. split; [reflexivity|].
    cbn [cache total_keys active_keys expired_keys cache_details].
    split; [reflexivity|]. split; [reflexivity|]. split; [lia|].
    split; [reflexivity|]. split; [exact Hin'|]. split; [exact Hfresh|].
    split; discriminate.
  - eexists _, _, _. split; [reflexivity|].
    cbn [cache total_keys active_keys expired_keys cache_details].
    split; [reflexivity|]. split; [reflexivity|]. split; [lia|].
    split; [reflexivity|]. split; [exact Hin'|]. split; [exact Hfresh|].
    split; reflexivity.
Qed.

End ManagerFacts.

Section ManagerExamples.
Import Cache.
Local Open Scope Z_scope.

(** An entry stored at 0 for 600 is served at 100, although the persistent
    store fails. *)
Lemma cache_set_then_get_witness :
  fst (Cache.get Cache.plain_digest 100 "k"
         (snd (Cache.set Cache.plain_digest 0 "k" Cache.empty_gainers 600
                 Cache.faulty_manager)))
  = Val (Some Cache.empty_gainers).
Proof.
  rewrite (cache_set_then_get Cache.plain_digest 0 100 "k"
             Cache.empty_gainers 600 Cache.faulty_manager); [reflexivity|].
  lia.
Defined.

(** The model stored at 0 for 600 is served at 700 as a dict. *)
Lemma expired_model_comes_back_as_dict_witness :
  exists s2,
    Cache.get Cache.plain_digest 700 "k"
      (snd (Cache.set Cache.plain_digest 0 "k"
              (PModel "TopGainersResponse"
                 (JObj [("top_gainers", JArr []); ("top_losers", JArr [])]))
              600 Cache.fresh_manager))
    = (Val (Some (PJson (JObj [("top_gainers", JArr []);
                               ("top_losers", JArr [])]))), s2) /\
    cache s2 !! "k" =
      Some (PJson (JObj [("top_gainers", JArr []); ("top_losers", JArr [])]),
            700, 300).
Proof.
  destruct (expired_model_comes_back_as_dict Cache.plain_digest 0 700 "k"
              "TopGainersResponse"
              (JObj [("top_gainers", JArr []); ("top_losers", JArr [])])
              600 Cache.fresh_manager _ _ eq_refl eq_refl eq_refl)
    as (s2 & Hrun & Hmem & _); try lia; [reflexivity|].
  exists s2. split; [exact Hrun|exact Hmem].
Defined.

(** After [clear] at 1000, the document written at 0 is served at 1000. *)
Lemma clear_keeps_recent_documents_witness :
  exists s1,
    clear 1000 {| cache := {["k" := (Cache.empty_gainers, 0, 600)]};
                  chroma_cache := Some Cache.old_store |} = (Val tt, s1) /\
    cache s1 = ∅ /\
    fst (Cache.get Cache.plain_digest 1000 "k" s1)
    = Val (Some (PJson (JObj [("top_gainers", JArr [JNum 1])]))).
Proof.
  apply (clear_keeps_recent_documents Cache.plain_digest 1000 1000 "k"
           {| cache := {["k" := (Cache.empty_gainers, 0, 600)]};
              chroma_cache := Some Cache.old_store |}
           Cache.old_store _
           {| doc_json := JObj [("top_gainers", JArr [JNum 1])];
              doc_endpoint := "k"; doc_timestamp := 0 |}
           eq_refl eq_refl eq_refl eq_refl eq_refl); cbn; lia.
Defined.

(** At 700, of the two entries of [two_entries] one is active. *)
Lemma get_stats_lists_what_get_would_serve_witness :
  exists ms cs s',
    get_stats (fun _ => "{}") 700 two_entries = (Val (ms, cs), s') /\
    total_keys ms = 2%nat /\
    (active_keys ms + expired_keys ms = 2)%nat /\
    "new" ∈ fst <$> cache_details ms.
Proof.
  destruct (get_stats_lists_what_get_would_serve (fun _ => "{}") 700
              two_entries)
    as (ms & cs & s' & Hrun & _ & Htotal & Hsum & _ & _ & Hfresh & _).
  exists ms, cs, s'. split; [exact Hrun|].
  assert (total_keys ms = 2%nat) as H2 by (rewrite Htotal; reflexivity).
  split; [exact H2|]. split; [lia|].
  apply Hfresh. vm_compute. eauto.
Defined.

End ManagerExamples.

Section MoreEndpointFacts.
Import Endpoint.
Local Open Scope Z_scope.

Variable h : string -> string.

(** A method of the manager called from the endpoint. *)
Lemma on_world_run {A} (m : Mcp.M A) (a : App) (r : result A)
    (w' : Mcp.World) :
  m (world a) = (r, w') ->
  Endpoint.on_world m a =
    (r, {| world := w'; cache_manager := cache_manager a |}).
Proof. intros H. unfold Endpoint.on_world. now rewrite H. Qed.

(** Reading the clock from the endpoint leaves all but the clock. *)
Lemma app_time_run (a : App) :
  exists a',
    Endpoint.on_world Mcp.time_time a =
      (Val (Mcp.clock (world a) + Z.of_nat (hd 0%nat (Mcp.delays (world a)))),
       a') /\
    cache_manager a' = cache_manager a /\
    Mcp.calls (world a') = Mcp.calls (world a) /\
    Mcp.upstream (world a') = Mcp.upstream (world a) /\
    Mcp.mgr (world a') = Mcp.mgr (world a) /\
    Mcp.delays (world a') = tl (Mcp.delays (world a)).
Proof.
  destruct a as [[m c ds ups n rec sl] cm].
  eexists. split; [reflexivity|]. cbn. repeat split.
Qed.

(** The fresh lookup from the endpoint: it never raises and sends nothing
    upstream. *)
Lemma app_cache_get_spec (key : string) (a : App) :
  let now := Mcp.clock (world a) + Z.of_nat (hd 0%nat (Mcp.delays (world a))) in
  exists r a',
    Endpoint.cache_get h key a = (Val r, a') /\
    Mcp.calls (world a') = Mcp.calls (world a) /\
    Mcp.upstream (world a') = Mcp.upstream (world a) /\
    Mcp.mgr (world a') = Mcp.mgr (world a) /\
    (forall v, Cache.fresh_entry now key (cache_manager a) = Some v ->
       r = Some v /\ cache_manager a' = cache_manager a).
Proof.
  cbv zeta. unfold Endpoint.cache_get. unfold mbind, M_bind, bind.
  destruct (app_time_run a) as (a1 & Hrun & Hcm & Hcalls & Hup & Hmgr & _).
  rewrite Hrun.
  destruct (cache_get_spec h
              (Mcp.clock (world a) + Z.of_nat (hd 0%nat (Mcp.delays (world a))))
              key (cache_manager a1))
    as (r & s' & Hget & Hhit & _).
  unfold Endpoint.on_cache_manager. rewrite Hget.
  exists r. eexists. split; [reflexivity|]. cbn [world cache_manager].
  split; [exact Hcalls|]. split; [exact Hup|]. split; [exact Hmgr|].
  intros v Hv. rewrite <- Hcm in Hv. destruct (Hhit v Hv) as [-> ->].
  split; [reflexivity|exact Hcm].
Qed.

Variable build : json -> result pyval.

(** The stale lookup followed by the empty response, as [fetch_data] has
    it three times: it never raises and sends nothing upstream. *)
Lemma stale_or_empty_total (key : string) (store_empty : bool) (a : App) :
  exists v a',
    (stale_data ← Endpoint.cache_get_stale h key;
     if opt_truthy truthy stale_data
     then ret (default Endpoint.empty_response stale_data)
     else
       if store_empty
       then Endpoint.cache_set h key Endpoint.empty_response 60;;
            ret Endpoint.empty_response
       else ret Endpoint.empty_response) a = (Val v, a') /\
    Mcp.calls (world a') = Mcp.calls (world a).
Proof.
  unfold mbind at 1, M_bind at 1, bind at 1.
  destruct (app_cache_get_stale_spec h key a) as (r & a1 & Hrun & _ & Hcalls).
  rewrite Hrun. destruct (opt_truthy truthy r).
  - eexists _, _. split; [reflexivity|exact Hcalls].
  - destruct store_empty.
    + unfold mbind, M_bind, bind.
      destruct (app_cache_set_spec h key Endpoint.empty_response 60 a1)
        as (t & a2 & Hset & _ & _ & _ & _ & Hcalls2).
      rewrite Hset. eexists _, _. split; [reflexivity|]. congruence.
    + eexists _, _. split; [reflexivity|exact Hcalls].
Qed.

(** [fetch_data] never raises, and makes at most three upstream
    invocations. *)
Lemma fetch_data_total (vs_currency duration top_coins : string) (a : App) :
  exists v a',
    Endpoint.fetch_data h build vs_currency duration top_coins a
      = (Val v, a') /\
    (Mcp.calls (world a) <= Mcp.calls (world a')
       <= Mcp.calls (world a) + 3)%nat.
Proof.
  unfold Endpoint.fetch_data, try_except, Endpoint.fetch_body.
  cbv zeta. unfold mbind at 1, M_bind at 1, bind at 1.
  destruct (McpFacts.call_tool_with_retry_spec "get_coins_top_gainers_losers"
              [("vs_currency", JStr vs_currency); ("duration", JStr duration);
               ("top_coins", JStr top_coins)] 3 (world a))
    as (data & w1 & Hmcp & Hcalls & _).
  rewrite (on_world_run (Mcp.get_top_gainers_losers vs_currency duration
                           top_coins) a (Val data) w1 Hmcp).
  set (a1 := {| world := w1; cache_manager := cache_manager a |}).
  assert (Mcp.calls (world a) <= Mcp.calls (world a1)
            <= Mcp.calls (world a) + 3)%nat as Hcalls1.
  { cbn. change (Z.to_nat 3) with 3%nat in Hcalls. exact Hcalls. }
  clearbody a1. clear Hmcp Hcalls.
  pose proof (stale_or_empty_total
                (Endpoint.cache_key vs_currency duration top_coins) true a1)
    as (v1 & a2 & Hstale & Hcalls2).
  pose proof (stale_or_empty_total
                (Endpoint.cache_key vs_currency duration top_coins) false)
    as Hhandler.
  destruct data as [d|]; [destruct (json_truthy d)|].
  - unfold mbind at 1, M_bind at 1, bind at 1.
    destruct (build d) as [response|e].
    + unfold mbind, M_bind, bind.
      destruct (app_cache_set_spec h
                  (Endpoint.cache_key vs_currency duration top_coins)
                  response Endpoint.CACHE_TTL_top_gainers_losers a1)
        as (t & a3 & Hset & _ & _ & _ & _ & Hcalls3).
      rewrite Hset. eexists _, _. split; [reflexivity|]. lia.
    + unfold Endpoint.fetch_handler. cbv zeta.
      destruct (Hhandler a1) as (v & a3 & Hrun & Hcalls3).
      rewrite Hrun. eexists _, _. split; [reflexivity|]. lia.
  - rewrite Hstale. eexists _, _. split; [reflexivity|]. lia.
  - rewrite Hstale. eexists _, _. split; [reflexivity|]. lia.
Qed.

(** X16. The endpoint [get_top_gainers_losers] always answers with a
    response, whatever the upstream answers, whatever the persistent
    store does and whether or not the response can be built; it makes at
    most three upstream invocations. *)
Theorem top_gainers_endpoint_never_raises
    (vs_currency duration top_coins : string) (a : App) :
  exists v a',
    Endpoint.get_top_gainers_losers h build vs_currency duration top_coins a
      = (Val v, a') /\
    (Mcp.calls (world a) <= Mcp.calls (world a')
       <= Mcp.calls (world a) + 3)%nat.
Proof.
  unfold Endpoint.get_top_gainers_losers. cbv zeta.
  unfold mbind at 1, M_bind at 1, bind at 1.
  destruct (app_cache_get_spec
              (Endpoint.cache_key vs_currency duration top_coins) a)
    as (r & a1 & Hget & Hcalls & _).
  rewrite Hget. destruct (opt_truthy truthy r).
  - eexists _, _. split; [reflexivity|]. lia.
  - destruct (fetch_data_total vs_currency duration top_coins a1)
      as (v & a2 & Hrun & Hcalls2).
    exists v, a2. split; [exact Hrun|]. lia.
Qed.

(** The [try] block of [get_coins_markets] never raises. *)
Lemma coins_markets_body_total (vs_currency order : string)
    (per_page page : Z) (pcp : string) (a : App) :
  exists v a',
    coins_markets_body h vs_currency order per_page page pcp a
      = (Val v, a') /\
    (Mcp.calls (world a) <= Mcp.calls (world a')
       <= Mcp.calls (world a) + 3)%nat.
Proof.
  unfold coins_markets_body. cbv zeta.
  unfold mbind at 1, M_bind at 1, bind at 1.
  destruct (McpFacts.call_tool_with_retry_spec "get_coins_markets"
              [("vs_currency", JStr vs_currency); ("order", JStr order);
               ("per_page", JNum per_page); ("page", JNum page);
               ("sparkline", JBool false);
               ("price_change_percentage", JStr pcp)] 3 (world a))
    as (data & w1 & Hmcp & Hcalls & _).
  rewrite (on_world_run (Mcp.get_coins_markets _) a (Val data) w1 Hmcp).
  change (Z.to_nat 3) with 3%nat in Hcalls.
  destruct (opt_truthy json_truthy data); unfold mbind, M_bind, bind;
    match goal with
    | |- context [Endpoint.cache_set h ?k ?d ?ttl ?b] =>
      destruct (app_cache_set_spec h k d ttl b)
        as (t & a3 & Hset & _ & _ & _ & _ & Hcalls3)
    end;
    rewrite Hset; cbn [world] in Hcalls3;
    eexists _, _; (split; [reflexivity|lia]).
Qed.

(** X17. The endpoint [get_coins_markets] always answers, with the data
    or with a list, and makes at most three upstream invocations. *)
Theorem coins_markets_endpoint_never_raises (vs_currency order : string)
    (per_page page : Z) (price_change_percentage : string) (a : App) :
  exists v a',
    get_coins_markets h vs_currency order per_page page
      price_change_percentage a = (Val v, a') /\
    (Mcp.calls (world a) <= Mcp.calls (world a')
       <= Mcp.calls (world a) + 3)%nat.
Proof.
  unfold get_coins_markets. cbv zeta.
  unfold mbind at 1, M_bind at 1, bind at 1.
  destruct (app_cache_get_spec
              (coins_markets_key vs_currency order per_page page
                 price_change_percentage) a)
    as (r & a1 & Hget & Hcalls & _).
  rewrite Hget. destruct (opt_truthy truthy r).
  - eexists _, _. split; [reflexivity|]. lia.
  - unfold try_except.
    destruct (coins_markets_body_total vs_currency order per_page page
                price_change_percentage a1) as (v & a2 & Hrun & Hcalls2).
    rewrite Hrun. exists v, a2. split; [reflexivity|]. lia.
Qed.

(** X18. The empty list that [get_coins_markets] stores for a minute
    when the upstream gives nothing is never served: a request that finds
    it, or any other false value, unexpired in the memory cache goes
    upstream all the same, and returns and stores what the upstream
    answers. *)
Theorem coins_markets_false_entry_is_not_served (vs_currency order : string)
    (per_page page : Z) (price_change_percentage : string) (a : App)
    (v : pyval) (d : json) (rest : list Mcp.outcome) :
  let key := coins_markets_key vs_currency order per_page page
               price_change_percentage in
  let now := Mcp.clock (world a) + Z.of_nat (hd 0%nat (Mcp.delays (world a))) in
  Cache.fresh_entry now key (cache_manager a) = Some v ->
  truthy v = false ->
  Mcp._circuit_breaker_open (Mcp.mgr (world a)) = false ->
  Mcp._max_requests_per_minute (Mcp.mgr (world a)) <> 0%nat ->
  Mcp.upstream (world a) = Mcp.Success d :: rest ->
  json_truthy d = true ->
  exists t a',
    get_coins_markets h vs_currency order per_page page
      price_change_percentage a = (Val (PJson d), a') /\
    Mcp.calls (world a') = S (Mcp.calls (world a)) /\
    cache (cache_manager a') !! key
      = Some (PJson d, t, CACHE_TTL_coins_markets).
Proof.
  cbv zeta. intros Hfresh Hfalse Hopen Hmax Hup Htrue.
  unfold get_coins_markets. cbv zeta.
  unfold mbind at 1, M_bind at 1, bind at 1.
  destruct (app_cache_get_spec
              (coins_markets_key vs_currency order per_page page
                 price_change_percentage) a)
    as (r & a1 & Hget & Hcalls & Hup1 & Hmgr1 & Hhit).
  rewrite Hget. destruct (Hhit v Hfresh) as [-> Hcm]. cbn [opt_truthy].
  rewrite Hfalse. unfold try_except, coins_markets_body. cbv zeta.
  unfold mbind at 1, M_bind at 1, bind at 1.
  destruct (RetryFacts.call_run_success "get_coins_markets"
              [("vs_currency", JStr vs_currency); ("order", JStr order);
               ("per_page", JNum per_page); ("page", JNum page);
               ("sparkline", JBool false);
               ("price_change_percentage", JStr price_change_percentage)]
              3 (world a1) [] d rest)
    as (w2 & Hmcp & Hcalls2 & _).
  { apply RetryFacts.check_of_closed. congruence. }
  { congruence. }
  { cbn. congruence. }
  { cbn. lia. }
  { cbn. lia. }
  rewrite (on_world_run (Mcp.get_coins_markets _) a1 _ w2 Hmcp).
  cbn [opt_truthy default]. rewrite Htrue. unfold mbind, M_bind, bind.
  match goal with
  | |- context [Endpoint.cache_set h ?k ?x ?ttl ?b] =>
    destruct (app_cache_set_spec h k x ttl b)
      as (t & a3 & Hset & Hmem & _ & _ & _ & Hcalls3)
  end.
  rewrite Hset. exists t, a3. split; [reflexivity|].
  cbn [world] in Hcalls3. cbn [length] in Hcalls2.
  split; [lia|]. rewrite Hmem. apply lookup_insert_eq.
Qed.

End MoreEndpointFacts.

Section MoreEndpointExamples.
Import Endpoint.
Local Open Scope Z_scope.

Lemma top_gainers_endpoint_never_raises_witness :
  exists v a',
    Endpoint.get_top_gainers_losers Cache.plain_digest Endpoint.reject_all
      "usd" "24h" "1000" Endpoint.answered_app = (Val v, a').
Proof.
  destruct (top_gainers_endpoint_never_raises Cache.plain_digest
              Endpoint.reject_all "usd" "24h" "1000" Endpoint.answered_app)
    as (v & a' & Hrun & _).
  exists v, a'. exact Hrun.
Defined.

Lemma coins_markets_endpoint_never_raises_witness :
  exists v a',
    get_coins_markets Cache.plain_digest "usd" "market_cap_desc" 100 1
      "1h,24h,7d" Endpoint.cold_app = (Val v, a').
Proof.
  destruct (coins_markets_endpoint_never_raises Cache.plain_digest
              "usd" "market_cap_desc" 100 1 "1h,24h,7d" Endpoint.cold_app)
    as (v & a' & Hrun & _).
  exists v, a'. exact Hrun.
Defined.

(** The empty list stored ten seconds before does not keep the request
    from the upstream. *)
Lemma coins_markets_false_entry_is_not_served_witness :
  exists a',
    get_coins_markets Cache.plain_digest "usd" "market_cap_desc" 100 1
      "1h,24h,7d" negative_app
    = (Val (PJson (JArr [JObj [("id", JStr "bitcoin")]])), a') /\
    Mcp.calls (world a') = 1%nat.
Proof.
  destruct (coins_markets_false_entry_is_not_served Cache.plain_digest
              "usd" "market_cap_desc" 100 1 "1h,24h,7d" negative_app
              (PJson (JArr [])) (JArr [JObj [("id", JStr "bitcoin")]]) [])
    as (t & a' & Hrun & Hcalls & _).
  - vm_compute. reflexivity.
  - reflexivity.
  - reflexivity.
  - cbn. lia.
  - reflexivity.
  - reflexivity.
  - exists a'. split; [exact Hrun|exact Hcalls].
Defined.

End MoreEndpointExamples.

Module MoreCoalescerFacts.
Import Coalescer CoalescerFacts.

(** X19. Once all the callers have returned, no request is registered
    any more and no task is still running: the [finally] block has run
    for every request, also for those that raised. *)
Theorem nothing_registered_once_all_returned (ks : list string)
    (ans : list (result pyval)) (schedule : list event) (s : State) :
  run schedule (initial ks ans) = Some s ->
  Forall returned (callers s) ->
  _active_requests s = ∅ /\ forall t, tasks s !! t <> Some None.
Proof.
  intros Hrun Hall.
  destruct (run_inv schedule _ _ (initial_inv ks ans) Hrun) as [Hinv _].
  assert (forall i c t, callers s !! i = Some c -> at_pc c <> AwaitOwn t)
    as Hnone.
  { intros i c t Hi Hat.
    pose proof (Forall_lookup_1 _ _ _ _ Hall Hi) as Hret.
    unfold returned in Hret. rewrite Hat in Hret. exact Hret. }
  split.
  - apply map_empty. intros k.
    destruct (_active_requests s !! k) as [t|] eqn:Hk; [|reflexivity].
    destruct (ci_active s Hinv k t Hk) as (i & c & Hi & _ & Hat).
    destruct (Hnone i c t Hi Hat).
  - intros t Ht. destruct (ci_running s Hinv t Ht) as (i & c & Hi & Hat).
    exact (Hnone i c t Hi Hat).
Qed.

(** A lone caller gets what its request returns, or raises what it
    raises, and leaves nothing registered. *)
Lemma nothing_registered_once_all_returned_witness :
  exists s,
    run alone (initial ["trending_coins"] [Exc "boom"]) = Some s /\
    callers s = [{| key := "trending_coins"; at_pc := Returned (Exc "boom") |}]
    /\ _active_requests s = ∅.
Proof.
  assert (exists s, run alone (initial ["trending_coins"] [Exc "boom"])
                    = Some s /\
            callers s = [{| key := "trending_coins";
                            at_pc := Returned (Exc "boom") |}])
    as (s & Hrun & Hcs).
  { eexists. split; [vm_compute; reflexivity|reflexivity]. }
  exists s. split; [exact Hrun|]. split; [exact Hcs|].
  apply (nothing_registered_once_all_returned _ _ _ _ Hrun).
  rewrite Hcs. repeat constructor.
Defined.

(** A step of a caller [i] whose key gets a lock: what becomes of the
    callers. *)
Lemma set_pc_effect (i : nat) (p : pc) (c : caller) (l : Lock)
    (locks : gmap string Lock) (cs : list caller) :
  cs !! i = Some c ->
  forall j c',
    set_pc i p cs !! j = Some c' ->
    exists c0,
      cs !! j = Some c0 /\ key c' = key c0 /\
      (at_pc c' = at_pc c0 \/ is_Some (<[key c := l]> locks !! key c0)).
Proof.
  intros Hi j c' Hj. rewrite lookup_set_pc in Hj.
  destruct (decide (i = j)) as [<-|Hne].
  - rewrite Hi in Hj. cbn in Hj. injection Hj as <-. exists c.
    split; [exact Hi|]. split; [reflexivity|]. right.
    rewrite lookup_insert_eq. eauto.
  - exists c'. split; [exact Hj|]. split; [reflexivity|now left].
Qed.

(** No step removes a lock; and a caller that a step moves has the lock
    of its key afterwards. *)
Lemma step_effect (e : event) (s s' : State) :
  coal_inv s -> step e s = Some s' ->
  (forall k, is_Some (_request_locks s !! k) ->
             is_Some (_request_locks s' !! k)) /\
  (forall j c',
     callers s' !! j = Some c' ->
     exists c,
       callers s !! j = Some c /\ key c' = key c /\
       (at_pc c' = at_pc c \/ is_Some (_request_locks s' !! key c))).
Proof.
  intros Hinv Hstep.
  assert (forall (k : string) (l : Lock) (k' : string),
            is_Some (_request_locks s !! k') ->
            is_Some (<[k := l]> (_request_locks s) !! k')) as Hmono.
  { intros k l k' H. apply lookup_insert_is_Some.
    destruct (decide (k = k')); [now left|now right]. }
  destruct e as [i|t]; cbn in Hstep.
  - unfold step_caller in Hstep.
    destruct (callers s !! i) as [c|] eqn:Hi; [|discriminate].
    cbv zeta in Hstep.
    destruct (at_pc c) as [|[|]|t|t|r] eqn:Hat; try discriminate.
    + destruct (_ && _); injection Hstep as <-;
        unfold enter, wait_for_lock, put_lock; cbn;
        try destruct (_active_requests s !! key c); cbn;
        (split; [apply Hmono|]); eapply set_pc_effect; eassumption.
    + injection Hstep as <-. unfold enter, put_lock. cbn.
      destruct (_active_requests s !! key c); cbn;
        (split; [apply Hmono|]); eapply set_pc_effect; eassumption.
    + destruct (ci_no_shared s Hinv i c t Hi Hat).
    + destruct (tasks s !! t) as [[r|]|] eqn:Ht; try discriminate.
      injection Hstep as <-. rewrite release_state. cbn.
      split; [apply Hmono|].
      destruct (_waiters (lock_of (key c) s)) as [|w ws] eqn:Hws.
      * eapply set_pc_effect; eassumption.
      * assert (w ∈ _waiters (lock_of (key c) s)) as Hw
          by (rewrite Hws; apply list_elem_of_here).
        destruct (ci_waiters s Hinv (key c) w Hw) as (cw & b & Hcw & Hkw & _).
        intros j c' Hj. rewrite lookup_set_pc in Hj.
        destruct (decide (w = j)) as [<-|Hne].
        -- destruct (set_pc i (Returned r) (callers s) !! w) as [c1|] eqn:H1;
             [|discriminate].
           cbn in Hj. injection Hj as <-.
           destruct (set_pc_effect i (Returned r) c
                       {| _locked := false; _waiters := w :: ws |}
                       (_request_locks s) (callers s) Hi w c1 H1)
             as (c0 & Hc0 & Hk0 & _).
           exists c0. split; [exact Hc0|]. split; [exact Hk0|]. right.
           rewrite Hcw in Hc0. injection Hc0 as <-. rewrite Hkw.
           rewrite lookup_insert_eq. eauto.
        -- eapply set_pc_effect; eassumption.
  - unfold step_complete in Hstep.
    destruct (tasks s !! t) as [[r|]|]; try discriminate.
    injection Hstep as <-. cbn. split; [auto|].
    intros j c' Hj. exists c'. split; [exact Hj|]. split; [reflexivity|].
    now left.
Qed.

Lemma run_locks (schedule : list event) :
  forall s s' : State,
    coal_inv s -> run schedule s = Some s' ->
    (forall i c, callers s !! i = Some c -> at_pc c <> Start ->
                 is_Some (_request_locks s !! key c)) ->
    (forall k, is_Some (_request_locks s !! k) ->
               is_Some (_request_locks s' !! k)) /\
    (forall i c, callers s' !! i = Some c -> at_pc c <> Start ->
                 is_Some (_request_locks s' !! key c)).
Proof.
  induction schedule as [|e rest IH]; intros s s' Hinv Hrun Hlocks;
    cbn in Hrun.
  - injection Hrun as <-. split; [auto|exact Hlocks].
  - destruct (step e s) as [s1|] eqn:Hstep; [|discriminate].
    destruct (step_inv e s s1 Hinv Hstep) as [Hinv1 _].
    destruct (step_effect e s s1 Hinv Hstep) as [Hmono Hcallers].
    destruct (IH s1 s' Hinv1 Hrun) as [Hmono' Hlocks'].
    + intros i c' Hi Hat.
      destruct (Hcallers i c' Hi) as (c & Hc & Hk & [Hsame|Hlock]).
      * rewrite Hk. apply Hmono, (Hlocks i c Hc). congruence.
      * now rewrite Hk.
    + split; [auto|exact Hlocks'].
Qed.

(** X20. The locks of [_request_locks] are never removed: every call
    that has started to run finds the lock of its key there at any later
    time, and once all the calls have returned every requested key still
    has its lock. *)
Theorem every_requested_key_keeps_its_lock (ks : list string)
    (ans : list (result pyval)) (schedule : list event) (s : State) :
  run schedule (initial ks ans) = Some s ->
  (forall i c, callers s !! i = Some c -> at_pc c <> Start ->
               is_Some (_request_locks s !! key c)) /\
  (Forall returned (callers s) ->
   forall k, k ∈ ks -> is_Some (_request_locks s !! k)).
Proof.
  intros Hrun.
  destruct (run_inv schedule _ _ (initial_inv ks ans) Hrun) as [Hinv Hlen].
  destruct (run_locks schedule _ _ (initial_inv ks ans) Hrun) as [_ Hlocks].
  { intros i c Hi Hat. cbn in Hi. rewrite list_lookup_fmap in Hi.
    destruct (ks !! i); [|discriminate]. injection Hi as <-.
    now destruct Hat. }
  split; [exact Hlocks|]. intros Hall k Hk.
  apply list_elem_of_lookup in Hk as [i Hi].
  assert (exists c, callers s !! i = Some c /\ key c = k) as (c & Hc & <-).
  { clear Hlocks Hall Hinv Hlen. revert s Hrun.
    assert (forall s0, (exists c0, callers s0 !! i = Some c0 /\ key c0 = k) ->
              forall s, run schedule s0 = Some s ->
              exists c, callers s !! i = Some c /\ key c = k) as Hkeys.
    { induction schedule as [|e rest IH]; intros s0 H0 s Hrun;
        cbn in Hrun.
      - now injection Hrun as <-.
      - destruct (step e s0) as [s1|] eqn:Hstep; [|discriminate].
        apply (IH s1); [|exact Hrun]. clear IH Hrun.
        destruct H0 as (c0 & Hc0 & Hk0).
        destruct e as [j|t]; cbn in Hstep.
        + unfold step_caller in Hstep.
          destruct (callers s0 !! j) as [cj|] eqn:Hj; [|discriminate].
          cbv zeta in Hstep.
          assert (forall p, exists c,
                    set_pc j p (callers s0) !! i = Some c /\ key c = k)
            as Hset.
          { intros p. rewrite lookup_set_pc.
            destruct (decide (j = i)) as [->|]; [|eauto].
            rewrite Hc0. cbn. eauto. }
          assert (forall p q w, exists c,
                    set_pc w q (set_pc j p (callers s0)) !! i = Some c /\
                    key c = k) as Hset2.
          { intros p q w. rewrite lookup_set_pc.
            destruct (Hset p) as (c & Hc & Hk).
            destruct (decide (w = i)) as [->|]; [|eauto].
            rewrite Hc. cbn. eauto. }
          destruct (at_pc cj) as [|[|]|t|t|r]; try discriminate.
          * destruct (_ && _); injection Hstep as <-;
              unfold enter, wait_for_lock, put_lock; cbn;
              try destruct (_active_requests s0 !! key cj); cbn; apply Hset.
          * injection Hstep as <-. unfold enter, put_lock. cbn.
            destruct (_active_requests s0 !! key cj); cbn; apply Hset.
          * destruct (tasks s0 !! t) as [[r|]|]; try discriminate.
            injection Hstep as <-. unfold release, finish, put_lock. cbn.
            destruct (_waiters _); cbn; [apply Hset|apply Hset2].
          * destruct (tasks s0 !! t) as [[r|]|]; try discriminate.
            injection Hstep as <-. rewrite release_state. cbn.
            destruct (_waiters _); cbn; [apply Hset|apply Hset2].
        + unfold step_complete in Hstep.
          destruct (tasks s0 !! t) as [[r|]|]; try discriminate.
          injection Hstep as <-. cbn. eauto. }
    intros s Hrun. apply (Hkeys (initial ks ans)); [|exact Hrun].
    cbn. rewrite list_lookup_fmap, Hi. cbn. eauto. }
  apply (Hlocks i c Hc).
  pose proof (Forall_lookup_1 _ _ _ _ Hall Hc) as Hret.
  unfold returned in Hret. intros Hat. now rewrite Hat in Hret.
Qed.

(** Two callers, one after the other: the lock of their key is still
    there when both have returned. *)
Lemma every_requested_key_keeps_its_lock_witness :
  exists s,
    run one_after_the_other two_callers = Some s /\
    Forall returned (callers s) /\
    is_Some (_request_locks s !! "global_market_data").
Proof.
  assert (exists s, run one_after_the_other two_callers = Some s /\
            callers s =
              [{| key := "global_market_data";
                  at_pc := Returned (Val (PJson (JNum 1))) |};
               {| key := "global_market_data";
                  at_pc := Returned (Val (PJson (JNum 2))) |}])
    as (s & Hrun & Hcs).
  { eexists. split; [vm_compute; reflexivity|reflexivity]. }
  exists s. split; [exact Hrun|].
  assert (Forall returned (callers s)) as Hall
    by (rewrite Hcs; repeat constructor).
  split; [exact Hall|].
  destruct (every_requested_key_keeps_its_lock _ _ _ _ Hrun) as [_ Hkeys].
  apply (Hkeys Hall). apply list_elem_of_here.
Defined.

End MoreCoalescerFacts.

Module LimiterFacts.
Local Open Scope Z_scope.

Lemma count_in_span_snoc (width a t : Z) (l : list Z) :
  count_in_span width a (l ++ [t]) =
  (count_in_span width a l + if in_span width a t then 1 else 0)%nat.
Proof.
  unfold count_in_span. rewrite List.filter_app, length_app. cbn.
  destruct (in_span width a t); reflexivity.
Qed.

Lemma filter_length_le {A} (p q : A -> bool) (l : list A) :
  (forall x, In x l -> p x = true -> q x = true) ->
  (length (List.filter p l) <= length (List.filter q l))%nat.
Proof.
  induction l as [|x l IH]; intros H; [cbn; lia|].
  assert (length (List.filter p l) <= length (List.filter q l))%nat as Hl
    by (apply IH; intros y Hy; apply H; now right).
  cbn. destruct (p x) eqn:Hp.
  - rewrite (H x (or_introl eq_refl) Hp). cbn. lia.
  - destruct (q x); cbn; lia.
Qed.

(** Admitting a request at [now] when fewer than [n] admitted requests
    are younger than [width] keeps every span of [width] at [n] requests
    or fewer. *)
Lemma span_admit (width now : Z) (n : nat) (adm : list Z) :
  (forall a, (count_in_span width a adm <= n)%nat) ->
  (length (List.filter (fun t => (now - t <? width)%Z) adm) < n)%nat ->
  forall a, (count_in_span width a (adm ++ [now]) <= n)%nat.
Proof.
  intros Hinv Hroom a. rewrite count_in_span_snoc.
  destruct (in_span width a now) eqn:Hnow; [|specialize (Hinv a); lia].
  assert (count_in_span width a adm
          <= length (List.filter (fun t => (now - t <? width)%Z) adm))%nat.
  { apply filter_length_le. intros t _ Ht. unfold in_span in Hnow, Ht.
    apply andb_prop in Hnow as [_ Hn]. apply andb_prop in Ht as [Ha _].
    apply Z.ltb_lt in Hn. apply Z.leb_le in Ha. apply Z.ltb_lt. lia. }
  lia.
Qed.

(** Pruning again, later, what was pruned before. *)
Lemma prune_again (width c now : Z) (adm : list Z) :
  c <= now ->
  List.filter (fun t => now - t <? width)
    (List.filter (fun t => c - t <? width) adm) =
  List.filter (fun t => now - t <? width) adm.
Proof.
  intros Hle. apply McpFacts.filter_filter_implies.
  intros t _ Ht. apply Z.ltb_lt in Ht. apply Z.ltb_lt. lia.
Qed.

Import CoinAnalysis.

Lemma run_checks_inv (nows : list Z) :
  forall (last : Z) (ts adm0 : list Z),
    ascending last nows ->
    ts = List.filter (fun t => last - t <? 60) adm0 ->
    (forall a, (count_in_span 60 a adm0 <= MAX_REQUESTS_PER_MINUTE)%nat) ->
    forall a,
      (count_in_span 60 a (adm0 ++ fst (run_checks nows ts))
       <= MAX_REQUESTS_PER_MINUTE)%nat.
Proof.
  induction nows as [|now nows IH]; intros last ts adm0 Hasc Hts Hinv a.
  - cbn. rewrite app_nil_r. apply Hinv.
  - destruct Hasc as [Hle Hasc]. cbn [run_checks]. unfold check_rate_limit.
    assert (List.filter (fun t => now - t <? 60) ts =
            List.filter (fun t => now - t <? 60) adm0) as Hprune.
    { rewrite Hts. now apply prune_again. }
    rewrite Hprune.
    destruct (MAX_REQUESTS_PER_MINUTE <=? _)%nat eqn:Hfull.
    + specialize (IH now _ adm0 Hasc eq_refl Hinv a).
      destruct (run_checks nows _) as [adm ts']. exact IH.
    + apply Nat.leb_gt in Hfull.
      specialize (IH now (List.filter (fun t => now - t <? 60) adm0 ++ [now])
                    (adm0 ++ [now]) Hasc).
      destruct (run_checks nows _) as [adm ts']. cbn [fst] in IH |- *.
      replace (adm0 ++ now :: adm) with ((adm0 ++ [now]) ++ adm)
        by (rewrite <- app_assoc; reflexivity).
      apply IH.
      * rewrite List.filter_app. cbn.
        replace (now - now) with 0 by lia. reflexivity.
      * now apply span_admit.
Qed.

(** X21. Of the requests that [check_rate_limit] admits, at most
    [MAX_REQUESTS_PER_MINUTE] = 10 fall in any span of 60 seconds,
    whatever the times of the calls, as long as the clock does not go
    backwards; the requests it refuses do not count. *)
Theorem check_rate_limit_window (t0 : Z) (nows : list Z) (a : Z) :
  ascending t0 nows ->
  (count_in_span 60 a (fst (run_checks nows []))
   <= MAX_REQUESTS_PER_MINUTE)%nat.
Proof.
  intros Hasc.
  apply (run_checks_inv nows t0 [] [] Hasc eq_refl).
  intros a'. cbn. lia.
Qed.

(** Twelve calls in the same second: ten are admitted. *)
Lemma check_rate_limit_window_witness :
  fst (run_checks (repeat 5%Z 12%nat) []) = repeat 5%Z 10%nat /\
  (count_in_span 60 0 (fst (run_checks (repeat 5%Z 12%nat) [])) <= 10)%nat.
Proof.
  split; [reflexivity|].
  apply (check_rate_limit_window 0 (repeat 5%Z 12%nat) 0).
  cbn. repeat split; lia.
Defined.

Import ChatAgent.

(** The settings of a limiter are never changed. *)
Lemma is_allowed_settings (now : Z) (ip : string) (self : RateLimiter) :
  max_requests (snd (is_allowed now ip self)) = max_requests self /\
  window_seconds (snd (is_allowed now ip self)) = window_seconds self /\
  block_duration (snd (is_allowed now ip self)) = block_duration self.
Proof.
  unfold is_allowed, count_request.
  destruct (blocked_ips self !! ip) as [b|];
    [destruct (now - b <? block_duration self); [repeat split|]|];
    destruct (requests _ !! ip); cbn;
    destruct (_ <=? _)%nat; repeat split.
Qed.

(** A call for a client leaves the other clients as they are. *)
Lemma is_allowed_other (now : Z) (ip other : string) (self : RateLimiter) :
  ip <> other ->
  requests (snd (is_allowed now ip self)) !! other = requests self !! other /\
  blocked_ips (snd (is_allowed now ip self)) !! other
    = blocked_ips self !! other.
Proof.
  intros Hne. unfold is_allowed, count_request.
  destruct (blocked_ips self !! ip) as [b|];
    [destruct (now - b <? block_duration self); [split; reflexivity|]|];
    destruct (requests _ !! ip); cbn;
    destruct (_ <=? _)%nat; cbn;
    rewrite ?lookup_insert_ne, ?lookup_delete_ne by exact Hne;
    split; reflexivity.
Qed.

(** What a call does to the requests of its client: nothing when it is
    blocked; otherwise the old requests go, and the call is recorded when
    fewer than [max_requests] are left. *)
Lemma is_allowed_same (now : Z) (ip : string) (self : RateLimiter) :
  let old := default [] (requests self !! ip) in
  let recent :=
    List.filter (fun t => now - t <? window_seconds self) old in
  (is_allowed now ip self = (false, self)) \/
  (fst (is_allowed now ip self) = false /\
   default [] (requests (snd (is_allowed now ip self)) !! ip) = recent) \/
  (fst (is_allowed now ip self) = true /\
   (length recent < max_requests self)%nat /\
   default [] (requests (snd (is_allowed now ip self)) !! ip)
     = recent ++ [now]).
Proof.
  cbv zeta. unfold is_allowed, count_request.
  destruct (blocked_ips self !! ip) as [b|];
    [destruct (now - b <? block_duration self); [now left|]|];
    right;
    destruct (requests self !! ip) as [reqs|] eqn:Hreqs; cbn;
    rewrite ?Hreqs, ?lookup_insert_eq; cbn;
    destruct (_ <=? _)%nat eqn:Hfull; cbn;
    rewrite ?lookup_insert_eq; cbn;
    rewrite ?Hreqs in Hfull |- *; cbn in Hfull |- *;
    try rewrite Hreqs in Hfull; try rewrite Hreqs;
    try rewrite lookup_insert_eq in Hfull; cbn in Hfull |- *;
    first [left; split; reflexivity
          |right; apply Nat.leb_gt in Hfull;
           split; [reflexivity|]; split; [exact Hfull|reflexivity]].
Qed.

Lemma run_requests_inv (ip : string) (calls : list (Z * string)) :
  forall (last c : Z) (self : RateLimiter) (adm0 : list Z),
    ascending last (fst <$> calls) -> c <= last ->
    0 < window_seconds self ->
    default [] (requests self !! ip)
      = List.filter (fun t => c - t <? window_seconds self) adm0 ->
    (forall a,
       (count_in_span (window_seconds self) a adm0 <= max_requests self)%nat) ->
    forall a,
      (count_in_span (window_seconds self) a
         (adm0 ++ admitted ip calls (fst (run_requests calls self)))
       <= max_requests self)%nat.
Proof.
  induction calls as [|[now ip'] calls IH];
    intros last c self adm0 Hasc Hc Hpos Hreqs Hinv a.
  - cbn. rewrite app_nil_r. apply Hinv.
  - destruct Hasc as [Hle Hasc]. cbn [fst] in Hle. cbn [run_requests].
    destruct (is_allowed_settings now ip' self) as (Hmax & Hwin & _).
    pose proof (is_allowed_other now ip' ip self) as Hother.
    pose proof (is_allowed_same now ip self) as Hsame. cbv zeta in Hsame.
    destruct (String.eqb ip' ip) eqn:Heq.
    + apply String.eqb_eq in Heq. subst ip'. clear Hother.
      destruct (is_allowed now ip self) as [ok self1] eqn:Hstep.
      cbn [fst snd] in *.
      assert (List.filter (fun t => now - t <? window_seconds self)
                (default [] (requests self !! ip)) =
              List.filter (fun t => now - t <? window_seconds self) adm0)
        as Hprune.
      { rewrite Hreqs. apply prune_again. lia. }
      rewrite Hprune in Hsame.
      destruct Hsame as [Hblocked|[[-> Hnew]|(-> & Hroom & Hnew)]].
      * injection Hblocked as -> ->.
        specialize (IH now c self adm0 Hasc ltac:(lia) Hpos Hreqs Hinv a).
        destruct (run_requests calls self) as [oks self2].
        cbn [fst admitted andb] in IH |- *. exact IH.
      * specialize (IH now now self1 adm0 Hasc ltac:(lia)).
        rewrite Hwin, Hmax in IH.
        specialize (IH Hpos Hnew Hinv a).
        destruct (run_requests calls self1) as [oks self2].
        cbn [fst admitted andb] in IH |- *. exact IH.
      * specialize (IH now now self1 (adm0 ++ [now]) Hasc ltac:(lia)).
        rewrite Hwin, Hmax in IH.
        destruct (run_requests calls self1) as [oks self2].
        cbn [fst admitted andb] in IH |- *.
        rewrite String.eqb_refl.
        replace (adm0 ++ now :: admitted ip calls oks)
          with ((adm0 ++ [now]) ++ admitted ip calls oks)
          by (rewrite <- app_assoc; reflexivity).
        apply IH.
        -- exact Hpos.
        -- rewrite Hnew, List.filter_app. cbn.
           replace (now - now) with 0 by lia.
           apply Z.ltb_lt in Hpos. rewrite Hpos. reflexivity.
        -- now apply span_admit.
    + apply String.eqb_neq in Heq. destruct (Hother Heq) as [Hr _].
      clear Hsame.
      destruct (is_allowed now ip' self) as [ok self1] eqn:Hstep.
      cbn [fst snd] in *.
      specialize (IH now c self1 adm0 Hasc ltac:(lia)).
      rewrite Hwin, Hmax, Hr in IH. specialize (IH Hpos Hreqs Hinv a).
      destruct (run_requests calls self1) as [oks self2].
      cbn [fst admitted] in IH |- *.
      assert (String.eqb ip' ip = false) as -> by now apply String.eqb_neq.
      rewrite andb_false_r. exact IH.
Qed.

(** X22. From a new [RateLimiter] on, and as long as the clock does not
    go backwards: of the requests of a client that [is_allowed] admits, at
    most [max_requests] fall in any span of [window_seconds], however the
    requests of the clients are interleaved. *)
Theorem rate_limiter_window_per_client (n : nat) (width t0 : Z)
    (calls : list (Z * string)) (ip : string) (a : Z) :
  0 < width ->
  ascending t0 (fst <$> calls) ->
  (count_in_span width a
     (admitted ip calls (fst (run_requests calls (__init__ n width)))) <= n)%nat.
Proof.
  intros Hpos Hasc.
  apply (run_requests_inv ip calls t0 t0 (__init__ n width) [] Hasc
           ltac:(lia) Hpos eq_refl).
  intros a'. cbn. lia.
Qed.

(** A blocked client is refused, and nothing changes for it, as long as
    [block_duration] has not passed since the block. *)
Lemma run_requests_blocked (ip : string) (b : Z)
    (calls : list (Z * string)) :
  forall self : RateLimiter,
    blocked_ips self !! ip = Some b ->
    Forall (fun call => fst call - b < block_duration self) calls ->
    blocked_ips (snd (run_requests calls self)) !! ip = Some b /\
    requests (snd (run_requests calls self)) !! ip = requests self !! ip /\
    forall i now,
      calls !! i = Some (now, ip) ->
      fst (run_requests calls self) !! i = Some false.
Proof.
  induction calls as [|[now ip'] calls IH]; intros self Hb Hall.
  - cbn. repeat split; try assumption. intros i now H.
    rewrite lookup_nil in H. discriminate.
  - apply Forall_cons in Hall as [Hnow Hall]. cbn [fst] in Hnow.
    cbn [run_requests].
    destruct (is_allowed_settings now ip' self) as (_ & _ & Hdur).
    destruct (decide (ip' = ip)) as [->|Hne].
    + assert (is_allowed now ip self = (false, self)) as Hstep.
      { unfold is_allowed. rewrite Hb.
        apply Z.ltb_lt in Hnow. now rewrite Hnow. }
      rewrite Hstep. destruct (IH self Hb Hall) as (Hb' & Hr' & Hoks).
      destruct (run_requests calls self) as [oks self2]. cbn [fst snd] in *.
      repeat split; try assumption.
      intros [|i] now' H; [reflexivity|]. exact (Hoks i now' H).
    + destruct (is_allowed_other now ip' ip self Hne) as [Hr Hbl].
      destruct (is_allowed now ip' self) as [ok self1]. cbn [fst snd] in *.
      destruct (IH self1) as (Hb' & Hr' & Hoks).
      * congruence.
      * rewrite Hdur. exact Hall.
      * destruct (run_requests calls self1) as [oks self2].
        cbn [fst snd] in *. split; [exact Hb'|]. split; [congruence|].
        intros [|i] now' H; [cbn in H; congruence|]. exact (Hoks i now' H).
Qed.

(** X23. A request that finds [max_requests] requests of its client in
    the window is refused and blocks the client; from then on every
    request of that client made before [block_duration] (300) has passed
    since the block is refused, whatever the other clients do, and these
    refusals neither prolong the block nor change the requests
    recorded. *)
Theorem rate_limiter_block_lasts (now : Z) (ip : string)
    (self : RateLimiter) (calls : list (Z * string)) :
  blocked_ips self !! ip = None ->
  (max_requests self <=
     length (List.filter (fun t => (now - t <? window_seconds self)%Z)
               (default [] (requests self !! ip))))%nat ->
  Forall (fun call => fst call - now < block_duration self) calls ->
  let blocked := snd (is_allowed now ip self) in
  fst (is_allowed now ip self) = false /\
  blocked_ips blocked !! ip = Some now /\
  blocked_ips (snd (run_requests calls blocked)) !! ip = Some now /\
  requests (snd (run_requests calls blocked)) !! ip = requests blocked !! ip /\
  forall i t,
    calls !! i = Some (t, ip) ->
    fst (run_requests calls blocked) !! i = Some false.
Proof.
  cbv zeta. intros Hfree Hfull Hall.
  destruct (is_allowed_settings now ip self) as (_ & _ & Hdur).
  assert (fst (is_allowed now ip self) = false /\
          blocked_ips (snd (is_allowed now ip self)) !! ip = Some now)
    as [Hno Hb].
  { unfold is_allowed, count_request. rewrite Hfree.
    destruct (requests self !! ip) as [reqs|] eqn:Hreqs; cbn in Hfull |- *;
      rewrite ?Hreqs, ?lookup_insert_eq; cbn;
      apply Nat.leb_le in Hfull; rewrite Hfull; cbn;
      rewrite lookup_insert_eq; split; reflexivity. }
  split; [exact Hno|]. split; [exact Hb|].
  apply (run_requests_blocked ip now calls _ Hb). now rewrite Hdur.
Qed.

(** Three requests of one client within three seconds, for a limit of
    two. *)
Lemma rate_limiter_window_per_client_witness :
  (count_in_span 60 0
     (admitted "default" three_requests
        (fst (run_requests three_requests (__init__ 2 60)))) <= 2)%nat.
Proof.
  apply (rate_limiter_window_per_client 2 60 0 three_requests "default" 0).
  - lia.
  - cbn. repeat split; lia.
Defined.

(** The client of [strict_limiter] is blocked by its request at 20, and
    its requests at 100 and at 319 are refused. *)
Lemma rate_limiter_block_lasts_witness :
  fst (is_allowed 20 "default" strict_limiter) = false /\
  fst (run_requests [(100, "default"); (200, "other"); (319, "default")]
         (snd (is_allowed 20 "default" strict_limiter)))
    = [false; true; false].
Proof.
  destruct (rate_limiter_block_lasts 20 "default" strict_limiter
              [(100, "default"); (200, "other"); (319, "default")])
    as (Hno & _).
  - reflexivity.
  - vm_compute. lia.
  - repeat constructor; cbn; lia.
  - split; [exact Hno|]. vm_compute. reflexivity.
Defined.

End LimiterFacts.
